(** * Codegram backend

    A shallow embedding of the request handlers of the Codegram backend
    (documents, comments, follows, moderation), of its live-channel
    gateway and of its OAuth sign-in callback, together with the
    properties that the written specification states about them.

    Conventions of the embedding.
    - The relational store is a record of tables; a table is the list of its
      rows in insertion order.  Columns that no modelled handler reads or
      writes are left out of the rows.
    - A statement of the store fails for a reason the schema gives (a
      missing row, a foreign key, a uniqueness constraint, the range of a
      column).  Inside [$transaction] the store may also give up on a
      statement for a reason of its own (a crash, a lost connection, a
      deadlock): the handler that opens a transaction is embedded over
      every such [Fault].
    - A handler is a state-passing computation over the [World] that either
      goes on, sends its response, or throws.
    - A string is a sequence of one-byte code units; [String.length] stands
      for the JavaScript [length] of the string. *)

From stdpp Require Import base option list gmap strings.
From Stdlib Require Import ZArith NArith Lia Sorted Ascii.
From Stdlib Require DecimalString DecimalZ.

(** ** JavaScript values of a JSON request body *)

Inductive jsval :=
  | JNull
  | JBool (b : bool)
  | JNum (n : Z)
  | JStr (s : string)
  | JObject.

#[global] Instance jsval_eq_dec : EqDecision jsval.
Proof. solve_decision. Defined.

(** A parsed JSON object; an absent key reads as [undefined]. *)
Abbreviation jsobject := (gmap string jsval).

(** [Boolean(v)] for a value that is a string or [undefined]. *)
Definition truthy (o : option string) : bool :=
  match o with
  | Some s => bool_decide (s ≠ "")
  | None => false
  end.

(** [a ?? b] on a nullable string. *)
Definition nullish (o : option string) (d : string) : string :=
  match o with Some s => s | None => d end.

(** [a || b] on a nullable string. *)
Definition or_else (o : option string) (d : string) : string :=
  match o with
  | Some s => if bool_decide (s = "") then d else s
  | None => d
  end.

(** A JavaScript [Date] is an object: [===] compares the identity of the two
    objects, not the instants they hold. *)
Record JsDate := { date_obj : nat; date_ms : Z }.

Definition strict_eq_date (a b : JsDate) : bool :=
  bool_decide (date_obj a = date_obj b).

(** White space of [String.prototype.trim] among the one-byte code units. *)
Definition is_space (c : Ascii.ascii) : bool :=
  let n := Ascii.nat_of_ascii c in
  bool_decide (9 ≤ n ≤ 13) || bool_decide (n = 32) || bool_decide (n = 160).

Fixpoint trim_start (s : string) : string :=
  match s with
  | String c r => if is_space c then trim_start r else s
  | EmptyString => EmptyString
  end.

Fixpoint trim_end (s : string) : string :=
  match s with
  | String c r =>
      match trim_end r with
      | EmptyString => if is_space c then EmptyString else String c EmptyString
      | r' => String c r'
      end
  | EmptyString => EmptyString
  end.

Definition trim (s : string) : string := trim_end (trim_start s).

(** ** zod field schemas

    A field schema reads the value found under a key ([None] when the key is
    absent) and answers [None] when it raises an issue. *)

Module z.
Definition string (v : option jsval) : option String.string :=
    match v with Some (JStr s) => Some s | _ => None end.

Definition boolean (v : option jsval) : option bool :=
    match v with Some (JBool b) => Some b | _ => None end.

Definition optional {A} (p : option jsval → option A) (v : option jsval)
    : option (option A) :=
    match v with
    | None => Some None
    | Some _ => Some <$> p v
    end.

Definition default {A} (p : option jsval → option A) (d : A)
    (v : option jsval) : option A :=
    match v with
    | None => Some d
    | Some _ => p v
    end.

Definition min (n : nat) (s : String.string) : option String.string :=
    if bool_decide (n ≤ String.length s) then Some s else None.

Definition max (n : nat) (s : String.string) : option String.string :=
    if bool_decide (String.length s ≤ n) then Some s else None.

Definition enum (values : list String.string) (v : option jsval)
    : option String.string :=
    s ← string v;
    if bool_decide (s ∈ values) then Some s else None.

Definition check (f : String.string → bool) (s : String.string)
    : option String.string :=
    if f s then Some s else None.
End z.

(** ** The relational schema *)

Inductive Role := USER | ADMIN | BLOCKED.

Inductive NotificationType :=
  | LIKE | COMMENT | FOLLOW | REPLY | BOOKMARK | BUG_STATUS_UPDATE.

Inductive ReportStatus := PENDING | REVIEWED | RESOLVED | DISMISSED.

#[global] Instance Role_eq_dec : EqDecision Role.
Proof. solve_decision. Defined.
#[global] Instance NotificationType_eq_dec : EqDecision NotificationType.
Proof. solve_decision. Defined.
#[global] Instance ReportStatus_eq_dec : EqDecision ReportStatus.
Proof. solve_decision. Defined.

(** A [User] row holds instants ([D := Z]); the object that the client
    library builds from a row holds [Date] objects ([D := JsDate]). *)
Module User.
Record t (D : Type) := mk {
  id : string;
  githubId : string;
  username : string;
  email : string;
  name : option string;
  bio : option string;
  avatar : option string;
  githubUrl : option string;
  website : option string;
  location : option string;
  role : Role;
  createdAt : D;
  updatedAt : D;
  twitterUsername : option string;
  company : option string;
  publicRepos : option Z;
  followersCount : option Z;
  followingCount : option Z;
  githubCreatedAt : option D;
}.
Arguments mk {D}.
Arguments id {D}.
Arguments githubId {D}.
Arguments username {D}.
Arguments email {D}.
Arguments name {D}.
Arguments bio {D}.
Arguments avatar {D}.
Arguments githubUrl {D}.
Arguments website {D}.
Arguments location {D}.
Arguments role {D}.
Arguments createdAt {D}.
Arguments updatedAt {D}.
Arguments twitterUsername {D}.
Arguments company {D}.
Arguments publicRepos {D}.
Arguments followersCount {D}.
Arguments followingCount {D}.
Arguments githubCreatedAt {D}.
End User.

Module Snippet.
Record t := mk { id : string; isPublic : bool; authorId : string }.
End Snippet.

Module Doc.
Record t := mk {
  id : string;
  title : string;
  content : string;
  isPublic : bool;
  updatedAt : Z;
  authorId : string;
}.
End Doc.

Module Bug.
Record t := mk { id : string; expiresAt : Z; authorId : string }.
End Bug.

Module Comment.
Record t := mk {
  id : string;
  content : string;
  authorId : string;
  snippetId : option string;
  docId : option string;
  bugId : option string;
  parentId : option string;
}.
End Comment.

Module Like.
Record t := mk {
  id : string;
  userId : string;
  snippetId : option string;
  docId : option string;
  bugId : option string;
}.
End Like.

Module Bookmark.
Record t := mk {
  id : string;
  userId : string;
  snippetId : option string;
  docId : option string;
  bugId : option string;
}.
End Bookmark.

Module Follow.
Record t := mk { id : string; followerId : string; followingId : string }.
End Follow.

Module BlockedUser.
Record t := mk { id : string; blockerId : string; blockedId : string }.
End BlockedUser.

Module Report.
Record t := mk {
  id : string;
  reason : string;
  description : option string;
  status : ReportStatus;
  reporterId : string;
  reportedId : string;
  snippetId : option string;
  docId : option string;
  bugId : option string;
  commentId : option string;
}.
End Report.

Module Notification.
Record t := mk {
  id : string;
  type : NotificationType;
  recipientId : string;
  senderId : string;
  read : bool;
  snippetId : option string;
  docId : option string;
  bugId : option string;
  commentId : option string;
}.
End Notification.

Record DB := mkDB {
  users : list (User.t Z);
  snippets : list Snippet.t;
  docs : list Doc.t;
  bugs : list Bug.t;
  comments : list Comment.t;
  likes : list Like.t;
  bookmarks : list Bookmark.t;
  follows : list Follow.t;
  blockedUsers : list BlockedUser.t;
  reports : list Report.t;
  notifications : list Notification.t;
}.

Definition set_users (v : list (User.t Z)) (d : DB) : DB :=
  mkDB v (snippets d) (docs d) (bugs d) (comments d) (likes d) (bookmarks d)
    (follows d) (blockedUsers d) (reports d) (notifications d).
Definition set_docs (v : list Doc.t) (d : DB) : DB :=
  mkDB (users d) (snippets d) v (bugs d) (comments d) (likes d) (bookmarks d)
    (follows d) (blockedUsers d) (reports d) (notifications d).
Definition set_comments (v : list Comment.t) (d : DB) : DB :=
  mkDB (users d) (snippets d) (docs d) (bugs d) v (likes d) (bookmarks d)
    (follows d) (blockedUsers d) (reports d) (notifications d).
Definition set_likes (v : list Like.t) (d : DB) : DB :=
  mkDB (users d) (snippets d) (docs d) (bugs d) (comments d) v (bookmarks d)
    (follows d) (blockedUsers d) (reports d) (notifications d).
Definition set_bookmarks (v : list Bookmark.t) (d : DB) : DB :=
  mkDB (users d) (snippets d) (docs d) (bugs d) (comments d) (likes d) v
    (follows d) (blockedUsers d) (reports d) (notifications d).
Definition set_follows (v : list Follow.t) (d : DB) : DB :=
  mkDB (users d) (snippets d) (docs d) (bugs d) (comments d) (likes d)
    (bookmarks d) v (blockedUsers d) (reports d) (notifications d).
Definition set_blockedUsers (v : list BlockedUser.t) (d : DB) : DB :=
  mkDB (users d) (snippets d) (docs d) (bugs d) (comments d) (likes d)
    (bookmarks d) (follows d) v (reports d) (notifications d).
Definition set_reports (v : list Report.t) (d : DB) : DB :=
  mkDB (users d) (snippets d) (docs d) (bugs d) (comments d) (likes d)
    (bookmarks d) (follows d) (blockedUsers d) v (notifications d).
Definition set_notifications (v : list Notification.t) (d : DB) : DB :=
  mkDB (users d) (snippets d) (docs d) (bugs d) (comments d) (likes d)
    (bookmarks d) (follows d) (blockedUsers d) (reports d) v.

(** [@default(cuid())]: an identifier that no row of the table carries. *)
Definition cuid (used : list string) : string := fresh used.

(** [findUnique] / [findFirst]: the first row that satisfies the filter. *)
Definition find_row {A} (P : A → Prop) `{∀ x, Decision (P x)} (l : list A)
  : option A :=
  snd <$> list_find P l.

(** A nullable foreign key that points at [k]. *)
Definition refers (fk : option string) (k : string) : Prop := fk = Some k.

#[global] Instance refers_dec fk k : Decision (refers fk k).
Proof. unfold refers; apply _. Defined.

(** A nullable foreign key is satisfied when it is null or names a key of
    the referenced table. *)
Definition fk_ok (fk : option string) (keys : list string) : bool :=
  match fk with
  | Some k => bool_decide (k ∈ keys)
  | None => true
  end.

(** A nullable foreign key that names one of [keys]. *)
Definition points_into (fk : option string) (keys : list string) : Prop :=
  match fk with
  | Some k => k ∈ keys
  | None => False
  end.

#[global] Instance points_into_dec fk keys : Decision (points_into fk keys).
Proof. destruct fk; simpl; apply _. Defined.

(** ** Cascading deletes ([onDelete: Cascade]) *)

(** Replies of the comments that are about to go. *)
Definition replies_of (dead : list string) (cs : list Comment.t)
  : list string :=
  Comment.id <$> filter (λ c, points_into (Comment.parentId c) dead) cs.

(** The comments that go with [dead]: their replies, the replies of those,
    and so on; [n] rounds reach every reply of a table of [n] rows. *)
Fixpoint cascade (n : nat) (dead : list string) (cs : list Comment.t)
  : list string :=
  match n with
  | O => dead
  | S n' => cascade n' (dead ++ replies_of dead cs) cs
  end.

(** Deleting the comments that satisfy [P] takes their replies, and the
    reports and notifications attached to any of them. *)
Definition delete_comments (P : Comment.t → Prop) `{∀ c, Decision (P c)}
  (d : DB) : DB :=
  let dead :=
    cascade (length (comments d)) (Comment.id <$> filter P (comments d))
      (comments d) in
  set_comments (filter (λ c, Comment.id c ∉ dead) (comments d))
    (set_reports
       (filter (λ r, ¬ points_into (Report.commentId r) dead) (reports d))
       (set_notifications
          (filter (λ n, ¬ points_into (Notification.commentId n) dead)
             (notifications d))
          d)).

(** Deleting a document takes every row that references it. *)
Definition delete_doc_cascade (id : string) (d : DB) : DB :=
  let d1 := delete_comments (λ c, refers (Comment.docId c) id) d in
  set_docs (filter (λ x, Doc.id x ≠ id) (docs d1))
    (set_likes (filter (λ l, ¬ refers (Like.docId l) id) (likes d1))
       (set_bookmarks
          (filter (λ b, ¬ refers (Bookmark.docId b) id) (bookmarks d1))
          (set_reports
             (filter (λ r, ¬ refers (Report.docId r) id) (reports d1))
             (set_notifications
                (filter (λ n, ¬ refers (Notification.docId n) id)
                   (notifications d1))
                d1)))).

(** ** Statements of the store used inside [$transaction] *)

Inductive Statement :=
  | like_deleteMany_docId (id : string)
  | comment_deleteMany_docId (id : string)
  | bookmark_deleteMany_docId (id : string)
  | doc_delete (id : string).

(** One statement; [None] when the store rejects it.  [deleteMany] accepts
    an empty match, [delete] needs its row. *)
Definition exec (s : Statement) (d : DB) : option DB :=
  match s with
  | like_deleteMany_docId id =>
      Some (set_likes (filter (λ l, ¬ refers (Like.docId l) id) (likes d)) d)
  | comment_deleteMany_docId id =>
      Some (delete_comments (λ c, refers (Comment.docId c) id) d)
  | bookmark_deleteMany_docId id =>
      Some (set_bookmarks
              (filter (λ b, ¬ refers (Bookmark.docId b) id) (bookmarks d)) d)
  | doc_delete id =>
      match find_row (λ x, Doc.id x = id) (docs d) with
      | Some _ => Some (delete_doc_cascade id d)
      | None => None
      end
  end.

(** The statement of a sequence, counted from 0, at which the store gives
    up for a reason of its own, if it does. *)
Definition Fault := option nat.

(** The fault falls on one of the first [n] statements. *)
Definition strikes (f : Fault) (n : nat) : bool :=
  match f with
  | Some k => bool_decide (k < n)
  | None => false
  end.

(** [prisma.$transaction([s1; ...; sn])]: the statements run in order on a
    private copy of the store; the copy is published only when each of them
    succeeded, so a statement that the store rejects, or on which it gives
    up, leaves no trace of the ones before it. *)
Fixpoint transaction (f : Fault) (l : list Statement) (d : DB) : option DB :=
  match l with
  | [] => Some d
  | s :: l' =>
      match f with
      | Some O => None
      | _ => d' ← exec s d; transaction (pred <$> f) l' d'
      end
  end.

(** ** Responses, the live channel and the world of a handler *)

Inductive Body :=
  | Message (message : string)
  | Error (error : string)
  | ErrorDetails (error : string)
  | FormattedDoc (doc : Doc.t) (isLiked isBookmarked : bool)
      (likesCount commentsCount bookmarksCount : nat)
  | DocRow (doc : Doc.t)
  | FollowState (following : bool) (message : string)
  | BlockState (message : string) (isBlocked : bool)
  | ReportCreated (message : string) (report : Report.t)
  | CommentRow (comment : Comment.t).

Inductive Response :=
  | Json (status : nat) (body : Body)
  | Redirect (url : string).

Inductive Payload :=
  | FollowerPayload (follower : User.t Z)
  | CommentPayload (comment : Comment.t).

(** [io.to(room).emit(event, payload)]. *)
Record Emit := { room : string; event : string; payload : Payload }.

(** The store, the live-channel singleton ([None] until it is initialised,
    then the events it has sent) and the next free object identity. *)
Record World := mkWorld {
  db : DB;
  io : option (list Emit);
  heap : nat;
}.

Definition set_db (d : DB) (w : World) : World := mkWorld d (io w) (heap w).

Inductive Exn :=
  | ZodError
  | TypeError
  | PrismaError
  | SocketNotInitialized
  | JsError (message : string).

(** How a handler leaves a step: it goes on with a value, it has sent the
    response and returned, or it has thrown. *)
Inductive Flow (A : Type) :=
  | Next (a : A)
  | Sent (r : Response)
  | Thrown (e : Exn).
Arguments Next {A}.
Arguments Sent {A}.
Arguments Thrown {A}.

Definition Handler (A : Type) : Type := World → Flow A * World.

#[global] Instance Handler_ret : MRet Handler := λ A a w, (Next a, w).

#[global] Instance Handler_bind : MBind Handler := λ A B f m w,
  match m w with
  | (Next a, w') => f a w'
  | (Sent r, w') => (Sent r, w')
  | (Thrown e, w') => (Thrown e, w')
  end.

(** [return res.status(status).json(body)]. *)
Definition send {A} (status : nat) (body : Body) : Handler A :=
  λ w, (Sent (Json status body), w).

Definition redirect {A} (url : string) : Handler A :=
  λ w, (Sent (Redirect url), w).

Definition throw {A} (e : Exn) : Handler A := λ w, (Thrown e, w).

(** [try { h } catch (error) { c error }]: what [h] wrote before it threw
    stays written. *)
Definition try_catch {A} (h : Handler A) (c : Exn → Handler A) : Handler A :=
  λ w,
  match h w with
  | (Thrown e, w') => c e w'
  | r => r
  end.

(** A read of the store. *)
Definition query {A} (f : DB → A) : Handler A := λ w, (Next (f (db w)), w).

(** A write that the store may reject. *)
Definition attempt {A} (f : DB → option (A * DB)) : Handler A :=
  λ w,
  match f (db w) with
  | Some (a, d) => (Next a, set_db d w)
  | None => (Thrown PrismaError, w)
  end.

(** [schema.parse(req.body)]. *)
Definition parse {A} (r : option A) : Handler A :=
  match r with
  | Some a => mret a
  | None => throw ZodError
  end.

(** [new Date(ms)]. *)
Definition new_Date (ms : Z) : Handler JsDate :=
  λ w, (Next {| date_obj := heap w; date_ms := ms |},
        mkWorld (db w) (io w) (S (heap w))).

(** [getIO().to(room).emit(event, payload)]; [getIO] throws while the live
    channel is not initialised. *)
Definition getIO_emit (room event : string) (p : Payload) : Handler unit :=
  λ w,
  match io w with
  | Some sent =>
      (Next (), mkWorld (db w)
                  (Some (sent ++ [{| room := room; event := event;
                                     payload := p |}]))
                  (heap w))
  | None => (Thrown SocketNotInitialized, w)
  end.

(** The request as a controller receives it: the session user, the path
    parameter of the route ([:id] or [:userId]) and the JSON body. *)
Record Request := {
  user : option (User.t JsDate);
  param : string;
  body : jsobject;
}.

(** [(req.user as any).id]: a [TypeError] when there is no session user. *)
Definition req_user_id (req : Request) : Handler string :=
  match user req with
  | Some u => mret (User.id u)
  | None => throw TypeError
  end.

(** ** Document controller *)

Record DocInput := {
  in_title : string;
  in_content : string;
  in_isPublic : bool;
}.

Definition docSchema (b : jsobject) : option DocInput :=
  title ← (z.string (b !! "title") ≫= z.min 1) ≫= z.max 255;
  content ← z.string (b !! "content") ≫= z.min 1;
  isPublic ← z.default z.boolean true (b !! "isPublic");
  Some {| in_title := title; in_content := content; in_isPublic := isPublic |}.

Definition doc_findUnique (id : string) (d : DB) : option Doc.t :=
  find_row (λ x, Doc.id x = id) (docs d).

(** The per-caller annotation of a document: the caller's own like and
    bookmark (only looked up for a truthy caller id) and the counts. *)
Definition format_doc (doc : Doc.t) (currentUserId : option string) (d : DB)
  : Body :=
  let of_doc_l := filter (λ l, refers (Like.docId l) (Doc.id doc)) (likes d) in
  let of_doc_b :=
    filter (λ b, refers (Bookmark.docId b) (Doc.id doc)) (bookmarks d) in
  let of_doc_c :=
    filter (λ c, refers (Comment.docId c) (Doc.id doc)) (comments d) in
  let mine_l :=
    if truthy currentUserId
    then Some (filter (λ l, Some (Like.userId l) = currentUserId) of_doc_l)
    else None in
  let mine_b :=
    if truthy currentUserId
    then Some (filter (λ b, Some (Bookmark.userId b) = currentUserId) of_doc_b)
    else None in
  FormattedDoc doc
    (match mine_l with Some l => bool_decide (0 < length l) | None => false end)
    (match mine_b with Some l => bool_decide (0 < length l) | None => false end)
    (length of_doc_l) (length of_doc_c) (length of_doc_b).

Definition getDocById (req : Request) : Handler unit :=
  let id := param req in
  let currentUserId := User.id <$> user req in
  doc ← query (doc_findUnique id);
  match doc with
  | None => send 404 (Message "Document not found")
  | Some doc =>
      if negb (Doc.isPublic doc)
         && bool_decide (Some (Doc.authorId doc) ≠ currentUserId)
      then send 403 (Message "Access denied to this document")
      else
        formatted ← query (format_doc doc currentUserId);
        send 200 formatted
  end.

(** [prisma.doc.update({ where: { id }, data })]. *)
Definition doc_update (id : string) (data : DocInput) (now : Z) (d : DB)
  : option (Doc.t * DB) :=
  match doc_findUnique id d with
  | Some old =>
      let new :=
        Doc.mk id (in_title data) (in_content data) (in_isPublic data) now
          (Doc.authorId old) in
      Some (new,
            set_docs
              ((λ x, if decide (Doc.id x = id) then new else x) <$> docs d) d)
  | None => None
  end.

Definition updateDoc (now : Z) (req : Request) : Handler unit :=
  let id := param req in
  validatedData ← parse (docSchema (body req));
  userId ← req_user_id req;
  doc ← query (doc_findUnique id);
  match doc with
  | None => send 404 (Message "Document not found")
  | Some doc =>
      if bool_decide (Doc.authorId doc ≠ userId)
      then send 403 (Message "Not authorized to update this document")
      else
        updatedDoc ← attempt (doc_update id validatedData now);
        send 200 (DocRow updatedDoc)
  end.

Definition prisma_transaction (f : Fault) (l : list Statement)
  : Handler unit :=
  attempt (λ d, d' ← transaction f l d; Some ((), d')).

(** The statements that [deleteDoc] hands to [$transaction]. *)
Definition deleteDoc_statements (id : string) : list Statement :=
  [ like_deleteMany_docId id;
    comment_deleteMany_docId id;
    bookmark_deleteMany_docId id;
    doc_delete id ].

(** [fault] is what the store does to the transaction of this call. *)
Definition deleteDoc (fault : Fault) (req : Request) : Handler unit :=
  let id := param req in
  userId ← req_user_id req;
  doc ← query (doc_findUnique id);
  match doc with
  | None => send 404 (Message "Document not found")
  | Some doc =>
      if bool_decide (Doc.authorId doc ≠ userId)
      then send 403 (Message "Not authorized to delete this document")
      else
        prisma_transaction fault (deleteDoc_statements id);;
        send 200 (Message "Document deleted successfully")
  end.

(** ** Notification service *)

Record NotificationInput := {
  n_recipientId : string;
  n_senderId : string;
  n_type : NotificationType;
  n_snippetId : option string;
  n_docId : option string;
  n_bugId : option string;
  n_commentId : option string;
}.

(** Modelled from the spec: [services/notificationService] is not part of
    the sources at hand.  The specification says of [createNotification]
    that it "persists a row" and is the sole writer of the Notification
    table; the row is unread and carries the references it was given. *)
Definition createNotification (i : NotificationInput) : Handler unit :=
  λ w,
  let d := db w in
  let row :=
    Notification.mk (cuid (Notification.id <$> notifications d))
      (n_type i) (n_recipientId i) (n_senderId i) false
      (n_snippetId i) (n_docId i) (n_bugId i) (n_commentId i) in
  (Next (), set_db (set_notifications (notifications d ++ [row]) d) w).

(** ** Follow controller *)

Definition user_findUnique (id : string) (d : DB) : option (User.t Z) :=
  find_row (λ u, User.id u = id) (users d).

(** [findUnique] on the compound key [followerId_followingId]. *)
Definition follow_findUnique (followerId followingId : string) (d : DB)
  : option Follow.t :=
  find_row
    (λ f, Follow.followerId f = followerId ∧ Follow.followingId f = followingId)
    (follows d).

(** [prisma.follow.delete({ where: { id } })]. *)
Definition follow_delete (id : string) (d : DB) : option (unit * DB) :=
  match find_row (λ f, Follow.id f = id) (follows d) with
  | Some _ =>
      Some ((), set_follows (filter (λ f, Follow.id f ≠ id) (follows d)) d)
  | None => None
  end.

(** [prisma.follow.create({ data, include: { follower: true } })]: both ends
    must be users and the ordered pair must be new. *)
Definition follow_create (followerId followingId : string) (d : DB)
  : option ((Follow.t * User.t Z) * DB) :=
  match user_findUnique followerId d, user_findUnique followingId d,
        follow_findUnique followerId followingId d with
  | Some follower, Some _, None =>
      let row :=
        Follow.mk (cuid (Follow.id <$> follows d)) followerId followingId in
      Some ((row, follower), set_follows (follows d ++ [row]) d)
  | _, _, _ => None
  end.

Definition toggleFollow (req : Request) : Handler unit :=
  try_catch
    (let followingId := param req in
     followerId ← req_user_id req;
     if bool_decide (followerId = followingId)
     then send 400 (Error "Cannot follow yourself")
     else
       targetUser ← query (user_findUnique followingId);
       match targetUser with
       | None => send 404 (Error "User not found")
       | Some _ =>
           existingFollow ← query (follow_findUnique followerId followingId);
           match existingFollow with
           | Some existing =>
               attempt (follow_delete (Follow.id existing));;
               send 200 (FollowState false "Unfollowed successfully")
           | None =>
               follow ← attempt (follow_create followerId followingId);
               createNotification
                 {| n_recipientId := followingId; n_senderId := followerId;
                    n_type := FOLLOW; n_snippetId := None; n_docId := None;
                    n_bugId := None; n_commentId := None |};;
               getIO_emit followingId "new-follower"
                 (FollowerPayload (snd follow));;
               send 200 (FollowState true "Followed successfully")
           end
       end)
    (λ _, send 500 (Error "Internal server error")).

(** ** Comment controller *)

Record CommentInput := {
  c_content : string;
  c_snippetId : option string;
  c_docId : option string;
  c_bugId : option string;
  c_parentId : option string;
}.

(** The three target fields, as the refinement of the schema lists them. *)
Definition targets (data : CommentInput) : list (option string) :=
  filter (λ t, truthy t = true)
    [c_snippetId data; c_docId data; c_bugId data].

Definition commentSchema (b : jsobject) : option CommentInput :=
  content ← (z.string (b !! "content") ≫= z.min 1) ≫= z.max 1000;
  snippetId ← z.optional z.string (b !! "snippetId");
  docId ← z.optional z.string (b !! "docId");
  bugId ← z.optional z.string (b !! "bugId");
  parentId ← z.optional z.string (b !! "parentId");
  let data :=
    {| c_content := content; c_snippetId := snippetId; c_docId := docId;
       c_bugId := bugId; c_parentId := parentId |} in
  if bool_decide (length (targets data) = 1) then Some data else None.

(** [if (o) { th o } else el] for a string that may be undefined. *)
Definition if_truthy {A} (o : option string) (th : string → A) (el : A) : A :=
  match o with
  | Some s => if bool_decide (s ≠ "") then th s else el
  | None => el
  end.

Definition snippet_findUnique (id : string) (d : DB) : option Snippet.t :=
  find_row (λ x, Snippet.id x = id) (snippets d).

Definition bug_findUnique (id : string) (d : DB) : option Bug.t :=
  find_row (λ x, Bug.id x = id) (bugs d).

Definition comment_findUnique (id : string) (d : DB) : option Comment.t :=
  find_row (λ x, Comment.id x = id) (comments d).

(** [prisma.comment.create({ data: { ...validatedData, authorId } })]. *)
Definition comment_create (data : CommentInput) (authorId : string) (d : DB)
  : option (Comment.t * DB) :=
  if bool_decide (authorId ∈ User.id <$> users d)
     && fk_ok (c_snippetId data) (Snippet.id <$> snippets d)
     && fk_ok (c_docId data) (Doc.id <$> docs d)
     && fk_ok (c_bugId data) (Bug.id <$> bugs d)
     && fk_ok (c_parentId data) (Comment.id <$> comments d)
  then
    let row :=
      Comment.mk (cuid (Comment.id <$> comments d)) (c_content data) authorId
        (c_snippetId data) (c_docId data) (c_bugId data) (c_parentId data) in
    Some (row, set_comments (comments d ++ [row]) d)
  else None.

(** The two locals [contentAuthorId] and [contentId] of [createComment]. *)
Record Located := {
  contentAuthorId : option string;
  contentId : option string;
}.

Definition locate_snippet (data : CommentInput) (l : Located)
  : Handler Located :=
  if_truthy (c_snippetId data)
    (λ id,
       snippet ← query (snippet_findUnique id);
       match snippet with
       | None => send 404 (Error "Snippet not found")
       | Some snippet =>
           if negb (Snippet.isPublic snippet)
           then send 403 (Error "Cannot comment on private snippet")
           else mret {| contentAuthorId := Some (Snippet.authorId snippet);
                        contentId := Some id |}
       end)
    (mret l).

Definition locate_doc (data : CommentInput) (l : Located) : Handler Located :=
  if_truthy (c_docId data)
    (λ id,
       doc ← query (doc_findUnique id);
       match doc with
       | None => send 404 (Error "Doc not found")
       | Some doc =>
           if negb (Doc.isPublic doc)
           then send 403 (Error "Cannot comment on private doc")
           else mret {| contentAuthorId := Some (Doc.authorId doc);
                        contentId := Some id |}
       end)
    (mret l).

Definition locate_bug (now : Z) (data : CommentInput) (l : Located)
  : Handler Located :=
  if_truthy (c_bugId data)
    (λ id,
       bug ← query (bug_findUnique id);
       match bug with
       | None => send 404 (Error "Bug not found")
       | Some bug =>
           if bool_decide (Bug.expiresAt bug < now)%Z
           then send 410 (Error "Bug report has expired")
           else mret {| contentAuthorId := Some (Bug.authorId bug);
                        contentId := Some id |}
       end)
    (mret l).

Definition createComment (now : Z) (req : Request) : Handler unit :=
  try_catch
    (validatedData ← parse (commentSchema (body req));
     senderId ← req_user_id req;
     l ← locate_snippet validatedData
           {| contentAuthorId := None; contentId := None |};
     l ← locate_doc validatedData l;
     l ← locate_bug now validatedData l;
     comment ← attempt (comment_create validatedData senderId);
     (if truthy (contentAuthorId l)
         && bool_decide (contentAuthorId l ≠ Some senderId)
      then
        createNotification
          {| n_recipientId := nullish (contentAuthorId l) "";
             n_senderId := senderId;
             n_type := if truthy (c_parentId validatedData)
                       then REPLY else COMMENT;
             n_snippetId := c_snippetId validatedData;
             n_docId := c_docId validatedData;
             n_bugId := c_bugId validatedData;
             n_commentId := Some (Comment.id comment) |}
      else mret ());;
     if_truthy (contentId l)
       (λ id, getIO_emit id "new_comment" (CommentPayload comment))
       (mret ());;
     send 201 (CommentRow comment))
    (λ error,
       match error with
       | ZodError => send 400 (ErrorDetails "Invalid data")
       | _ => send 500 (Error "Internal server error")
       end).

(** ** Validators of the libraries

    The string formats of zod ([cuid], [email], [url]) and [Date] parsing
    belong to libraries outside the sources at hand; the handlers are
    embedded over any implementation of them. *)

Section Codegram.

Variable is_cuid : string → bool.
Variable is_email : string → bool.
Variable is_url : string → bool.
Variable Date_parse : string → Z.

(** ** Moderation controller *)

Definition cuid_string (v : option jsval) : option string :=
  z.string v ≫= z.check is_cuid.

Definition blockSchema (b : jsobject) : option string :=
  cuid_string (b !! "userId").

Record ReportInput := {
  r_reportedUserId : option string;
  r_reason : string;
  r_description : option string;
  r_contentType : option string;
  r_contentId : option string;
}.

Definition reportSchema (b : jsobject) : option ReportInput :=
  reportedUserId ← z.optional cuid_string (b !! "reportedUserId");
  reason ← z.enum
    ["SPAM"; "HARASSMENT"; "INAPPROPRIATE_CONTENT"; "COPYRIGHT_VIOLATION";
     "FAKE_ACCOUNT"; "OTHER"] (b !! "reason");
  description ←
    z.optional (λ v, z.string v ≫= z.max 500) (b !! "description");
  contentType ←
    z.optional (z.enum ["snippet"; "doc"; "bug"; "comment"])
      (b !! "contentType");
  contentId ← z.optional cuid_string (b !! "contentId");
  Some {| r_reportedUserId := reportedUserId; r_reason := reason;
          r_description := description; r_contentType := contentType;
          r_contentId := contentId |}.

(** [findFirst({ where: { blockerId, blockedId } })]. *)
Definition blockedUser_findFirst (blockerId blockedId : string) (d : DB)
  : option BlockedUser.t :=
  find_row
    (λ x, BlockedUser.blockerId x = blockerId
          ∧ BlockedUser.blockedId x = blockedId)
    (blockedUsers d).

Definition blockedUser_delete (id : string) (d : DB) : option (unit * DB) :=
  match find_row (λ x, BlockedUser.id x = id) (blockedUsers d) with
  | Some _ =>
      Some ((), set_blockedUsers
                  (filter (λ x, BlockedUser.id x ≠ id) (blockedUsers d)) d)
  | None => None
  end.

Definition blockedUser_create (blockerId blockedId : string) (d : DB)
  : option (BlockedUser.t * DB) :=
  match user_findUnique blockerId d, user_findUnique blockedId d,
        blockedUser_findFirst blockerId blockedId d with
  | Some _, Some _, None =>
      let row :=
        BlockedUser.mk (cuid (BlockedUser.id <$> blockedUsers d))
          blockerId blockedId in
      Some (row, set_blockedUsers (blockedUsers d ++ [row]) d)
  | _, _, _ => None
  end.

Definition toggleBlock (req : Request) : Handler unit :=
  try_catch
    (userId ← parse (blockSchema (body req));
     blockerId ← req_user_id req;
     if bool_decide (userId = blockerId)
     then send 400 (Error "Cannot block yourself")
     else
       existingBlock ← query (blockedUser_findFirst blockerId userId);
       match existingBlock with
       | Some existing =>
           attempt (blockedUser_delete (BlockedUser.id existing));;
           send 200 (BlockState "User unblocked successfully" false)
       | None =>
           attempt (blockedUser_create blockerId userId);;
           send 200 (BlockState "User blocked successfully" true)
       end)
    (λ _, send 500 (Error "Failed to toggle block status")).

(** [prisma[contentType].findUnique({ where: { id }, select: { authorId } })]
    followed by [content?.authorId]. *)
Definition content_authorId (contentType contentId : string) (d : DB)
  : option string :=
  if bool_decide (contentType = "snippet")
  then Snippet.authorId <$> snippet_findUnique contentId d
  else if bool_decide (contentType = "doc")
  then Doc.authorId <$> doc_findUnique contentId d
  else if bool_decide (contentType = "bug")
  then Bug.authorId <$> bug_findUnique contentId d
  else if bool_decide (contentType = "comment")
  then Comment.authorId <$> comment_findUnique contentId d
  else None.

(** The key [`${contentType}Id`] that the report gets, with its value. *)
Definition content_key (target : option (string * string)) (k : string)
  : option string :=
  match target with
  | Some (contentType, contentId) =>
      if bool_decide (contentType = k) then Some contentId else None
  | None => None
  end.

(** [prisma.report.create({ data: reportData })]. *)
Definition report_create (reporterId : string) (data : ReportInput)
  (reportedId : string) (target : option (string * string)) (d : DB)
  : option (Report.t * DB) :=
  let row :=
    Report.mk (cuid (Report.id <$> reports d)) (r_reason data)
      (r_description data) PENDING reporterId reportedId
      (content_key target "snippet") (content_key target "doc")
      (content_key target "bug") (content_key target "comment") in
  if bool_decide (reporterId ∈ User.id <$> users d)
     && bool_decide (reportedId ∈ User.id <$> users d)
     && fk_ok (Report.snippetId row) (Snippet.id <$> snippets d)
     && fk_ok (Report.docId row) (Doc.id <$> docs d)
     && fk_ok (Report.bugId row) (Bug.id <$> bugs d)
     && fk_ok (Report.commentId row) (Comment.id <$> comments d)
  then Some (row, set_reports (reports d ++ [row]) d)
  else None.

(** The part of [createReport] under [if (contentType && contentId)]: it
    answers [finalReportedId] and the content key of the report. *)
Definition resolve_content (data : ReportInput) (reporterId : string)
  : Handler (option string * option (string * string)) :=
  if_truthy (r_contentType data)
    (λ contentType,
       if_truthy (r_contentId data)
         (λ contentId,
            contentAuthorId ← query (content_authorId contentType contentId);
            if truthy contentAuthorId
               && bool_decide (contentAuthorId = Some reporterId)
            then send 400 (Error "Cannot report your own content")
            else
              mret (if truthy contentAuthorId then contentAuthorId
                    else r_reportedUserId data,
                    Some (contentType, contentId)))
         (mret (r_reportedUserId data, None)))
    (mret (r_reportedUserId data, None)).

Definition createReport (req : Request) : Handler unit :=
  try_catch
    (data ← parse (reportSchema (body req));
     reporterId ← req_user_id req;
     if truthy (r_reportedUserId data)
        && bool_decide (r_reportedUserId data = Some reporterId)
     then send 400 (Error "Cannot report yourself")
     else
       resolved ← resolve_content data reporterId;
       if_truthy (fst resolved)
         (λ finalReportedId,
            report ← attempt
              (report_create reporterId data finalReportedId (snd resolved));
            send 201 (ReportCreated "Report submitted successfully" report))
         (send 400
            (Error
               "A reported user ID is required when not reporting content.")))
    (λ _, send 500 (Error "Failed to submit report")).

(** ** OAuth sign-in: the verify function of the GitHub strategy *)

Record EmailEntry := { value : string; verified : option bool }.

(** [profile._json], the raw account record of the provider. *)
Record GithubJson := {
  avatar_url : option string;
  bio : option string;
  blog : option string;
  location : option string;
  twitter_username : option string;
  company : option string;
  public_repos : option Z;
  followers : option Z;
  following : option Z;
  created_at : option string;
}.

Record Profile := {
  id : string;
  username : string;
  displayName : option string;
  emails : option (list EmailEntry);
  profileUrl : option string;
  _json : GithubJson;
}.

Definition opt_ok (f : string → bool) (o : option string) : bool :=
  match o with Some s => f s | None => true end.

(** [githubProfileSchema.safeParse(profile).success] on a profile whose
    fields already have the types of the schema. *)
Definition githubProfileSchema (p : Profile) : bool :=
  bool_decide (1 ≤ String.length (username p) ≤ 39)
  && match emails p with
     | Some l => forallb (λ e, is_email (value e)) l
     | None => true
     end
  && opt_ok is_url (profileUrl p)
  && opt_ok is_url (avatar_url (_json p)).

(** The [userData] object of the verify function. *)
Record UserData := {
  d_githubId : string;
  d_username : string;
  d_name : string;
  d_email : string;
  d_avatar : option string;
  d_githubUrl : option string;
  d_bio : string;
  d_website : string;
  d_location : string;
  d_twitterUsername : option string;
  d_company : option string;
  d_publicRepos : Z;
  d_followersCount : Z;
  d_followingCount : Z;
  d_githubCreatedAt : option Z;
}.

(** [validatedProfile.emails?.[0]?.value]. *)
Definition first_email (p : Profile) : option string :=
  value <$> (emails p ≫= head).

Definition userData (p : Profile) : UserData := {|
  d_githubId := id p;
  d_username := username p;
  d_name := or_else (displayName p) (username p);
  d_email := nullish (first_email p) "";
  d_avatar := avatar_url (_json p);
  d_githubUrl := profileUrl p;
  d_bio := nullish (bio (_json p)) "";
  d_website := nullish (blog (_json p)) "";
  d_location := nullish (location (_json p)) "";
  d_twitterUsername := twitter_username (_json p);
  d_company := company (_json p);
  d_publicRepos := default 0%Z (public_repos (_json p));
  d_followersCount := default 0%Z (followers (_json p));
  d_followingCount := default 0%Z (following (_json p));
  d_githubCreatedAt :=
    if truthy (created_at (_json p))
    then Date_parse <$> created_at (_json p) else None;
|}.

(** The row that [data] describes; [avatar] and [githubUrl] are the two
    fields of [userData] that can be [undefined], which a create and an
    update treat differently. *)
Definition user_row (id : string) (role : Role) (createdAt now : Z)
  (data : UserData) (email : string) (avatar githubUrl : option string)
  : User.t Z :=
  User.mk id (d_githubId data) (d_username data) email (Some (d_name data))
    (Some (d_bio data)) avatar githubUrl
    (Some (d_website data)) (Some (d_location data)) role createdAt now
    (d_twitterUsername data) (d_company data) (Some (d_publicRepos data))
    (Some (d_followersCount data)) (Some (d_followingCount data))
    (d_githubCreatedAt data).

(** A field that is [undefined] in the data of an update leaves its column
    as it is. *)
Definition or_keep (given stored : option string) : option string :=
  match given with
  | Some _ => given
  | None => stored
  end.

(** The range of an [Int] column. *)
Definition int32 (n : Z) : bool :=
  bool_decide (-2147483648 ≤ n ≤ 2147483647)%Z.

(** The three [Int?] columns of [User] hold the counts of [data]. *)
Definition counts_ok (data : UserData) : bool :=
  int32 (d_publicRepos data) && int32 (d_followersCount data)
  && int32 (d_followingCount data).

(** The three [@unique] columns of [User] are free among the rows [l]. *)
Definition unique_ok (data : UserData) (email : string)
  (l : list (User.t Z)) : bool :=
  forallb
    (λ u, bool_decide (User.githubId u ≠ d_githubId data)
          && bool_decide (User.username u ≠ d_username data)
          && bool_decide (User.email u ≠ email))
    l.

(** [prisma.user.create({ data: userData })]: [createdAt] defaults to the
    instant of the insert and [updatedAt] is stamped with it; a field that
    is [undefined] gives a column without a value. *)
Definition user_create (now : Z) (data : UserData) (d : DB)
  : option (User.t Z * DB) :=
  if unique_ok data (d_email data) (users d) && counts_ok data
  then
    let row :=
      user_row (cuid (User.id <$> users d)) USER now now data (d_email data)
        (d_avatar data) (d_githubUrl data) in
    Some (row, set_users (users d ++ [row]) d)
  else None.

(** [prisma.user.update({ where: { id }, data })]. *)
Definition user_update (now : Z) (id : string) (data : UserData)
  (email : string) (d : DB) : option (User.t Z * DB) :=
  match user_findUnique id d with
  | Some old =>
      if unique_ok data email (filter (λ u, User.id u ≠ id) (users d))
         && counts_ok data
      then
        let row :=
          user_row id (User.role old) (User.createdAt old) now data email
            (or_keep (d_avatar data) (User.avatar old))
            (or_keep (d_githubUrl data) (User.githubUrl old)) in
        Some (row,
              set_users
                ((λ u, if decide (User.id u = id) then row else u)
                   <$> users d) d)
      else None
  | None => None
  end.

(** The object that the client library hands back for a row: every
    [DateTime] column becomes a [Date] object of its own. *)
Definition materialise (u : User.t Z) : Handler (User.t JsDate) :=
  createdAt ← new_Date (User.createdAt u);
  updatedAt ← new_Date (User.updatedAt u);
  githubCreatedAt ←
    match User.githubCreatedAt u with
    | Some ms => d ← new_Date ms; mret (Some d)
    | None => mret None
    end;
  mret (User.mk (User.id u) (User.githubId u) (User.username u)
          (User.email u) (User.name u) (User.bio u) (User.avatar u)
          (User.githubUrl u) (User.website u) (User.location u)
          (User.role u) createdAt updatedAt (User.twitterUsername u)
          (User.company u) (User.publicRepos u) (User.followersCount u)
          (User.followingCount u) githubCreatedAt).

(** The verify function; [done(error)] is a throw, [done(null, user)] the
    value of the computation. *)
Definition verify (now : Z) (profile : Profile) : Handler (User.t JsDate) :=
  try_catch
    (if negb (githubProfileSchema profile)
     then throw (JsError "Invalid profile data from GitHub")
     else
       user ← query
         (λ d, find_row (λ u, User.githubId u = id profile) (users d));
       let userData := userData profile in
       if negb (truthy (Some (d_email userData)))
       then throw (JsError "Email is required from GitHub profile")
       else
         match user with
         | None =>
             row ← attempt (user_create now userData);
             materialise row
         | Some user =>
             row ← attempt
               (user_update now (User.id user) userData
                  (nullish (first_email profile) (User.email user)));
             materialise row
         end)
    (λ error, throw error).

(** ** Auth controller *)

Definition setup_url (frontendUrl : string) : string :=
  frontendUrl +:+ "/profile/setup".

Definition home_url (frontendUrl : string) : string :=
  frontendUrl +:+ "/home".

Definition isNewUser (user : User.t JsDate) : bool :=
  negb (truthy (User.bio user))
  || bool_decide (trim (nullish (User.bio user) "") = "")
  || strict_eq_date (User.createdAt user) (User.updatedAt user).

(** [FRONTEND_URL] is the variable of that name in [process.env]. *)
Definition githubCallback (FRONTEND_URL : option string) (req : Request)
  : Handler unit :=
  let frontendUrl := or_else FRONTEND_URL "http://localhost:3000" in
  match user req with
  | None => throw TypeError
  | Some user =>
      if isNewUser user
      then redirect (setup_url frontendUrl)
      else redirect (home_url frontendUrl)
  end.

(** Modelled from the spec: the route module of the sign-in callback is not
    part of the sources at hand.  The specification says that the provider
    "supplies a verified profile", that "the system upserts a local User
    row keyed by the provider's account id and redirects to a setup or home
    destination": the user that the verify function yields becomes
    [req.user] of the request that [githubCallback] answers. *)
Definition github_callback_route (now : Z) (FRONTEND_URL : option string)
  (profile : Profile) : Handler unit :=
  user ← verify now profile;
  githubCallback FRONTEND_URL {| user := Some user; param := ""; body := ∅ |}.

(** ** Live channel gateway *)

Inductive Level := warn | debug.

Record LogLine := { level : Level; message : string }.

(** The state that one connection owns: the counters of its rate limiter,
    the rooms it has joined and what its handlers have logged. *)
Record Socket := mkSocket {
  eventCounts : gmap string nat;
  rooms : gset string;
  logs : list LogLine;
}.

Definition logger (l : Level) (m : string) (s : Socket) : Socket :=
  mkSocket (eventCounts s) (rooms s) (logs s ++ [{| level := l; message := m |}]).

Definition checkRateLimit (eventName : string) (limit : nat) (s : Socket)
  : bool * Socket :=
  let count := default 0 (eventCounts s !! eventName) in
  if bool_decide (limit ≤ count)
  then (false, logger warn "Socket rate limit exceeded:" s)
  else (true, mkSocket (<[eventName := count + 1]> (eventCounts s))
                (rooms s) (logs s)).

(** [!id || typeof id !== 'string' || id.length > 50]. *)
Definition invalid_id (v : jsval) : bool :=
  match v with
  | JStr s => bool_decide (s = "") || bool_decide (50 < String.length s)
  | _ => true
  end.

Definition room_of (v : jsval) : string :=
  match v with JStr s => s | _ => "" end.

Definition socket_join (r : string) (s : Socket) : Socket :=
  mkSocket (eventCounts s) ({[r]} ∪ rooms s) (logs s).

Definition socket_leave (r : string) (s : Socket) : Socket :=
  mkSocket (eventCounts s) (rooms s ∖ {[r]}) (logs s).

Definition on_join_user_room (userId : jsval) (s : Socket) : Socket :=
  let (ok, s) := checkRateLimit "join-user-room" 5 s in
  if negb ok then s
  else if invalid_id userId
  then logger warn "Invalid userId in join-user-room:" s
  else logger debug "Socket joined user room:" (socket_join (room_of userId) s).

Definition on_join_content_room (contentId : jsval) (s : Socket) : Socket :=
  let (ok, s) := checkRateLimit "join-content-room" 10 s in
  if negb ok then s
  else if invalid_id contentId
  then logger warn "Invalid contentId in join-content-room:" s
  else logger debug "Socket joined content room:"
         (socket_join (room_of contentId) s).

Definition on_leave_content_room (contentId : jsval) (s : Socket) : Socket :=
  let (ok, s) := checkRateLimit "leave-content-room" 10 s in
  if negb ok then s
  else if invalid_id contentId then s
  else logger debug "Socket left content room:"
         (socket_leave (room_of contentId) s).

(** The events a client sends, each with its argument. *)
Inductive ClientEvent :=
  | join_user_room (userId : jsval)
  | join_content_room (contentId : jsval)
  | leave_content_room (contentId : jsval).

Definition eventName (e : ClientEvent) : string :=
  match e with
  | join_user_room _ => "join-user-room"
  | join_content_room _ => "join-content-room"
  | leave_content_room _ => "leave-content-room"
  end.

Definition limit_of (e : ClientEvent) : nat :=
  match e with
  | join_user_room _ => 5
  | join_content_room _ => 10
  | leave_content_room _ => 10
  end.

Definition receive (e : ClientEvent) (s : Socket) : Socket :=
  match e with
  | join_user_room v => on_join_user_room v s
  | join_content_room v => on_join_content_room v s
  | leave_content_room v => on_leave_content_room v s
  end.

(** Whether the rate limiter lets the event through. *)
Definition passes (e : ClientEvent) (s : Socket) : bool :=
  fst (checkRateLimit (eventName e) (limit_of e) s).

(** The callback of [resetInterval]: [eventCounts.clear()]. *)
Definition reset (s : Socket) : Socket := mkSocket ∅ (rooms s) (logs s).

(** A connection in time: its state and how often the callback of the
    interval has run.  Instants are milliseconds since the connection was
    made, when [setInterval(..., 60000)] was armed. *)
Record Connection := { socket : Socket; fired : N }.

Definition connect : Connection :=
  {| socket := mkSocket ∅ ∅ []; fired := 0 |}.

(** The callbacks of the interval that are due at instant [t] run before
    an event that arrives at [t]. *)
Definition tick (t : N) (c : Connection) : Connection :=
  let due := (t / 60000)%N in
  if bool_decide (fired c < due)%N
  then {| socket := reset (socket c); fired := due |}
  else c.

Definition deliver (t : N) (e : ClientEvent) (c : Connection) : Connection :=
  let c' := tick t c in
  {| socket := receive e (socket c'); fired := fired c' |}.

(** The events of a timed trace that the rate limiter lets through. *)
Fixpoint processed (tr : list (N * ClientEvent)) (c : Connection)
  : list (N * ClientEvent) :=
  match tr with
  | [] => []
  | (t, e) :: tr' =>
      (if passes e (socket (tick t c)) then [(t, e)] else [])
      ++ processed tr' (deliver t e c)
  end.

(** How many events named [name] of [l] fall in the window [lo, hi). *)
Definition count_in (lo hi : N) (name : string) (l : list (N * ClientEvent))
  : nat :=
  length (filter (λ x, (lo ≤ fst x < hi)%N ∧ eventName (snd x) = name) l).

(** Instants of a trace do not go back. *)
Definition chronological (tr : list (N * ClientEvent)) : Prop :=
  Sorted N.le (fst <$> tr).

(** ** Sample data

    Stand-ins for the format tests of the validation library and a small
    store, used to run the handlers on concrete requests. *)

(** The shape that zod tests a cuid for: a [c], then at least eight
    characters, none of them white space or a hyphen. *)
Definition sample_is_cuid (s : string) : bool :=
  match s with
  | String c r =>
      (bool_decide (c = "c"%char) || bool_decide (c = "C"%char))
      && bool_decide (8 ≤ String.length r)
      && forallb (λ x, negb (is_space x) && negb (bool_decide (x = "-"%char)))
           (String.list_ascii_of_string r)
  | EmptyString => false
  end.

(** A crude address test: something on both sides of an [@]. *)
Definition sample_is_email (s : string) : bool :=
  match String.index 0 "@" s with
  | Some i => bool_decide (0 < i) && bool_decide (i + 1 < String.length s)
  | None => false
  end.

Definition sample_is_url (s : string) : bool :=
  String.prefix "http://" s || String.prefix "https://" s.

Definition sample_Date_parse (s : string) : Z := 0.

Definition alice : string := "calice00001".
Definition bob : string := "cbob0000002".
Definition carol : string := "ccarol00003".

Definition sample_row (id : string) (bio : option string) : User.t Z :=
  User.mk id ("gh-" +:+ id) id (id +:+ "@example.org") (Some id) bio None None
    None None USER 1000%Z 1000%Z None None None None None None.

(** The session user that the framework restores for the row. *)
Definition session (id : string) : User.t JsDate :=
  User.mk id ("gh-" +:+ id) id (id +:+ "@example.org") (Some id)
    (Some "hello") None None None None USER
    {| date_obj := 0; date_ms := 1000%Z |} {| date_obj := 1; date_ms := 1000%Z |}
    None None None None None None.

Definition sample_doc : Doc.t :=
  Doc.mk "cdoc0000001" "Notes" "Body of the notes" false 1000 alice.

Definition public_doc : Doc.t :=
  Doc.mk "cdoc0000002" "Guide" "Body of the guide" true 1000 alice.

Definition sample_bug : Bug.t := Bug.mk "cbug0000001" 5000 alice.

Definition sample_db : DB := {|
  users := [sample_row alice (Some "hello"); sample_row bob (Some "hello");
            sample_row carol (Some "")];
  snippets := [];
  docs := [sample_doc; public_doc];
  bugs := [sample_bug];
  comments :=
    [Comment.mk "ccomment001" "first" bob None (Some "cdoc0000001") None None;
     Comment.mk "ccomment002" "reply" carol None None None
       (Some "ccomment001")];
  likes := [Like.mk "clike000001" bob None (Some "cdoc0000001") None];
  bookmarks := [Bookmark.mk "cmark000001" bob None (Some "cdoc0000001") None];
  follows := [];
  blockedUsers := [];
  reports := [];
  notifications := [];
|}.

Definition sample_world : World :=
  {| db := sample_db; io := Some []; heap := 2 |}.

Definition request (who : string) (p : string) (b : jsobject) : Request :=
  {| user := Some (session who); param := p; body := b |}.

(** ** Notions of the specification *)

(** The follow edge from [a] to [b] is present. *)
Definition follows_edge (a b : string) (d : DB) : bool :=
  bool_decide (is_Some (follow_findUnique a b d)).

(** Every row of the ordered pair [(a, b)] is the row [x]. *)
Definition only_edge (a b : string) (x : Follow.t) (d : DB) : Prop :=
  ∀ f, f ∈ follows d → Follow.followerId f = a → Follow.followingId f = b →
       f = x.

(** The FOLLOW notification that [a] causes for [b]. *)
Definition follow_notice (id a b : string) : Notification.t :=
  Notification.mk id FOLLOW b a false None None None None.

(** The world after [n] calls of the follow toggle with one request. *)
Definition toggled (n : nat) (req : Request) (w : World) : World :=
  Nat.iter n (λ w, snd (toggleFollow req w)) w.

(** The three target fields of a comment. *)
Definition target_keys : list string := ["snippetId"; "docId"; "bugId"].

(** The body carries the key, whatever the value. *)
Definition names_field (b : jsobject) (k : string) : bool :=
  bool_decide (is_Some (b !! k)).

(** The body gives the key a value other than the empty string. *)
Definition value_set (v : option jsval) : bool :=
  match v with
  | Some (JStr EmptyString) => false
  | Some _ => true
  | None => false
  end.

Definition sets_field (b : jsobject) (k : string) : bool := value_set (b !! k).

(** How many of the target fields a body sets, for a notion [f] of a body
    setting a field. *)
Definition count_targets (f : jsobject → string → bool) (b : jsobject) : nat :=
  length (filter (λ k, f b k = true) target_keys).

(** The count that the rate limiter holds for an event name. *)
Definition counter (s : Socket) (name : string) : nat :=
  default 0 (eventCounts s !! name).

(** Ten [join-user-room] events in one second, around the instant at which
    the interval fires. *)
Definition burst : list (N * ClientEvent) :=
  (λ t, (t, join_user_room (JStr alice)))
  <$> [59500; 59600; 59700; 59800; 59900;
       60000; 60100; 60200; 60300; 60400]%N.

(** The profile that the provider sends for an account, with the biography
    it carries. *)
Definition sample_profile (who : string) (about : option string) : Profile := {|
  id := "gh-" +:+ who;
  username := who;
  displayName := None;
  emails := Some [{| value := who +:+ "@example.org"; verified := Some true |}];
  profileUrl := None;
  _json := {|
    avatar_url := None; bio := about; blog := None; location := None;
    twitter_username := None; company := None; public_repos := None;
    followers := None; following := None; created_at := None;
  |};
|}.

Definition dave : string := "cdave000004".

(** A body that gives every target of a comment its value. *)
Definition comment_on_bug : jsobject :=
  {[ "content" := JStr "hi"; "bugId" := JStr "cbug0000001" ]}.



(** ** Further handlers

    A handler whose answer has a shape of its own yields the answer as the
    value of its computation: [respond v] is [res.json(v)], sent with
    status 200 as the last thing the handler does. *)

Definition respond {A} (v : A) : Handler A := mret v.

(** [Boolean(v)] for any value found in a body. *)
Definition js_truthy (v : option jsval) : bool :=
  match v with
  | None => false
  | Some JNull => false
  | Some (JBool b) => b
  | Some (JNum n) => negb (bool_decide (n = 0%Z))
  | Some (JStr s) => bool_decide (s ≠ "")
  | Some JObject => true
  end.

(** *** Comment controller: update and delete *)

(** [prisma.comment.update({ where: { id }, data: { content } })]. *)
Definition comment_update (id content : string) (d : DB)
  : option (Comment.t * DB) :=
  match comment_findUnique id d with
  | Some old =>
      let new :=
        Comment.mk id content (Comment.authorId old) (Comment.snippetId old)
          (Comment.docId old) (Comment.bugId old) (Comment.parentId old) in
      Some (new,
            set_comments
              ((λ c, if decide (Comment.id c = id) then new else c)
                 <$> comments d) d)
  | None => None
  end.

(** [content.trim()] and [content.length] exist for a string only; for
    any other truthy value the call of [trim] is a [TypeError]. *)
Definition updateComment (req : Request) : Handler unit :=
  try_catch
    (let content := body req !! "content" in
     if negb (js_truthy content)
     then send 400 (Error "Content is required")
     else
       match content with
       | Some (JStr content) =>
           if bool_decide (String.length (trim content) = 0)
           then send 400 (Error "Content is required")
           else if bool_decide (1000 < String.length content)
           then send 400 (Error "Content too long")
           else
             comment ← query (comment_findUnique (param req));
             match comment with
             | None => send 404 (Error "Comment not found")
             | Some comment =>
                 userId ← req_user_id req;
                 if bool_decide (Comment.authorId comment ≠ userId)
                 then send 403 (Error "Access denied")
                 else
                   updatedComment ←
                     attempt (comment_update (param req) content);
                   send 200 (CommentRow updatedComment)
             end
       | _ => throw TypeError
       end)
    (λ _, send 500 (Error "Internal server error")).

(** [prisma.comment.delete({ where: { id } })]. *)
Definition comment_delete (id : string) (d : DB) : option (unit * DB) :=
  match comment_findUnique id d with
  | Some _ => Some ((), delete_comments (λ c, Comment.id c = id) d)
  | None => None
  end.

Definition deleteComment (req : Request) : Handler unit :=
  try_catch
    (comment ← query (comment_findUnique (param req));
     match comment with
     | None => send 404 (Error "Comment not found")
     | Some comment =>
         userId ← req_user_id req;
         if bool_decide (Comment.authorId comment ≠ userId)
         then send 403 (Error "Access denied")
         else
           attempt (comment_delete (param req));;
           send 200 (Message "Comment deleted successfully")
     end)
    (λ _, send 500 (Error "Internal server error")).

(** *** Follow and moderation controllers: the status checks *)

(** The answer [{ following }] of [checkFollow]. *)
Definition checkFollow (req : Request) : Handler bool :=
  try_catch
    (let followingId := param req in
     followerId ← req_user_id req;
     follow ← query (follow_findUnique followerId followingId);
     respond (bool_decide (is_Some follow)))
    (λ _, send 500 (Error "Internal server error")).

(** The answer [{ isBlocked }] of [checkBlockStatus]. *)
Definition checkBlockStatus (req : Request) : Handler bool :=
  try_catch
    (let userId := param req in
     checkerId ← req_user_id req;
     isBlocked ← query (blockedUser_findFirst checkerId userId);
     respond (bool_decide (is_Some isBlocked)))
    (λ _, send 500 (Error "Failed to check block status")).

(** *** Moderation controller: the review of reports *)

(** [(req.user as any).role]. *)
Definition req_user_role (req : Request) : Handler Role :=
  match user req with
  | Some u => mret (User.role u)
  | None => throw TypeError
  end.

Definition status_values : list string :=
  ["PENDING"; "REVIEWED"; "RESOLVED"; "DISMISSED"].

(** The member of [ReportStatus] that a string names. *)
Definition status_of (s : string) : option ReportStatus :=
  if bool_decide (s = "PENDING") then Some PENDING
  else if bool_decide (s = "REVIEWED") then Some REVIEWED
  else if bool_decide (s = "RESOLVED") then Some RESOLVED
  else if bool_decide (s = "DISMISSED") then Some DISMISSED
  else None.

(** [z.object({ status: z.enum([...]) }).parse(req.body)]. *)
Definition statusSchema (b : jsobject) : option ReportStatus :=
  z.enum status_values (b !! "status") ≫= status_of.

Definition with_status (s : ReportStatus) (r : Report.t) : Report.t :=
  Report.mk (Report.id r) (Report.reason r) (Report.description r) s
    (Report.reporterId r) (Report.reportedId r) (Report.snippetId r)
    (Report.docId r) (Report.bugId r) (Report.commentId r).

Definition report_findUnique (id : string) (d : DB) : option Report.t :=
  find_row (λ r, Report.id r = id) (reports d).

(** [prisma.report.update({ where: { id }, data: { status } })]. *)
Definition report_update (id : string) (s : ReportStatus) (d : DB)
  : option (Report.t * DB) :=
  match report_findUnique id d with
  | Some old =>
      Some (with_status s old,
            set_reports
              ((λ r, if decide (Report.id r = id) then with_status s old
                     else r) <$> reports d) d)
  | None => None
  end.

(** The path parameter is [:reportId]; the body of the answer,
    [{ message, report }], has the shape of [ReportCreated]. *)
Definition updateReportStatus (req : Request) : Handler unit :=
  try_catch
    (userRole ← req_user_role req;
     if bool_decide (userRole ≠ ADMIN)
     then send 403 (Error "Access denied")
     else
       let reportId := param req in
       status ← parse (statusSchema (body req));
       report ← attempt (report_update reportId status);
       send 200 (ReportCreated "Report status updated successfully" report))
    (λ _, send 500 (Error "Failed to update report status")).

(** *** Live channel: the broadcast to followers *)

(** [followers.forEach(follow => io.to(follow.followerId).emit(...))]. *)
Fixpoint emit_each (followers : list Follow.t) (event : string) (p : Payload)
  : Handler unit :=
  match followers with
  | [] => mret ()
  | follow :: rest =>
      getIO_emit (Follow.followerId follow) event p;;
      emit_each rest event p
  end.

(** The payload is an object of the caller, so [!payload] is false; the
    handle of the channel is fetched once, before the first emission. *)
Definition emitToFollowers (authorId eventName : string) (p : Payload)
  : Handler unit :=
  try_catch
    (if bool_decide (authorId = "") || bool_decide (eventName = "")
     then mret ()
     else
       followers ← query
         (λ d, filter (λ f, Follow.followingId f = authorId) (follows d));
       (λ w, match io w with
             | Some _ => (Next (), w)
             | None => (Thrown SocketNotInitialized, w)
             end);;
       emit_each followers eventName p;;
       getIO_emit authorId eventName p)
    (λ _, mret ()).

(** *** The hourly sweep of expired bugs *)

(** Deleting the bugs that satisfy [P] takes every row that references one
    of them. *)
Definition delete_bugs (P : Bug.t → Prop) `{∀ b, Decision (P b)} (d : DB)
  : DB :=
  let gone := Bug.id <$> filter P (bugs d) in
  let d1 := delete_comments (λ c, points_into (Comment.bugId c) gone) d in
  mkDB (users d1) (snippets d1) (docs d1)
    (filter (λ b, ¬ P b) (bugs d1))
    (comments d1)
    (filter (λ l, ¬ points_into (Like.bugId l) gone) (likes d1))
    (filter (λ b, ¬ points_into (Bookmark.bugId b) gone) (bookmarks d1))
    (follows d1) (blockedUsers d1)
    (filter (λ r, ¬ points_into (Report.bugId r) gone) (reports d1))
    (filter (λ n, ¬ points_into (Notification.bugId n) gone)
       (notifications d1)).

(** [prisma.bug.deleteMany({ where: { expiresAt: { lt: new Date() } } })],
    the body of the scheduled job. *)
Definition sweep (now : Z) (w : World) : World :=
  set_db (delete_bugs (λ b, (Bug.expiresAt b < now)%Z) (db w)) w.

(** *** Listings

    Three more pieces of the platform stay outside the sources at hand:
    [parseInt] ([None] stands for [NaN]), how a number prints, and the
    window [skip], [take] that the store cuts out of the rows that match a
    filter, in the order asked for ([None] when the store rejects the
    window). *)

Variable parseInt : string → option Z.
Variable Number_toString : Z → string.
Variable page_of : ∀ A : Type, option Z → option Z → list A → option (list A).

(** [parseInt(v as string)] for a parameter of [req.query] that may be
    absent. *)
Definition parseInt_param (v : option string) : option Z := v ≫= parseInt.

(** [n || d] on a number. *)
Definition num_or (n : option Z) (d : Z) : Z :=
  match n with
  | Some n => if bool_decide (n = 0%Z) then d else n
  | None => d
  end.

(** [Math.ceil(total / limit)]; no finite number when [limit] is 0. *)
Definition ceil_div (total : nat) (limit : Z) : option Z :=
  if bool_decide (limit = 0%Z) then None
  else Some (- ((- Z.of_nat total) / limit))%Z.

(** The answer of a listing; a number that is not finite prints as
    [null], here [None]. *)
Record Page (A : Type) := {
  items : list A;
  total : nat;
  pages : option Z;
  currentPage : option Z;
  hasMore : option bool;
}.
Arguments items {A}.
Arguments total {A}.
Arguments pages {A}.
Arguments currentPage {A}.
Arguments hasMore {A}.

(** [findMany({ where, skip, take, orderBy })] over the rows that match. *)
Definition findMany {A} (skip take : option Z) (matching : list A)
  : Handler (list A) :=
  λ w,
  match page_of A skip take matching with
  | Some rows => (Next rows, w)
  | None => (Thrown PrismaError, w)
  end.

Definition getAllDocs (qs : gmap string string) (req : Request)
  : Handler (Page Body) :=
  let page := num_or (parseInt_param (qs !! "page")) 1 in
  let limit := num_or (parseInt_param (qs !! "limit")) 10 in
  let skip := ((page - 1) * limit)%Z in
  let currentUserId := User.id <$> user req in
  matching ← query (λ d, filter (λ x, Doc.isPublic x = true) (docs d));
  docs ← findMany (Some skip) (Some limit) matching;
  formattedDocs ←
    query (λ d, (λ doc, format_doc doc currentUserId d) <$> docs);
  respond {| items := formattedDocs;
             total := length matching;
             pages := ceil_div (length matching) limit;
             currentPage := Some page;
             hasMore :=
               Some (bool_decide (skip + limit < Z.of_nat (length matching))%Z)
          |}.

(** The path parameter is [:username]. *)
Definition getUserDocs (qs : gmap string string) (req : Request)
  : Handler (Page Body) :=
  let username := param req in
  let page := num_or (parseInt_param (qs !! "page")) 1 in
  let limit := num_or (parseInt_param (qs !! "limit")) 10 in
  let skip := ((page - 1) * limit)%Z in
  let currentUserId := User.id <$> user req in
  user ← query (λ d, find_row (λ u, User.username u = username) (users d));
  match user with
  | None => send 404 (Message "User not found")
  | Some user =>
      matching ← query
        (λ d, filter
                (λ x, Doc.authorId x = User.id user
                      ∧ (currentUserId = Some (User.id user)
                         ∨ Doc.isPublic x = true))
                (docs d));
      docs ← findMany (Some skip) (Some limit) matching;
      formattedDocs ←
        query (λ d, (λ doc, format_doc doc currentUserId d) <$> docs);
      respond {| items := formattedDocs;
                 total := length matching;
                 pages := ceil_div (length matching) limit;
                 currentPage := Some page;
                 hasMore :=
                   Some (bool_decide
                           (skip + limit < Z.of_nat (length matching))%Z)
              |}
  end.

(** A condition of a [where] object that is only set for a truthy id. *)
Definition where_id (asked : option string) (fk : option string) : Prop :=
  truthy asked = true → fk = asked.

#[global] Instance where_id_dec asked fk : Decision (where_id asked fk).
Proof. unfold where_id. apply _. Defined.

(** The direct replies of a comment, in the order of their creation,
    which is the order of the table. *)
Definition replies (c : Comment.t) (d : DB) : list Comment.t :=
  filter (λ r, Comment.parentId r = Some (Comment.id c)) (comments d).

Definition getComments (qs : gmap string string)
  : Handler (Page (Comment.t * list Comment.t)) :=
  try_catch
    (let snippetId := qs !! "snippetId" in
     let docId := qs !! "docId" in
     let bugId := qs !! "bugId" in
     let pageNum := parseInt (default "1" (qs !! "page")) in
     let limitNum := parseInt (default "20" (qs !! "limit")) in
     let skip :=
       p ← pageNum; l ← limitNum; Some ((p - 1) * l)%Z in
     if negb (truthy snippetId) && negb (truthy docId) && negb (truthy bugId)
     then send 400 (Error "Content ID is required")
     else
       matching ← query
         (λ d, filter
                 (λ c, Comment.parentId c = None
                       ∧ where_id snippetId (Comment.snippetId c)
                       ∧ where_id docId (Comment.docId c)
                       ∧ where_id bugId (Comment.bugId c))
                 (comments d));
       comments ← findMany skip limitNum matching;
       withReplies ← query (λ d, (λ c, (c, replies c d)) <$> comments);
       respond {| items := withReplies;
                  total := length matching;
                  pages := limitNum ≫= ceil_div (length matching);
                  currentPage := pageNum;
                  hasMore := None |})
    (λ _, send 500 (Error "Internal server error")).

(** The [where] object of [getReports]: empty, or the status asked for. *)
Definition where_status (wanted : option ReportStatus) (r : Report.t) : Prop :=
  match wanted with
  | Some s => Report.status r = s
  | None => True
  end.

#[global] Instance where_status_dec wanted r : Decision (where_status wanted r).
Proof. destruct wanted; simpl; apply _. Defined.

Definition getReports (qs : gmap string string) (req : Request)
  : Handler (Page Report.t) :=
  try_catch
    (userRole ← req_user_role req;
     if bool_decide (userRole ≠ ADMIN)
     then send 403 (Error "Access denied")
     else
       let page := num_or (parseInt_param (qs !! "page")) 1 in
       let limit := num_or (parseInt_param (qs !! "limit")) 10 in
       let skip := ((page - 1) * limit)%Z in
       wanted ←
         if_truthy (qs !! "status")
           (λ status,
              match status_of status with
              | Some s => mret (Some s)
              | None => throw PrismaError
              end)
           (mret None);
       matching ← query (λ d, filter (where_status wanted) (reports d));
       reports ← findMany (Some skip) (Some limit) matching;
       respond {| items := reports;
                  total := length matching;
                  pages := ceil_div (length matching) limit;
                  currentPage := Some page;
                  hasMore := None |})
    (λ _, send 500 (Error "Failed to fetch reports")).

(** *** The pagination middleware *)

(** The middleware answers itself or hands on the request with [req.query]
    rewritten. *)
Definition validatePagination (qs : gmap string string)
  : Response + gmap string string :=
  let page := num_or (parseInt_param (qs !! "page")) 1 in
  let limit := Z.min (num_or (parseInt_param (qs !! "limit")) 10) 50 in
  if bool_decide (page < 1)%Z
  then inl (Json 400 (Error "Page must be greater than 0"))
  else if bool_decide (limit < 1)%Z || bool_decide (50 < limit)%Z
  then inl (Json 400 (Error "Limit must be between 1 and 50"))
  else inr (<["limit" := Number_toString limit]>
              (<["page" := Number_toString page]> qs)).

(** [app.use('/api/docs', validatePagination)] in front of the listing of
    the documents. *)
Definition docs_listing (qs : gmap string string) (req : Request)
  : Handler (Page Body) :=
  match validatePagination qs with
  | inl r => λ w, (Sent r, w)
  | inr qs' => getAllDocs qs' req
  end.

(** ** Notions used by the further properties *)

(** Every reply of the table has its parent in the table: the foreign key
    [parentId] holds. *)
Definition parents_present (cs : list Comment.t) : Prop :=
  ∀ c p, c ∈ cs → Comment.parentId c = Some p → p ∈ Comment.id <$> cs.

(** The ids [dead] contain every reply to one of them. *)
Definition closed_under_replies (dead : list string) (cs : list Comment.t)
  : Prop :=
  ∀ c, c ∈ cs → points_into (Comment.parentId c) dead → Comment.id c ∈ dead.

(** How many comments of the table the ids [dead] cover. *)
Definition covered (dead : list string) (cs : list Comment.t) : nat :=
  length (filter (λ c, Comment.id c ∈ dead) cs).

(** The follow table as the follow controller keeps it: nobody follows
    themselves, both ends of an edge are users, and an ordered pair has at
    most one row. *)
Definition follows_wellformed (d : DB) : Prop :=
  (∀ f, f ∈ follows d →
        Follow.followerId f ≠ Follow.followingId f
        ∧ is_Some (user_findUnique (Follow.followerId f) d)
        ∧ is_Some (user_findUnique (Follow.followingId f) d))
  ∧ (∀ f g, f ∈ follows d → g ∈ follows d →
            Follow.followerId f = Follow.followerId g →
            Follow.followingId f = Follow.followingId g → f = g).

(** The schema's [@@unique([blockerId, blockedId])]. *)
Definition blocks_unique (d : DB) : Prop :=
  ∀ x y, x ∈ blockedUsers d → y ∈ blockedUsers d →
         BlockedUser.blockerId x = BlockedUser.blockerId y →
         BlockedUser.blockedId x = BlockedUser.blockedId y → x = y.

(** [!!isBlocked] for the pair. *)
Definition blocks_edge (a b : string) (d : DB) : bool :=
  bool_decide (is_Some (blockedUser_findFirst a b d)).

(** What the listings need of the store's window: the rows it returns
    are among the rows that match, and no more than [take] of them. *)
Definition page_within : Prop :=
  ∀ A skip take (l rows : list A),
    page_of A skip take l = Some rows → ∀ x, x ∈ rows → x ∈ l.

Definition page_bounded : Prop :=
  ∀ A skip take (l rows : list A),
    page_of A skip (Some take) l = Some rows → (0 ≤ take)%Z →
    (Z.of_nat (length rows) ≤ take)%Z.

(** What the listing behind the middleware needs of the numbers the
    middleware prints: a limit from 1 to 50 parses as itself, and a page of
    at least 1 parses as a number of at least 1 (a number too large for
    plain digits prints with an exponent and parses as its first digit). *)
Definition limit_reparses : Prop :=
  ∀ n, (1 ≤ n ≤ 50)%Z → parseInt (Number_toString n) = Some n.

Definition page_reparses : Prop :=
  ∀ n, (1 ≤ n)%Z →
       ∃ m, parseInt (Number_toString n) = Some m ∧ (1 ≤ m)%Z.

(** The connection after the events of a timed trace. *)
Definition after (tr : list (N * ClientEvent)) (c : Connection) : Connection :=
  foldl (λ c x, deliver (fst x) (snd x) c) c tr.

(** The event asks to join the room [r]. *)
Definition joins (e : ClientEvent) (r : string) : Prop :=
  e = join_user_room (JStr r) ∨ e = join_content_room (JStr r).

(** What one emission of [emitToFollowers] looks like. *)
Definition emission (event : string) (p : Payload) (room : string) : Emit :=
  {| room := room; event := event; payload := p |}.

(** ** A sample platform for the listings *)

(** Decimal numerals, and a window that drops [skip] rows and keeps
    [take]; the store rejects a window without numbers or with a negative
    one. *)
Definition sample_parseInt (s : string) : option Z :=
  Z.of_int <$> DecimalString.NilZero.int_of_string s.

Definition sample_Number_toString (n : Z) : string :=
  DecimalString.NilZero.string_of_int (Z.to_int n).

Definition sample_page_of (A : Type) (skip limit : option Z) (l : list A)
  : option (list A) :=
  match skip, limit with
  | Some s, Some t =>
      if bool_decide (0 ≤ s)%Z && bool_decide (0 ≤ t)%Z
      then Some (take (Z.to_nat t) (drop (Z.to_nat s) l))
      else None
  | _, _ => None
  end.

(** ** More sample data *)

(** Dave reviews reports. *)
Definition admin : User.t JsDate :=
  User.mk dave ("gh-" +:+ dave) dave (dave +:+ "@example.org") (Some dave)
    (Some "hello") None None None None ADMIN
    {| date_obj := 0; date_ms := 1000%Z |} {| date_obj := 1; date_ms := 1000%Z |}
    None None None None None None.

(** Bob has reported the guide of Alice. *)
Definition sample_report : Report.t :=
  Report.mk "creport0001" "SPAM" None PENDING bob alice None
    (Some "cdoc0000002") None None.

Definition review_world : World :=
  {| db := set_reports [sample_report] sample_db; io := Some []; heap := 2 |}.

(** Bob and Carol follow Alice. *)
Definition followed_world : World :=
  {| db := set_follows
             [Follow.mk "cfollow0001" bob alice;
              Follow.mk "cfollow0002" carol alice] sample_db;
     io := Some []; heap := 2 |}.

(** The store before the live channel is initialised. *)
Definition offline_world : World :=
  {| db := sample_db; io := None; heap := 2 |}.

(** A query that asks for a thousand documents. *)
Definition greedy_query : gmap string string := {[ "limit" := "1000" ]}.

(** Bodies of sample requests. *)
Definition notes_kept_private : jsobject :=
  {[ "title" := JStr "Notes"; "content" := JStr "New body";
     "isPublic" := JBool false ]}.

Definition notes_rewritten : jsobject :=
  {[ "title" := JStr "Notes"; "content" := JStr "New body" ]}.

Definition edited : jsobject := {[ "content" := JStr "edited" ]}.

Definition block_of (who : string) : jsobject := {[ "userId" := JStr who ]}.

Definition resolved : jsobject := {[ "status" := JStr "RESOLVED" ]}.

Definition no_query : gmap string string := ∅.

(** What the middleware makes of it. *)
Definition granted_query : gmap string string :=
  <["limit" := "50"]> (<["page" := "1"]> greedy_query).
(** * Properties *)

(** ** Rows and lookups *)

Lemma find_row_Some {A} (P : A → Prop) `{∀ x, Decision (P x)} (l : list A) x :
  find_row P l = Some x → x ∈ l ∧ P x.
Proof.
  unfold find_row. destruct (list_find P l) as [[i y]|] eqn:E; [|done].
  simpl. intros [= ->]. apply list_find_Some in E as (Hi & HP & _).
  split; [by eapply list_elem_of_lookup_2|done].
Qed.

Lemma find_row_None {A} (P : A → Prop) `{∀ x, Decision (P x)} (l : list A) :
  find_row P l = None ↔ ∀ x, x ∈ l → ¬ P x.
Proof.
  unfold find_row. rewrite fmap_None, list_find_None, Forall_forall. done.
Qed.

Lemma find_row_is_Some {A} (P : A → Prop) `{∀ x, Decision (P x)} (l : list A) x :
  x ∈ l → P x → is_Some (find_row P l).
Proof.
  intros Hx HP. destruct (find_row P l) eqn:E; [by eexists|].
  rewrite find_row_None in E. by destruct (E x Hx).
Qed.

Lemma cascade_incl n dead cs x : x ∈ dead → x ∈ cascade n dead cs.
Proof.
  revert dead. induction n as [|n IH]; intros dead Hx; simpl; [done|].
  apply IH. apply elem_of_app. by left.
Qed.

(** ** The Handler monad *)

Lemma bind_mret {A B} (a : A) (k : A → Handler B) w :
  (mret a ≫= k) w = k a w.
Proof. reflexivity. Qed.

Lemma bind_query {A B} (f : DB → A) (k : A → Handler B) w :
  (query f ≫= k) w = k (f (db w)) w.
Proof. reflexivity. Qed.

Lemma bind_send {A B} status b (k : A → Handler B) w :
  (send status b ≫= k) w = (Sent (Json status b), w).
Proof. reflexivity. Qed.

Lemma bind_throw {A B} e (k : A → Handler B) w :
  (throw e ≫= k) w = (Thrown e, w).
Proof. reflexivity. Qed.

Lemma bind_parse_Some {A B} (r : option A) a (k : A → Handler B) w :
  r = Some a → (parse r ≫= k) w = k a w.
Proof. by intros ->. Qed.

Lemma bind_parse_None {A B} (r : option A) (k : A → Handler B) w :
  r = None → (parse r ≫= k) w = (Thrown ZodError, w).
Proof. by intros ->. Qed.

Lemma bind_user_Some {B} req u (k : string → Handler B) w :
  user req = Some u → (req_user_id req ≫= k) w = k (User.id u) w.
Proof. unfold req_user_id. by intros ->. Qed.

Lemma bind_user_None {B} req (k : string → Handler B) w :
  user req = None → (req_user_id req ≫= k) w = (Thrown TypeError, w).
Proof. unfold req_user_id. by intros ->. Qed.

Lemma bind_attempt_Some {A B} (f : DB → option (A * DB)) a d
    (k : A → Handler B) w :
  f (db w) = Some (a, d) → (attempt f ≫= k) w = k a (set_db d w).
Proof.
  intros E. unfold mbind, Handler_bind, attempt. by rewrite E.
Qed.

Lemma bind_attempt_None {A B} (f : DB → option (A * DB))
    (k : A → Handler B) w :
  f (db w) = None → (attempt f ≫= k) w = (Thrown PrismaError, w).
Proof.
  intros E. unfold mbind, Handler_bind, attempt. by rewrite E.
Qed.

Lemma bind_Sent {A B} (h : Handler A) (k : A → Handler B) w r w' :
  h w = (Sent r, w') → (h ≫= k) w = (Sent r, w').
Proof. intros E. unfold mbind, Handler_bind. by rewrite E. Qed.

Lemma bind_Thrown {A B} (h : Handler A) (k : A → Handler B) w e w' :
  h w = (Thrown e, w') → (h ≫= k) w = (Thrown e, w').
Proof. intros E. unfold mbind, Handler_bind. by rewrite E. Qed.

Lemma bind_Next {A B} (h : Handler A) (k : A → Handler B) w a w' :
  h w = (Next a, w') → (h ≫= k) w = k a w'.
Proof. intros E. unfold mbind, Handler_bind. by rewrite E. Qed.

Lemma try_catch_Sent {A} (h : Handler A) c w r w' :
  h w = (Sent r, w') → try_catch h c w = (Sent r, w').
Proof. unfold try_catch. by intros ->. Qed.

Lemma try_catch_Thrown {A} (h : Handler A) c w e w' :
  h w = (Thrown e, w') → try_catch h c w = c e w'.
Proof. unfold try_catch. by intros ->. Qed.

Lemma try_catch_rethrow {A} (h : Handler A) w :
  try_catch h (λ e, throw e) w = h w.
Proof. unfold try_catch. by destruct (h w) as [[a|r|e] w']. Qed.

Ltac step :=
  repeat first
    [ rewrite bind_mret | rewrite bind_query | rewrite bind_send
    | rewrite bind_throw ];
  cbn beta iota.

(** ** Deleting a document *)

Lemma delete_comments_docs P `{∀ c, Decision (P c)} d :
  docs (delete_comments P d) = docs d.
Proof. done. Qed.

Lemma delete_comments_clears P `{∀ c, Decision (P c)} d c :
  c ∈ comments (delete_comments P d) → ¬ P c.
Proof.
  unfold delete_comments. simpl. rewrite list_elem_of_filter.
  intros [Hdead Hc] HP. apply Hdead. apply cascade_incl.
  apply list_elem_of_fmap. exists c. split; [done|].
  apply list_elem_of_filter. done.
Qed.

Lemma delete_comments_sub P `{∀ c, Decision (P c)} d c :
  c ∈ comments (delete_comments P d) → c ∈ comments d.
Proof. unfold delete_comments. simpl. rewrite list_elem_of_filter. by intros []. Qed.

Lemma delete_doc_cascade_clears id d :
  doc_findUnique id (delete_doc_cascade id d) = None
  ∧ (∀ l, l ∈ likes (delete_doc_cascade id d) → Like.docId l ≠ Some id)
  ∧ (∀ c, c ∈ comments (delete_doc_cascade id d) → Comment.docId c ≠ Some id)
  ∧ (∀ b, b ∈ bookmarks (delete_doc_cascade id d)
          → Bookmark.docId b ≠ Some id).
Proof.
  split; [|split; [|split]].
  - apply find_row_None. intros x Hx. simpl in Hx.
    apply list_elem_of_filter in Hx as [Hx _]. done.
  - intros l Hl. simpl in Hl. apply list_elem_of_filter in Hl as [Hl _]. done.
  - intros c Hc.
    exact (delete_comments_clears (λ c, refers (Comment.docId c) id) d c Hc).
  - intros b Hb. simpl in Hb. apply list_elem_of_filter in Hb as [Hb _]. done.
Qed.

Lemma transaction_deleteDoc id d doc :
  doc_findUnique id d = Some doc →
  ∃ d', transaction None (deleteDoc_statements id) d = Some d'
        ∧ doc_findUnique id d' = None
        ∧ (∀ l, l ∈ likes d' → Like.docId l ≠ Some id)
        ∧ (∀ c, c ∈ comments d' → Comment.docId c ≠ Some id)
        ∧ (∀ b, b ∈ bookmarks d' → Bookmark.docId b ≠ Some id).
Proof.
  intros Hdoc. unfold deleteDoc_statements.
  cbn [transaction exec mbind option_bind fmap option_fmap option_map].
  change (docs (set_bookmarks _ _)) with (docs d).
  unfold doc_findUnique in Hdoc. rewrite Hdoc.
  eexists. split; [reflexivity|]. apply delete_doc_cascade_clears.
Qed.

(** A fault inside the sequence undoes the transaction, whatever ran
    before it; a fault that falls behind the sequence does not touch
    it. *)
Lemma transaction_fault f l d :
  transaction f l d
  = if strikes f (length l) then None else transaction None l d.
Proof.
  revert f d. induction l as [|s l IH]; intros f d.
  { by destruct f. }
  destruct f as [[|k]|]; cbn [transaction strikes length].
  - done.
  - cbn [fmap option_fmap option_map pred].
    destruct (exec s d) as [d'|]; cbn [mbind option_bind].
    + rewrite IH. cbn [strikes].
      destruct (decide (k < length l)).
      * rewrite !bool_decide_true by lia. done.
      * rewrite !bool_decide_false by lia. done.
    + by case_bool_decide.
  - done.
Qed.

(** C1. The four deletions of [deleteDoc] are one atomic unit: whatever
    the request, and at whichever statement the store may give up, the
    world after [deleteDoc] is either the world before it or the world in
    which all four statements have run; no world in between is left.  When
    the owner deletes an existing document and the store gives up on none
    of the four, the request answers 200 and afterwards the document is
    gone and no like, comment or bookmark row carries its id; when the
    store gives up on one of them, the call throws and the world is as
    before. *)
Theorem deleteDoc_atomic_and_complete (fault : Fault) (req : Request)
    (w : World) :
  (snd (deleteDoc fault req w) = w
   ∨ ∃ d', transaction None (deleteDoc_statements (param req)) (db w) = Some d'
           ∧ snd (deleteDoc fault req w) = set_db d' w)
  ∧ ∀ u doc,
      user req = Some u →
      doc_findUnique (param req) (db w) = Some doc →
      Doc.authorId doc = User.id u →
      ∃ d',
        transaction None (deleteDoc_statements (param req)) (db w) = Some d'
        ∧ deleteDoc fault req w
          = (if strikes fault 4
             then (Thrown PrismaError, w)
             else (Sent (Json 200 (Message "Document deleted successfully")),
                   set_db d' w))
        ∧ doc_findUnique (param req) d' = None
        ∧ (∀ l, l ∈ likes d' → Like.docId l ≠ Some (param req))
        ∧ (∀ c, c ∈ comments d' → Comment.docId c ≠ Some (param req))
        ∧ (∀ b, b ∈ bookmarks d' → Bookmark.docId b ≠ Some (param req)).
Proof.
  split.
  - unfold deleteDoc.
    destruct (user req) as [u|] eqn:Hu;
      [rewrite (bind_user_Some _ u) by done
      |rewrite bind_user_None by done; by left].
    step. destruct (doc_findUnique (param req) (db w)) as [doc|]; [|by left].
    case_bool_decide; [by left|].
    unfold prisma_transaction.
    destruct (transaction fault (deleteDoc_statements (param req)) (db w))
      as [d'|] eqn:E.
    + erewrite bind_attempt_Some by (by rewrite E). right. exists d'.
      split; [|done]. rewrite transaction_fault in E.
      by destruct (strikes fault _).
    + erewrite bind_attempt_None by (by rewrite E). by left.
  - intros u doc Hu Hdoc Hown.
    destruct (transaction_deleteDoc _ _ _ Hdoc) as (d' & Ht & Hrest).
    exists d'. split; [done|]. split; [|done].
    unfold deleteDoc. rewrite (bind_user_Some _ u) by done. step.
    rewrite Hdoc. rewrite bool_decide_false by (by rewrite Hown; auto).
    unfold prisma_transaction.
    change 4 with (length (deleteDoc_statements (param req))).
    destruct (strikes fault (length (deleteDoc_statements (param req))))
      eqn:Hf.
    + erewrite bind_attempt_None; [done|].
      by rewrite transaction_fault, Hf.
    + erewrite bind_attempt_Some; [done|].
      by rewrite transaction_fault, Hf, Ht.
Qed.

(** The statements are not atomic by themselves: after the first of them
    alone the like on the notes of Alice is gone while the notes are still
    there.  [deleteDoc] leaves no such store behind, at whichever statement
    the store gives up; committing the statements one by one would, with a
    fault at the second. *)
Lemma deleteDoc_leaves_no_partial_store :
  ∃ d1,
    exec (like_deleteMany_docId "cdoc0000001") sample_db = Some d1
    ∧ d1 ≠ sample_db
    ∧ transaction None (deleteDoc_statements "cdoc0000001") sample_db
      ≠ Some d1
    ∧ ∀ fault,
        db (snd (deleteDoc fault (request alice "cdoc0000001" ∅) sample_world))
        ≠ d1.
Proof.
  eexists. split; [reflexivity|].
  assert (Hsize : ∀ d d' : DB,
            (length (likes d), length (docs d))
            ≠ (length (likes d'), length (docs d')) → d ≠ d').
  { intros d d' Hne ->. done. }
  split; [|split].
  - apply Hsize. vm_compute. discriminate.
  - intros H. vm_compute in H. discriminate.
  - intros fault. apply Hsize.
    destruct fault as [[|[|[|[|k]]]]|]; vm_compute; discriminate.
Qed.

(** ** Ownership of a document *)

(** C3, as the specification states it, fails for the update: [updateDoc]
    validates the body before it looks at the owner, so a caller who is not
    the author and sends a body that the schema rejects gets the validation
    error and no 403.  Here Bob sends an empty body for the notes of
    Alice. *)
Lemma non_owner_update_is_not_always_403 :
  ¬ ∀ (now : Z) (req : Request) (w : World) (doc : Doc.t),
      doc_findUnique (param req) (db w) = Some doc →
      User.id <$> user req ≠ Some (Doc.authorId doc) →
      ∃ b, updateDoc now req w = (Sent (Json 403 b), w).
Proof.
  intros H.
  destruct (H 0%Z (request bob "cdoc0000001" ∅) sample_world sample_doc)
    as [b Hb].
  - reflexivity.
  - vm_compute. discriminate.
  - vm_compute in Hb. discriminate.
Qed.

(** C3. A caller who is not the author of an existing document gets 403
    when reading it while it is private, and gets 403 when updating it with
    a body that the schema accepts or deleting it, whatever its visibility;
    in each case the world, and so the document, is left as it was.  (An
    update whose body the schema rejects is refused by the validation, which
    comes before the ownership test; it leaves the world as it was too.) *)
Theorem non_owner_is_forbidden (now : Z) (req : Request) (w : World)
    (doc : Doc.t) :
  doc_findUnique (param req) (db w) = Some doc →
  User.id <$> user req ≠ Some (Doc.authorId doc) →
  (Doc.isPublic doc = false →
   getDocById req w
   = (Sent (Json 403 (Message "Access denied to this document")), w))
  ∧ (∀ u data,
       user req = Some u → docSchema (body req) = Some data →
       updateDoc now req w
       = (Sent (Json 403 (Message "Not authorized to update this document")),
          w))
  ∧ (∀ fault u,
       user req = Some u →
       deleteDoc fault req w
       = (Sent (Json 403 (Message "Not authorized to delete this document")),
          w))
  ∧ (docSchema (body req) = None → updateDoc now req w = (Thrown ZodError, w)).
Proof.
  intros Hdoc Hne. split; [|split; [|split]].
  - intros Hpriv. unfold getDocById. step. rewrite Hdoc, Hpriv.
    rewrite bool_decide_true by congruence. done.
  - intros u data Hu Hdata. unfold updateDoc.
    rewrite (bind_parse_Some _ data) by done.
    rewrite (bind_user_Some _ u) by done. step. rewrite Hdoc.
    rewrite Hu in Hne. simpl in Hne.
    rewrite bool_decide_true by congruence. done.
  - intros fault u Hu. unfold deleteDoc.
    rewrite (bind_user_Some _ u) by done. step. rewrite Hdoc.
    rewrite Hu in Hne. simpl in Hne.
    rewrite bool_decide_true by congruence. done.
  - intros Hdata. unfold updateDoc. by rewrite bind_parse_None.
Qed.

(** ** The follow toggle *)

Lemma bind_createNotification {B} i (k : unit → Handler B) w :
  (createNotification i ≫= k) w
  = k ()
      (set_db
         (set_notifications
            (notifications (db w)
             ++ [Notification.mk (cuid (Notification.id <$> notifications (db w)))
                   (n_type i) (n_recipientId i) (n_senderId i) false
                   (n_snippetId i) (n_docId i) (n_bugId i) (n_commentId i)])
            (db w)) w).
Proof. reflexivity. Qed.

Lemma getIO_emit_db {B} r e p (k : unit → Handler B) w :
  (∀ w', db (snd (k () w')) = db w') →
  db (snd ((getIO_emit r e p ≫= k) w)) = db w.
Proof.
  intros Hk. unfold mbind, Handler_bind, getIO_emit.
  destruct (io w); simpl; [|done]. by rewrite Hk.
Qed.

Lemma try_catch_db {A} (h : Handler A) c w :
  (∀ e w', db (snd (c e w')) = db w') →
  db (snd (try_catch h c w)) = db (snd (h w)).
Proof.
  intros Hc. unfold try_catch. destruct (h w) as [[a|r|e] w']; simpl; auto.
Qed.

Lemma toggleFollow_creates req w u fu tu :
  user req = Some u →
  User.id u ≠ param req →
  user_findUnique (User.id u) (db w) = Some fu →
  user_findUnique (param req) (db w) = Some tu →
  follow_findUnique (User.id u) (param req) (db w) = None →
  db (snd (toggleFollow req w))
  = set_notifications
      (notifications (db w)
       ++ [follow_notice (cuid (Notification.id <$> notifications (db w)))
             (User.id u) (param req)])
      (set_follows
         (follows (db w)
          ++ [Follow.mk (cuid (Follow.id <$> follows (db w))) (User.id u)
                (param req)])
         (db w)).
Proof.
  intros Hu Hne Hfu Htu Hnone. unfold toggleFollow.
  rewrite try_catch_db by done.
  rewrite (bind_user_Some _ u) by done. cbn beta iota zeta.
  rewrite bool_decide_false by done. step. rewrite Htu. step.
  rewrite Hnone.
  erewrite bind_attempt_Some
    by (unfold follow_create; rewrite Hfu, Htu, Hnone; reflexivity).
  rewrite bind_createNotification. rewrite getIO_emit_db by done.
  reflexivity.
Qed.

Lemma toggleFollow_deletes req w u tu x :
  user req = Some u →
  User.id u ≠ param req →
  user_findUnique (param req) (db w) = Some tu →
  follow_findUnique (User.id u) (param req) (db w) = Some x →
  db (snd (toggleFollow req w))
  = set_follows (filter (λ f, Follow.id f ≠ Follow.id x) (follows (db w)))
      (db w).
Proof.
  intros Hu Hne Htu Hx. unfold toggleFollow.
  rewrite try_catch_db by done.
  rewrite (bind_user_Some _ u) by done. cbn beta iota zeta.
  rewrite bool_decide_false by done. step. rewrite Htu. step.
  rewrite Hx.
  apply find_row_Some in Hx as [Hin _].
  destruct (find_row_is_Some (λ f, Follow.id f = Follow.id x) _ x Hin eq_refl)
    as [y Hy].
  erewrite bind_attempt_Some by (unfold follow_delete; rewrite Hy; reflexivity).
  reflexivity.
Qed.

Lemma follows_edge_false a b d :
  follows_edge a b d = false ↔ follow_findUnique a b d = None.
Proof.
  unfold follows_edge. rewrite bool_decide_eq_false, <- eq_None_not_Some. done.
Qed.

Lemma follows_edge_true a b d :
  follows_edge a b d = true ↔ is_Some (follow_findUnique a b d).
Proof. unfold follows_edge. by rewrite bool_decide_eq_true. Qed.

(** What one call of the toggle does to the edge and to the notifications,
    from a store in which the ordered pair has at most one row. *)
Lemma toggleFollow_step req w u :
  user req = Some u →
  User.id u ≠ param req →
  is_Some (user_findUnique (User.id u) (db w)) →
  is_Some (user_findUnique (param req) (db w)) →
  (follow_findUnique (User.id u) (param req) (db w) = None
   ∨ ∃ x, follow_findUnique (User.id u) (param req) (db w) = Some x
          ∧ only_edge (User.id u) (param req) x (db w)) →
  let w' := snd (toggleFollow req w) in
  users (db w') = users (db w)
  ∧ follows_edge (User.id u) (param req) (db w')
    = negb (follows_edge (User.id u) (param req) (db w))
  ∧ (follow_findUnique (User.id u) (param req) (db w') = None
     ∨ ∃ x, follow_findUnique (User.id u) (param req) (db w') = Some x
            ∧ only_edge (User.id u) (param req) x (db w'))
  ∧ (if follows_edge (User.id u) (param req) (db w)
     then notifications (db w') = notifications (db w)
     else ∃ id,
       notifications (db w')
       = notifications (db w) ++ [follow_notice id (User.id u) (param req)]).
Proof.
  intros Hu Hne [fu Hfu] [tu Htu] [Hnone | (x & Hx & Honly)]; intros w'.
  - pose proof (toggleFollow_creates _ _ _ _ _ Hu Hne Hfu Htu Hnone) as Hdb.
    fold w' in Hdb.
    set (row := Follow.mk (cuid (Follow.id <$> follows (db w))) (User.id u)
                  (param req)) in *.
    assert (Hrow : ∀ f, f ∈ follows (db w') →
              Follow.followerId f = User.id u →
              Follow.followingId f = param req → f = row).
    { intros f Hf Ha Hb. rewrite Hdb in Hf. simpl in Hf.
      apply elem_of_app in Hf as [Hf | Hf].
      - unfold follow_findUnique in Hnone. rewrite find_row_None in Hnone.
        destruct (Hnone f Hf). done.
      - by apply list_elem_of_singleton in Hf. }
    assert (Hfound : follow_findUnique (User.id u) (param req) (db w')
                     = Some row).
    { destruct (find_row_is_Some
                  (λ f, Follow.followerId f = User.id u
                        ∧ Follow.followingId f = param req)
                  (follows (db w')) row) as [y Hy].
      - rewrite Hdb. simpl. apply elem_of_app. right.
        by apply list_elem_of_singleton.
      - done.
      - unfold follow_findUnique. rewrite Hy. f_equal.
        apply find_row_Some in Hy as [Hin [Ha Hb]]. by apply Hrow. }
    split; [by rewrite Hdb|]. split; [|split].
    + apply follows_edge_false in Hnone as ->. simpl.
      apply follows_edge_true. by rewrite Hfound.
    + right. exists row. done.
    + apply follows_edge_false in Hnone as ->. rewrite Hdb. by eexists.
  - pose proof (toggleFollow_deletes _ _ _ _ _ Hu Hne Htu Hx) as Hdb.
    fold w' in Hdb.
    assert (Hgone : follow_findUnique (User.id u) (param req) (db w') = None).
    { unfold follow_findUnique. apply find_row_None. intros f Hf [Ha Hb].
      rewrite Hdb in Hf. simpl in Hf. apply list_elem_of_filter in Hf as [Hid Hf].
      apply Hid. by rewrite (Honly f Hf Ha Hb). }
    assert (Hedge : follows_edge (User.id u) (param req) (db w) = true).
    { apply follows_edge_true. by rewrite Hx. }
    split; [by rewrite Hdb|]. split; [|split].
    + rewrite Hedge. simpl. by apply follows_edge_false.
    + by left.
    + rewrite Hedge. by rewrite Hdb.
Qed.

(** C2. For a caller and an existing target other than the caller, starting
    from a store without the edge from the caller to the target, the edge
    is present after an odd number of toggle calls and absent after an even
    number.  A call made while the edge is absent (the creating call) adds
    exactly one FOLLOW notification from the caller to the target; a call
    made while the edge is present (the deleting call) adds none. *)
Theorem toggleFollow_parity (req : Request) (w : World) (u : User.t JsDate) :
  user req = Some u →
  User.id u ≠ param req →
  is_Some (user_findUnique (User.id u) (db w)) →
  is_Some (user_findUnique (param req) (db w)) →
  follows_edge (User.id u) (param req) (db w) = false →
  ∀ n,
    follows_edge (User.id u) (param req) (db (toggled n req w)) = Nat.odd n
    ∧ (if follows_edge (User.id u) (param req) (db (toggled n req w))
       then notifications (db (toggled (S n) req w))
            = notifications (db (toggled n req w))
       else ∃ id,
         notifications (db (toggled (S n) req w))
         = notifications (db (toggled n req w))
           ++ [follow_notice id (User.id u) (param req)]).
Proof.
  intros Hu Hne Hfu Htu Hno n.
  assert (Inv : users (db (toggled n req w)) = users (db w)
                ∧ follows_edge (User.id u) (param req) (db (toggled n req w))
                  = Nat.odd n
                ∧ (follow_findUnique (User.id u) (param req)
                     (db (toggled n req w)) = None
                   ∨ ∃ x, follow_findUnique (User.id u) (param req)
                            (db (toggled n req w)) = Some x
                          ∧ only_edge (User.id u) (param req) x
                              (db (toggled n req w)))).
  { induction n as [|n IH].
    - simpl. split; [done|]. split; [done|]. left.
      by apply follows_edge_false.
    - destruct IH as (Husers & Hedge & Hone).
      change (toggled (S n) req w)
        with (snd (toggleFollow req (toggled n req w))).
      destruct (toggleFollow_step req (toggled n req w) u) as (H1 & H2 & H3 & _);
        try done.
      + unfold user_findUnique. by rewrite Husers.
      + unfold user_findUnique. by rewrite Husers.
      + split; [congruence|]. split; [|done].
        rewrite H2, Hedge. by rewrite Nat.odd_succ, <- Nat.negb_odd. }
  destruct Inv as (Husers & Hedge & Hone). split; [done|].
  change (toggled (S n) req w) with (snd (toggleFollow req (toggled n req w))).
  destruct (toggleFollow_step req (toggled n req w) u) as (_ & _ & _ & H4);
    try done.
  - unfold user_findUnique. by rewrite Husers.
  - unfold user_findUnique. by rewrite Husers.
Qed.

(** ** Creating a comment *)

Lemma if_truthy_false {A} o (th : string → A) el :
  truthy o = false → if_truthy o th el = el.
Proof.
  destruct o as [s|]; simpl; [|done]. intros H. by rewrite H.
Qed.

Lemma if_truthy_true {A} s (th : string → A) el :
  s ≠ "" → if_truthy (Some s) th el = th s.
Proof. intros H. simpl. by rewrite bool_decide_true. Qed.

Lemma optional_string_truthy v o :
  z.optional z.string v = Some o → truthy o = value_set v.
Proof.
  destruct v as [[| | |s|]|]; simpl; try done; intros [= <-]; [|done].
  simpl. destruct s; [by rewrite bool_decide_false by auto|].
  by rewrite bool_decide_true.
Qed.

Lemma commentSchema_targets b data :
  commentSchema b = Some data → length (targets data) = 1.
Proof.
  unfold commentSchema.
  destruct ((z.string (b !! "content") ≫= z.min 1) ≫= z.max 1000); [|done].
  destruct (z.optional z.string (b !! "snippetId")); [|done].
  destruct (z.optional z.string (b !! "docId")); [|done].
  destruct (z.optional z.string (b !! "bugId")); [|done].
  destruct (z.optional z.string (b !! "parentId")); [|done].
  simpl. case_bool_decide; [|done]. by intros [= <-].
Qed.

Lemma commentSchema_count b data :
  commentSchema b = Some data → count_targets sets_field b = 1.
Proof.
  intros H. rewrite <- (commentSchema_targets b data H). revert H.
  unfold commentSchema.
  destruct ((z.string (b !! "content") ≫= z.min 1) ≫= z.max 1000)
    as [c|]; [|done].
  destruct (z.optional z.string (b !! "snippetId")) as [s|] eqn:Hs; [|done].
  destruct (z.optional z.string (b !! "docId")) as [d|] eqn:Hd; [|done].
  destruct (z.optional z.string (b !! "bugId")) as [g|] eqn:Hg; [|done].
  destruct (z.optional z.string (b !! "parentId")); [|done].
  simpl. case_bool_decide; [|done]. intros [= <-].
  apply optional_string_truthy in Hs, Hd, Hg.
  unfold count_targets, targets, target_keys, sets_field. simpl.
  rewrite !filter_cons, !filter_nil. rewrite Hs, Hd, Hg.
  repeat case_decide; done.
Qed.

(** C4, as the code has it.  A comment-creation request whose body gives a
    value other than the empty string to none of [snippetId], [docId] and
    [bugId], or to more than one of them, is answered 400 as invalid data,
    and the world is left as it was: no comment row is created. *)
Theorem createComment_needs_one_target (now : Z) (req : Request) (w : World) :
  count_targets sets_field (body req) ≠ 1 →
  createComment now req w = (Sent (Json 400 (ErrorDetails "Invalid data")), w).
Proof.
  intros Hcount. unfold createComment.
  rewrite (try_catch_Thrown _ _ w ZodError w); [reflexivity|].
  apply bind_parse_None.
  destruct (commentSchema (body req)) as [data|] eqn:E; [|done].
  by apply commentSchema_count in E.
Qed.

(** C4, as the specification states it, fails: a body that carries two of the three
    keys, one of them with the empty string, passes the schema; here the
    request goes on to look for the document and is answered 404. *)
Lemma createComment_empty_string_target_passes :
  ¬ ∀ (now : Z) (req : Request) (w : World),
      count_targets names_field (body req) ≠ 1 →
      ∃ b, createComment now req w = (Sent (Json 400 b), w).
Proof.
  intros H.
  destruct (H 0%Z
              (request bob ""
                 {[ "content" := JStr "hi"; "snippetId" := JStr "";
                    "docId" := JStr "cdoc0000009" ]})
              sample_world) as [b Hb].
  - vm_compute. discriminate.
  - vm_compute in Hb. discriminate.
Qed.

(** When the document of such a body exists and is public, the handler
    reaches the store with the empty string as the snippet of the comment;
    the store refuses the row and the request is answered 500. *)
Lemma createComment_empty_string_target_reaches_store :
  createComment 0
    (request bob ""
       {[ "content" := JStr "hi"; "snippetId" := JStr "";
          "docId" := JStr "cdoc0000002" ]})
    sample_world
  = (Sent (Json 500 (Error "Internal server error")), sample_world).
Proof. vm_compute. reflexivity. Qed.

(** C5. A comment-creation request that passes the schema and targets a bug
    is answered 410 when the bug exists and expired before the current
    instant, and 404 when the bug does not exist; the two answers differ,
    and in both cases the world is left as it was: no comment is
    created. *)
Theorem createComment_expired_bug_is_gone (now : Z) (req : Request)
    (w : World) (u : User.t JsDate) (data : CommentInput) (id : string) :
  user req = Some u →
  commentSchema (body req) = Some data →
  c_bugId data = Some id →
  id ≠ "" →
  (∀ bug,
     bug_findUnique id (db w) = Some bug →
     (Bug.expiresAt bug < now)%Z →
     createComment now req w
     = (Sent (Json 410 (Error "Bug report has expired")), w))
  ∧ (bug_findUnique id (db w) = None →
     createComment now req w = (Sent (Json 404 (Error "Bug not found")), w))
  ∧ Json 410 (Error "Bug report has expired")
    ≠ Json 404 (Error "Bug not found").
Proof.
  intros Hu Hdata Hbug Hid.
  assert (truthy (c_snippetId data) = false ∧ truthy (c_docId data) = false)
    as [Hs Hd].
  { pose proof (commentSchema_targets _ _ Hdata) as Hlen.
    unfold targets in Hlen. rewrite !filter_cons, filter_nil in Hlen.
    rewrite Hbug in Hlen. simpl in Hlen.
    rewrite (bool_decide_true (id ≠ "")) in Hlen by done.
    destruct (truthy (c_snippetId data)), (truthy (c_docId data));
      repeat case_decide; simpl in Hlen; try done; lia. }
  assert (Hrun : ∀ r,
            (∀ l, locate_bug now data l w = (Sent r, w)) →
            createComment now req w = (Sent r, w)).
  { intros r Hr. unfold createComment. apply try_catch_Sent.
    rewrite (bind_parse_Some _ data) by done.
    rewrite (bind_user_Some _ u) by done.
    unfold locate_snippet, locate_doc.
    rewrite if_truthy_false by done. step.
    rewrite if_truthy_false by done. step.
    apply bind_Sent, Hr. }
  split; [|split; [|done]].
  - intros bug Hfound Hexp. apply Hrun. intros l. unfold locate_bug.
    rewrite Hbug, if_truthy_true by done. step. rewrite Hfound.
    by rewrite bool_decide_true.
  - intros Hnone. apply Hrun. intros l. unfold locate_bug.
    rewrite Hbug, if_truthy_true by done. step. by rewrite Hnone.
Qed.

(** ** Moderation *)

Lemma reportSchema_inv b data :
  reportSchema b = Some data →
  z.optional cuid_string (b !! "reportedUserId")
  = Some (r_reportedUserId data)
  ∧ z.optional (z.enum ["snippet"; "doc"; "bug"; "comment"])
      (b !! "contentType")
    = Some (r_contentType data)
  ∧ z.optional cuid_string (b !! "contentId") = Some (r_contentId data).
Proof.
  unfold reportSchema.
  destruct (z.optional cuid_string (b !! "reportedUserId")) as [x1|];
    [|done].
  destruct (z.enum _ (b !! "reason")) as [x2|]; [|done].
  destruct (z.optional _ (b !! "description")) as [x3|]; [|done].
  destruct (z.optional _ (b !! "contentType")) as [x4|]; [|done].
  destruct (z.optional cuid_string (b !! "contentId")) as [x5|]; [|done].
  simpl. by intros [= <-].
Qed.

Lemma reportSchema_reportedUserId b data s :
  reportSchema b = Some data →
  b !! "reportedUserId" = Some (JStr s) →
  r_reportedUserId data = Some s.
Proof.
  intros H Hb. apply reportSchema_inv in H as (H & _). rewrite Hb in H.
  unfold cuid_string in H. simpl in H. unfold z.check in H.
  destruct (is_cuid s); simpl in H; [by injection H as <-|done].
Qed.

(** C6. A follow toggle whose target is the caller is answered 400.  A block
    toggle whose [userId] is the caller's id is answered 400 when that id
    has the format the schema asks for, and 500 otherwise.  A report whose
    [reportedUserId] is the caller's (non-empty) id is answered 400 when
    the body passes the schema, and 500 otherwise.  In each case the world
    is left as it was: no follow edge, block edge or report row is
    created. *)
Theorem self_targets_are_rejected (req : Request) (w : World)
    (u : User.t JsDate) :
  user req = Some u →
  (param req = User.id u →
   toggleFollow req w = (Sent (Json 400 (Error "Cannot follow yourself")), w))
  ∧ (body req !! "userId" = Some (JStr (User.id u)) →
     toggleBlock req w
     = (Sent (if is_cuid (User.id u)
              then Json 400 (Error "Cannot block yourself")
              else Json 500 (Error "Failed to toggle block status")), w))
  ∧ (body req !! "reportedUserId" = Some (JStr (User.id u)) →
     User.id u ≠ "" →
     createReport req w
     = (Sent (match reportSchema (body req) with
              | Some _ => Json 400 (Error "Cannot report yourself")
              | None => Json 500 (Error "Failed to submit report")
              end), w)).
Proof.
  intros Hu. split; [|split].
  - intros Hself. unfold toggleFollow. apply try_catch_Sent.
    rewrite (bind_user_Some _ u) by done. cbn beta iota zeta.
    by rewrite bool_decide_true.
  - intros Hb. unfold toggleBlock, blockSchema, cuid_string. rewrite Hb.
    simpl. unfold z.check. destruct (is_cuid (User.id u)).
    + apply try_catch_Sent. rewrite (bind_parse_Some _ (User.id u)) by done.
      rewrite (bind_user_Some _ u) by done.
      by rewrite bool_decide_true.
    + rewrite (try_catch_Thrown _ _ w ZodError w); [done|].
      by apply bind_parse_None.
  - intros Hb Hid. unfold createReport.
    destruct (reportSchema (body req)) as [data|] eqn:Hdata.
    + apply try_catch_Sent. rewrite (bind_parse_Some _ data) by done.
      rewrite (bind_user_Some _ u) by done.
      rewrite (reportSchema_reportedUserId _ _ _ Hdata Hb). simpl.
      by rewrite !bool_decide_true.
    + rewrite (try_catch_Thrown _ _ w ZodError w); [done|].
      by apply bind_parse_None.
Qed.

(** C7 does not hold of the code: a body that the schema rejects makes
    [createReport] and [toggleBlock] answer 500, as their [catch] does not
    tell a validation error from any other, while [createComment] answers
    400 for it. *)
Theorem invalid_body_answers_500 (now : Z) (req : Request) (w : World) :
  (reportSchema (body req) = None →
   createReport req w
   = (Sent (Json 500 (Error "Failed to submit report")), w))
  ∧ (blockSchema (body req) = None →
     toggleBlock req w
     = (Sent (Json 500 (Error "Failed to toggle block status")), w))
  ∧ (commentSchema (body req) = None →
     createComment now req w
     = (Sent (Json 400 (ErrorDetails "Invalid data")), w)).
Proof.
  split; [|split]; intros H.
  - unfold createReport. rewrite (try_catch_Thrown _ _ w ZodError w); [done|].
    by apply bind_parse_None.
  - unfold toggleBlock. rewrite (try_catch_Thrown _ _ w ZodError w); [done|].
    by apply bind_parse_None.
  - unfold createComment. rewrite (try_catch_Thrown _ _ w ZodError w); [done|].
    by apply bind_parse_None.
Qed.






(** ** The rate limiter of the live channel *)

Lemma in_window t k :
  (60000 * k ≤ t < 60000 * (k + 1))%N ↔ (t / 60000)%N = k.
Proof.
  split.
  - intros H. symmetry.
    apply (N.div_unique t 60000 k (t - 60000 * k)); lia.
  - intros <-. pose proof (N.Div0.mul_div_le t 60000).
    pose proof (N.mul_succ_div_gt t 60000). lia.
Qed.

Lemma passes_spec e s :
  passes e s = bool_decide (counter s (eventName e) < limit_of e).
Proof.
  unfold passes, checkRateLimit, counter.
  case_bool_decide; simpl; symmetry.
  - apply bool_decide_eq_false. lia.
  - apply bool_decide_eq_true. lia.
Qed.

(** A dropped event leaves one warning in the log and touches neither the
    rooms nor the counters. *)
Lemma receive_dropped e s :
  passes e s = false → receive e s = logger warn "Socket rate limit exceeded:" s.
Proof.
  unfold passes. destruct e; simpl;
    unfold on_join_user_room, on_join_content_room, on_leave_content_room;
    destruct (checkRateLimit _ _ s) as [ok s'] eqn:E; simpl; intros ->; simpl;
    unfold checkRateLimit in E; case_bool_decide; congruence.
Qed.

Lemma receive_counter e s name :
  counter (receive e s) name
  = if passes e s && bool_decide (eventName e = name)
    then S (counter s name) else counter s name.
Proof.
  destruct (passes e s) eqn:Hp.
  - assert (eventCounts (receive e s)
            = <[eventName e := counter s (eventName e) + 1]> (eventCounts s))
      as Hc.
    { unfold passes in Hp. destruct e; simpl in *;
        unfold on_join_user_room, on_join_content_room, on_leave_content_room;
        unfold checkRateLimit in *; case_bool_decide; simpl in *; try done;
        by destruct (invalid_id _). }
    unfold counter at 1. rewrite Hc. simpl. case_bool_decide as Hn.
    + subst. rewrite lookup_insert_eq. simpl. lia.
    + by rewrite lookup_insert_ne.
  - rewrite receive_dropped by done. done.
Qed.

Lemma tick_fired t c :
  (fired c ≤ t / 60000)%N → fired (tick t c) = (t / 60000)%N.
Proof.
  intros H. unfold tick. case_bool_decide; simpl; [done|]. lia.
Qed.

Lemma tick_counter t c name :
  counter (socket (tick t c)) name
  = if bool_decide (fired c < t / 60000)%N then 0
    else counter (socket c) name.
Proof. unfold tick. by case_bool_decide. Qed.

Lemma processed_sub tr c x : x ∈ processed tr c → x ∈ tr.
Proof.
  revert c. induction tr as [|[t e] tr IH]; intros c; simpl; [done|].
  intros H. apply elem_of_app in H as [H|H].
  - destruct (passes _ _); [|by apply elem_of_nil in H].
    apply list_elem_of_singleton in H as ->. by left.
  - right. by eapply IH.
Qed.

Lemma count_in_app lo hi name l1 l2 :
  count_in lo hi name (l1 ++ l2)
  = count_in lo hi name l1 + count_in lo hi name l2.
Proof. unfold count_in. by rewrite filter_app, length_app. Qed.

Lemma count_in_none lo hi name l :
  (∀ x, x ∈ l → ¬ (lo ≤ fst x < hi)%N) → count_in lo hi name l = 0.
Proof.
  intros H. unfold count_in. induction l as [|x l IH]; [done|].
  rewrite filter_cons. case_decide as Hx.
  - destruct (H x); [by left|by destruct Hx].
  - apply IH. intros y Hy. apply H. by right.
Qed.

(** Within one period of the interval, the limiter lets through no more
    events of a name than its limit leaves room for. *)
Lemma processed_bound name limit tr c k :
  (∀ e, eventName e = name → limit_of e = limit) →
  StronglySorted N.le (fst <$> tr) →
  Forall (λ x, (fired c ≤ fst x / 60000)%N) tr →
  count_in (60000 * k) (60000 * (k + 1)) name (processed tr c)
  ≤ if bool_decide (k = fired c)
    then limit - counter (socket c) name else limit.
Proof.
  intros Hlim. revert c.
  induction tr as [|[t e] tr IH]; intros c Hsorted Hfired.
  { simpl. unfold count_in. simpl. lia. }
  rewrite fmap_cons in Hsorted. apply StronglySorted_inv in Hsorted
    as [Hsorted Hhd].
  apply Forall_cons in Hfired as [Ht Hrest]. simpl in Ht.
  cbn [processed]. rewrite count_in_app.
  assert (Hf : fired (deliver t e c) = (t / 60000)%N).
  { unfold deliver. simpl. by apply tick_fired. }
  assert (Hlater : Forall (λ x, (t / 60000 ≤ fst x / 60000)%N) tr).
  { apply Forall_forall. intros x Hx. apply N.Div0.div_le_mono.
    rewrite Forall_forall in Hhd. apply (Hhd (fst x)).
    apply list_elem_of_fmap. by exists x. }
  specialize (IH (deliver t e c) Hsorted).
  rewrite Hf in IH. specialize (IH Hlater).
  assert (Hc : counter (socket (deliver t e c)) name
               = if passes e (socket (tick t c))
                    && bool_decide (eventName e = name)
                 then S (counter (socket (tick t c)) name)
                 else counter (socket (tick t c)) name).
  { unfold deliver. simpl. apply receive_counter. }
  destruct (decide (k = (t / 60000)%N)) as [Hk|Hk].
  - (* the event falls in period [k] *)
    rewrite bool_decide_true in IH by done. rewrite Hc in IH.
    assert (Hhere :
      count_in (60000 * k) (60000 * (k + 1)) name
        (if passes e (socket (tick t c)) then [(t, e)] else [])
      = if passes e (socket (tick t c)) && bool_decide (eventName e = name)
        then 1 else 0).
    { destruct (passes e (socket (tick t c))); simpl; [|done].
      unfold count_in. rewrite filter_cons, filter_nil.
      assert (Hw : (60000 * k ≤ t < 60000 * (k + 1))%N) by by apply in_window.
      destruct (decide (eventName e = name)) as [Hn|Hn].
      - rewrite decide_True by done. by rewrite bool_decide_true.
      - rewrite decide_False by (by intros [_ ?]).
        by rewrite bool_decide_false. }
    rewrite Hhere.
    assert (Hroom : passes e (socket (tick t c))
                    && bool_decide (eventName e = name) = true →
                    counter (socket (tick t c)) name < limit).
    { intros H. apply andb_true_iff in H as [Hp Hn].
      apply bool_decide_eq_true in Hn. rewrite passes_spec in Hp.
      apply bool_decide_eq_true in Hp. rewrite Hn, (Hlim e Hn) in Hp. done. }
    assert (Hbound :
      (if passes e (socket (tick t c)) && bool_decide (eventName e = name)
       then 1 else 0)
      + count_in (60000 * k) (60000 * (k + 1)) name
          (processed tr (deliver t e c))
      ≤ limit - counter (socket (tick t c)) name).
    { destruct (passes e (socket (tick t c))
                && bool_decide (eventName e = name)).
      - specialize (Hroom eq_refl). lia.
      - lia. }
    rewrite tick_counter in Hbound.
    destruct (decide (k = fired c)) as [Hsame|Hsame].
    + rewrite (bool_decide_true (k = fired c)) by done.
      rewrite (bool_decide_false (fired c < t / 60000)%N) in Hbound by lia.
      done.
    + rewrite (bool_decide_false (k = fired c)) by done. lia.
  - (* the event falls in another period *)
    assert (Hhere :
      count_in (60000 * k) (60000 * (k + 1)) name
        (if passes e (socket (tick t c)) then [(t, e)] else []) = 0).
    { apply count_in_none. intros x Hx.
      destruct (passes e (socket (tick t c))); [|by apply elem_of_nil in Hx].
      apply list_elem_of_singleton in Hx as ->. simpl.
      rewrite in_window. congruence. }
    rewrite Hhere. rewrite bool_decide_false in IH by done.
    destruct (decide (k = fired c)) as [Hsame|Hsame];
      [rewrite (bool_decide_true (k = fired c)) by done
      |rewrite (bool_decide_false (k = fired c)) by done; lia].
    rewrite count_in_none; [lia|].
    intros x Hx. apply processed_sub in Hx.
    rewrite Forall_forall in Hlater. specialize (Hlater x Hx).
    rewrite in_window. lia.
Qed.

Lemma chronological_strongly tr :
  chronological tr → StronglySorted N.le (fst <$> tr).
Proof.
  apply Sorted_StronglySorted. intros x y z. apply N.le_trans.
Qed.

(** C8, as the code has it.  Time runs in periods of one minute from the
    instant of the connection, at the end of each of which the counters
    are cleared.  In every such period at most 5 [join-user-room] events
    and at most 10 [join-content-room] and 10 [leave-content-room] events
    pass the limiter.  An event beyond the cap is dropped: the connection
    only gains one warning in its log; its rooms and its counters are as
    before, and nothing holds the event for later. *)
Theorem rate_limit_per_period (tr : list (N * ClientEvent)) (k : N) :
  chronological tr →
  count_in (60000 * k) (60000 * (k + 1)) "join-user-room"
    (processed tr connect) ≤ 5
  ∧ count_in (60000 * k) (60000 * (k + 1)) "join-content-room"
      (processed tr connect) ≤ 10
  ∧ count_in (60000 * k) (60000 * (k + 1)) "leave-content-room"
      (processed tr connect) ≤ 10
  ∧ ∀ e s,
      passes e s = false →
      receive e s = logger warn "Socket rate limit exceeded:" s.
Proof.
  intros Hchrono. apply chronological_strongly in Hchrono.
  assert (Hstart : Forall (λ x, (fired connect ≤ fst x / 60000)%N) tr).
  { apply Forall_forall. intros x _. apply N.le_0_l. }
  assert (Hall : ∀ name limit,
            (∀ e, eventName e = name → limit_of e = limit) →
            count_in (60000 * k) (60000 * (k + 1)) name (processed tr connect)
            ≤ limit).
  { intros name limit Hlim.
    pose proof (processed_bound name limit tr connect k Hlim Hchrono Hstart).
    case_bool_decide; lia. }
  split; [|split; [|split]].
  - apply Hall. by intros [].
  - apply Hall. by intros [].
  - apply Hall. by intros [].
  - apply receive_dropped.
Qed.

(** C8, as the specification states it, fails: the counters are cleared at fixed
    instants, so a window of one minute that straddles such an instant can
    see twice the cap.  Of the ten events of [burst], sent within one
    second, all pass. *)
Lemma rate_limit_is_not_rolling :
  ¬ ∀ (tr : list (N * ClientEvent)) (start : N),
      chronological tr →
      count_in start (start + 60000) "join-user-room" (processed tr connect)
      ≤ 5.
Proof.
  intros H. specialize (H burst 59000%N).
  assert (Hb : chronological burst).
  { unfold chronological, burst. simpl.
    repeat (constructor; [|first [constructor; by vm_compute | constructor]]).
    constructor. }
  specialize (H Hb). vm_compute in H. lia.
Qed.

(** ** The sign-in callback *)

Lemma materialise_spec row w :
  ∃ obj w',
    materialise row w = (Next obj, w')
    ∧ User.bio obj = User.bio row
    ∧ date_obj (User.createdAt obj) ≠ date_obj (User.updatedAt obj).
Proof.
  unfold materialise, new_Date, mbind, mret, Handler_bind, Handler_ret.
  destruct (User.githubCreatedAt row); simpl; do 2 eexists;
    (split; [reflexivity|]); simpl; split; (done || lia).
Qed.

Lemma user_create_bio now data d row d' :
  user_create now data d = Some (row, d') → User.bio row = Some (d_bio data).
Proof.
  unfold user_create. destruct (_ && _); [|done]. by intros [= <- _].
Qed.

Lemma user_update_bio now id data email d row d' :
  user_update now id data email d = Some (row, d') →
  User.bio row = Some (d_bio data).
Proof.
  unfold user_update. destruct (user_findUnique id d); [|done].
  destruct (_ && _); [|done]. by intros [= <- _].
Qed.

(** The verify function never answers the request itself; the user it
    yields carries the biography of the provider and two distinct [Date]
    objects. *)
Lemma verify_outcome now profile w :
  match verify now profile w with
  | (Next obj, _) =>
      User.bio obj = Some (nullish (bio (_json profile)) "")
      ∧ date_obj (User.createdAt obj) ≠ date_obj (User.updatedAt obj)
  | (Sent _, _) => False
  | (Thrown _, _) => True
  end.
Proof.
  unfold verify. rewrite try_catch_rethrow.
  destruct (githubProfileSchema profile); cbn [negb]; [|done].
  rewrite bind_query. cbn zeta.
  destruct (negb (truthy (Some (d_email (userData profile))))); [done|].
  destruct (find_row _ (users (db w))) as [old|].
  - destruct (user_update now (User.id old) (userData profile)
                (nullish (first_email profile) (User.email old)) (db w))
      as [[row d']|] eqn:E.
    + erewrite bind_attempt_Some by done.
      destruct (materialise_spec row (set_db d' w)) as (obj & w' & -> & Hb & Hd).
      split; [|done]. rewrite Hb. by apply user_update_bio in E.
    + by erewrite bind_attempt_None.
  - destruct (user_create now (userData profile) (db w)) as [[row d']|] eqn:E.
    + erewrite bind_attempt_Some by done.
      destruct (materialise_spec row (set_db d' w)) as (obj & w' & -> & Hb & Hd).
      split; [|done]. rewrite Hb. by apply user_create_bio in E.
    + by erewrite bind_attempt_None.
Qed.

Lemma trim_empty : trim "" = "".
Proof. reflexivity. Qed.

(** Where the callback redirects is decided by the biography that the
    provider reports, not by whether the row was created. *)
Lemma redirect_follows_biography now FRONTEND_URL profile w r w' :
  github_callback_route now FRONTEND_URL profile w = (Sent r, w') →
  r = Redirect
        (if bool_decide (trim (nullish (bio (_json profile)) "") = "")
         then setup_url (or_else FRONTEND_URL "http://localhost:3000")
         else home_url (or_else FRONTEND_URL "http://localhost:3000")).
Proof.
  unfold github_callback_route. pose proof (verify_outcome now profile w) as H.
  destruct (verify now profile w) as [[obj|r0|e] w1] eqn:Hv.
  - erewrite bind_Next by done. destruct H as [Hbio Hdates].
    unfold githubCallback. cbn [user]. unfold isNewUser, strict_eq_date.
    rewrite Hbio. cbn [nullish truthy].
    rewrite (bool_decide_false (date_obj _ = date_obj _)) by done.
    rewrite orb_false_r.
    assert (negb (bool_decide (nullish (bio (_json profile)) "" ≠ ""))
            || bool_decide (trim (nullish (bio (_json profile)) "") = "")
            = bool_decide (trim (nullish (bio (_json profile)) "") = ""))
      as ->.
    { destruct (decide (nullish (bio (_json profile)) "" = "")) as [->|Hn].
      - by rewrite trim_empty.
      - by rewrite (bool_decide_true (_ ≠ "")). }
    case_bool_decide; unfold redirect; by intros [= <- _].
  - done.
  - by erewrite bind_Thrown.
Qed.


(** * Further properties *)

(** ** Looking up a row after an update in place *)

Lemma find_row_cons {A} (P : A → Prop) `{∀ x, Decision (P x)} x (l : list A) :
  find_row P (x :: l) = if decide (P x) then Some x else find_row P l.
Proof.
  unfold find_row. simpl. case_decide; [done|].
  destruct (list_find P l) as [[i y]|]; done.
Qed.

(** Rows are found by a key [k]; the rows keyed [id] are replaced by a row
    [new] of the same key. *)
Lemma find_row_replace {A} (k : A → string) (id : string) (new : A)
    (l : list A) (id' : string) :
  k new = id →
  find_row (λ x, k x = id')
    ((λ x, if decide (k x = id) then new else x) <$> l)
  = if decide (id' = id)
    then (λ _, new) <$> find_row (λ x, k x = id) l
    else find_row (λ x, k x = id') l.
Proof.
  intros Hnew. induction l as [|x l IH].
  { by case_decide. }
  rewrite fmap_cons, !find_row_cons, IH.
  destruct (decide (k x = id)) as [Hx|Hx];
    destruct (decide (id' = id)) as [->|Hne]; simpl.
  - by case_decide.
  - repeat case_decide; congruence.
  - repeat case_decide; congruence.
  - done.
Qed.

(** ** Updating a document *)

Lemma updateDoc_runs (now : Z) (req : Request) (w : World)
    (u : User.t JsDate) (doc : Doc.t) (data : DocInput) :
  user req = Some u →
  doc_findUnique (param req) (db w) = Some doc →
  Doc.authorId doc = User.id u →
  docSchema (body req) = Some data →
  let new :=
    Doc.mk (param req) (in_title data) (in_content data) (in_isPublic data)
      now (Doc.authorId doc) in
  updateDoc now req w
  = (Sent (Json 200 (DocRow new)),
     set_db
       (set_docs
          ((λ x, if decide (Doc.id x = param req) then new else x)
             <$> docs (db w)) (db w)) w).
Proof.
  intros Hu Hdoc Hown Hdata new.
  unfold updateDoc. rewrite (bind_parse_Some _ data) by done.
  rewrite (bind_user_Some _ u) by done. step. rewrite Hdoc.
  rewrite bool_decide_false by (rewrite Hown; by intros []).
  erewrite bind_attempt_Some
    by (unfold doc_update; rewrite Hdoc; reflexivity).
  done.
Qed.

Lemma doc_find_replace id id' new (d : DB) :
  Doc.id new = id →
  doc_findUnique id'
    (set_docs
       ((λ x, if decide (Doc.id x = id) then new else x) <$> docs d) d)
  = if decide (id' = id) then (λ _, new) <$> doc_findUnique id d
    else doc_findUnique id' d.
Proof.
  intros Hid. unfold doc_findUnique. cbn [docs set_docs].
  by apply (find_row_replace Doc.id).
Qed.

(** X1. When the author updates a document with a body that the schema
    accepts, the answer is 200 with the new row: title, content and
    visibility come from the body, the stamp is the current instant, the
    id and the author stay.  Afterwards the document reads as the new row,
    every other document reads as before, and no other table has
    changed. *)
Theorem updateDoc_by_owner (now : Z) (req : Request) (w : World)
    (u : User.t JsDate) (doc : Doc.t) (data : DocInput) :
  user req = Some u →
  doc_findUnique (param req) (db w) = Some doc →
  Doc.authorId doc = User.id u →
  docSchema (body req) = Some data →
  let new :=
    Doc.mk (param req) (in_title data) (in_content data) (in_isPublic data)
      now (Doc.authorId doc) in
  let w' := snd (updateDoc now req w) in
  updateDoc now req w = (Sent (Json 200 (DocRow new)), w')
  ∧ doc_findUnique (param req) (db w') = Some new
  ∧ (∀ id', id' ≠ param req →
            doc_findUnique id' (db w') = doc_findUnique id' (db w))
  ∧ w' = set_db (set_docs (docs (db w')) (db w)) w.
Proof.
  intros Hu Hdoc Hown Hdata new w'.
  pose proof (updateDoc_runs now req w u doc data Hu Hdoc Hown Hdata) as Hrun.
  cbn zeta in Hrun. fold new in Hrun.
  subst w'. rewrite Hrun. cbn [snd]. split; [done|].
  destruct w as [d i h]. cbn [db set_db] in *.
  split; [|split; [|done]].
  - rewrite doc_find_replace by done.
    rewrite decide_True by done. by rewrite Hdoc.
  - intros id' Hne. rewrite doc_find_replace by done.
    by rewrite decide_False.
Qed.

(** X2. The schema of an update gives [isPublic] the default [true]: when
    the author of a document, private or not, updates it with a valid body
    that leaves [isPublic] out, the document is public afterwards. *)
Theorem updateDoc_publishes_by_default (now : Z) (req : Request) (w : World)
    (u : User.t JsDate) (doc : Doc.t) (data : DocInput) :
  user req = Some u →
  doc_findUnique (param req) (db w) = Some doc →
  Doc.authorId doc = User.id u →
  docSchema (body req) = Some data →
  body req !! "isPublic" = None →
  ∃ new,
    doc_findUnique (param req) (db (snd (updateDoc now req w))) = Some new
    ∧ Doc.isPublic new = true.
Proof.
  intros Hu Hdoc Hown Hdata Hnone.
  rewrite (updateDoc_runs now req w u doc data Hu Hdoc Hown Hdata).
  cbn [snd]. destruct w as [d i h]. cbn [db set_db] in *.
  rewrite doc_find_replace by done. rewrite decide_True by done.
  rewrite Hdoc. eexists. split; [done|]. cbn [Doc.isPublic].
  unfold docSchema in Hdata. rewrite Hnone in Hdata.
  destruct ((z.string (body req !! "title") ≫= z.min 1) ≫= z.max 255);
    [|done].
  destruct (z.string (body req !! "content") ≫= z.min 1); [|done].
  simpl in Hdata. by injection Hdata as <-.
Qed.

(** ** The cascade over replies *)

Lemma filter_length_le {A} (P Q : A → Prop) `{∀ x, Decision (P x)}
    `{∀ x, Decision (Q x)} (l : list A) :
  (∀ x, x ∈ l → P x → Q x) → length (filter P l) ≤ length (filter Q l).
Proof.
  induction l as [|x l IH]; intros HPQ; [done|].
  rewrite !filter_cons.
  assert (IH' : length (filter P l) ≤ length (filter Q l)).
  { apply IH. intros y Hy. apply HPQ. by right. }
  destruct (decide (P x)) as [HP|HP]; destruct (decide (Q x)) as [HQ|HQ];
    simpl; try lia.
  destruct HQ. apply HPQ; [by left|done].
Qed.

Lemma filter_length_lt {A} (P Q : A → Prop) `{∀ x, Decision (P x)}
    `{∀ x, Decision (Q x)} (l : list A) x :
  (∀ y, y ∈ l → P y → Q y) → x ∈ l → Q x → ¬ P x →
  length (filter P l) < length (filter Q l).
Proof.
  induction l as [|y l IH]; intros HPQ Hx HQ HP.
  { by apply elem_of_nil in Hx. }
  rewrite !filter_cons.
  assert (Hle : length (filter P l) ≤ length (filter Q l)).
  { apply filter_length_le. intros z Hz. apply HPQ. by right. }
  apply elem_of_cons in Hx as [<-|Hx].
  - rewrite decide_False by done. rewrite decide_True by done. simpl. lia.
  - assert (length (filter P l) < length (filter Q l)).
    { apply IH; try done. intros z Hz. apply HPQ. by right. }
    destruct (decide (P y)) as [HPy|HPy]; destruct (decide (Q y)) as [HQy|HQy];
      simpl; try lia.
    destruct HQy. apply HPQ; [by left|done].
Qed.

Lemma points_into_mono fk (a b : list string) :
  (∀ x, x ∈ a → x ∈ b) → points_into fk a → points_into fk b.
Proof. destruct fk; simpl; auto. Qed.

Lemma replies_of_spec dead cs x :
  x ∈ replies_of dead cs
  ↔ ∃ c, c ∈ cs ∧ points_into (Comment.parentId c) dead ∧ Comment.id c = x.
Proof.
  unfold replies_of. rewrite list_elem_of_fmap. split.
  - intros (c & -> & Hc). apply list_elem_of_filter in Hc as [Hp Hc].
    by exists c.
  - intros (c & Hc & Hp & <-). exists c. split; [done|].
    by apply list_elem_of_filter.
Qed.

Lemma closed_step dead cs :
  closed_under_replies dead cs →
  closed_under_replies (dead ++ replies_of dead cs) cs.
Proof.
  intros Hcl c Hc Hp. apply elem_of_app. left. apply Hcl; [done|].
  eapply points_into_mono; [|exact Hp].
  intros x Hx. apply elem_of_app in Hx as [Hx|Hx]; [done|].
  apply replies_of_spec in Hx as (c' & Hc' & Hp' & <-). by apply Hcl.
Qed.

Lemma closed_cascade n dead cs :
  closed_under_replies dead cs → closed_under_replies (cascade n dead cs) cs.
Proof.
  revert dead. induction n as [|n IH]; intros dead Hcl; simpl; [done|].
  by apply IH, closed_step.
Qed.

Lemma covered_step dead cs :
  closed_under_replies dead cs
  ∨ covered dead cs < covered (dead ++ replies_of dead cs) cs.
Proof.
  destruct (decide (Forall
                      (λ c, points_into (Comment.parentId c) dead →
                            Comment.id c ∈ dead) cs)) as [Hall|Hnot].
  - left. intros c Hc. rewrite Forall_forall in Hall. by apply Hall.
  - right. apply not_Forall_Exists in Hnot; [|apply _].
    apply Exists_exists in Hnot as (c & Hc & Hn).
    assert (points_into (Comment.parentId c) dead ∧ Comment.id c ∉ dead)
      as [Hp Hid].
    { destruct (decide (points_into (Comment.parentId c) dead)) as [Hp|Hp];
        [|by destruct Hn].
      split; [done|]. intros Hid. by apply Hn. }
    unfold covered. apply (filter_length_lt _ _ cs c); [|done| |done].
    + intros y _ Hy. apply elem_of_app. by left.
    + apply elem_of_app. right. apply replies_of_spec. by exists c.
Qed.

Lemma covered_cascade n dead cs :
  closed_under_replies (cascade n dead cs) cs
  ∨ covered dead cs + n ≤ covered (cascade n dead cs) cs.
Proof.
  revert dead. induction n as [|n IH]; intros dead; simpl.
  { right. lia. }
  destruct (covered_step dead cs) as [Hcl|Hlt].
  - left. by apply closed_cascade, closed_step.
  - destruct (IH (dead ++ replies_of dead cs)) as [Hcl|Hle]; [by left|].
    right. lia.
Qed.

(** The rounds that [delete_comments] runs suffice: the ids it removes
    contain every reply to one of them. *)
Lemma cascade_closed dead cs :
  closed_under_replies (cascade (length cs) dead cs) cs.
Proof.
  destruct (covered_cascade (length cs) dead cs) as [Hcl|Hle]; [done|].
  intros c Hc _.
  assert (Hall : covered (cascade (length cs) dead cs) cs = length cs).
  { pose proof (length_filter
                  (λ c, Comment.id c ∈ cascade (length cs) dead cs) cs).
    unfold covered in *. lia. }
  destruct (decide (Comment.id c ∈ cascade (length cs) dead cs)) as [|Hn];
    [done|].
  pose proof (length_filter_lt
                (λ c, Comment.id c ∈ cascade (length cs) dead cs) cs c Hc Hn).
  unfold covered in Hall. lia.
Qed.

(** X3. The cascade of a comment delete is complete: if every reply had
    its parent in the table before, then after any delete of comments (by
    a document delete, a comment delete or the sweep) every reply that is
    left still has its parent in the table, and every comment that is left
    was there before. *)
Theorem delete_comments_keeps_parents (P : Comment.t → Prop)
    `{∀ c, Decision (P c)} (d : DB) :
  parents_present (comments d) →
  parents_present (comments (delete_comments P d))
  ∧ (∀ c, c ∈ comments (delete_comments P d) → c ∈ comments d ∧ ¬ P c).
Proof.
  intros Hpar. split.
  - intros c p Hc Hp. unfold delete_comments in *. cbn [comments set_comments] in *.
    set (dead := cascade (length (comments d))
                   (Comment.id <$> filter P (comments d)) (comments d)) in *.
    apply list_elem_of_filter in Hc as [Hlive Hc].
    pose proof (Hpar c p Hc Hp) as Hin. apply list_elem_of_fmap in Hin
      as (c' & -> & Hc').
    apply list_elem_of_fmap. exists c'. split; [done|].
    apply list_elem_of_filter. split; [|done].
    intros Hdead. apply Hlive.
    apply (cascade_closed (Comment.id <$> filter P (comments d)) (comments d));
      [done|]. by rewrite Hp.
  - intros c Hc. split; [by eapply delete_comments_sub|].
    by eapply delete_comments_clears.
Qed.

(** ** Updating and deleting a comment *)

Lemma comment_find_replace id id' new (d : DB) :
  Comment.id new = id →
  comment_findUnique id'
    (set_comments
       ((λ c, if decide (Comment.id c = id) then new else c) <$> comments d) d)
  = if decide (id' = id) then (λ _, new) <$> comment_findUnique id d
    else comment_findUnique id' d.
Proof.
  intros Hid. unfold comment_findUnique. cbn [comments set_comments].
  by apply (find_row_replace Comment.id).
Qed.

(** X4. [updateComment] checks the new content before it looks at the
    store or at the caller: missing, falsy or blank content answers 400
    "Content is required", more than 1000 characters answer 400 "Content
    too long", and content that is truthy but no string (a number, an
    object) answers 500; in each case nothing is written, whoever calls and
    whether or not the comment exists. *)
Theorem updateComment_checks_content_first (req : Request) (w : World) :
  (js_truthy (body req !! "content") = false →
   updateComment req w = (Sent (Json 400 (Error "Content is required")), w))
  ∧ (∀ s, body req !! "content" = Some (JStr s) → trim s = "" →
          updateComment req w
          = (Sent (Json 400 (Error "Content is required")), w))
  ∧ (∀ s, body req !! "content" = Some (JStr s) → trim s ≠ "" →
          1000 < String.length s →
          updateComment req w
          = (Sent (Json 400 (Error "Content too long")), w))
  ∧ (∀ v, body req !! "content" = Some v → js_truthy (Some v) = true →
          (∀ s, v ≠ JStr s) →
          updateComment req w
          = (Sent (Json 500 (Error "Internal server error")), w)).
Proof.
  unfold updateComment. repeat split.
  - intros ->. done.
  - intros s -> Ht. cbn [negb js_truthy].
    destruct (bool_decide (s ≠ "")); cbn [negb]; [|done].
    rewrite Ht. done.
  - intros s -> Ht Hlen. cbn [js_truthy].
    assert (Hs : s ≠ "") by (by intros ->).
    rewrite (bool_decide_true (s ≠ "")) by done. cbn [negb].
    rewrite (bool_decide_false (String.length (trim s) = 0)).
    2:{ destruct (trim s); [done|]. simpl. lia. }
    by rewrite (bool_decide_true (1000 < String.length s)).
  - intros v -> Hv Hns. rewrite Hv. cbn [negb].
    destruct v; try done. by destruct (Hns s).
Qed.

(** X5. With content that passes the checks and a comment that exists,
    [updateComment] lets only the comment's author through: anyone else
    gets 403 and the store is unchanged; for the author the answer is 200
    with the comment, whose content is replaced (as given, not trimmed)
    while its author, target and parent are kept; every other comment reads
    as before and no other table is written. *)
Theorem updateComment_by_author (req : Request) (w : World) u c s :
  user req = Some u →
  body req !! "content" = Some (JStr s) →
  trim s ≠ "" → String.length s ≤ 1000 →
  comment_findUnique (param req) (db w) = Some c →
  (Comment.authorId c ≠ User.id u →
   updateComment req w = (Sent (Json 403 (Error "Access denied")), w))
  ∧ (Comment.authorId c = User.id u →
     let new :=
       Comment.mk (param req) s (Comment.authorId c) (Comment.snippetId c)
         (Comment.docId c) (Comment.bugId c) (Comment.parentId c) in
     let w' := snd (updateComment req w) in
     updateComment req w = (Sent (Json 200 (CommentRow new)), w')
     ∧ comment_findUnique (param req) (db w') = Some new
     ∧ (∀ id', id' ≠ param req →
               comment_findUnique id' (db w') = comment_findUnique id' (db w))
     ∧ w' = set_db (set_comments (comments (db w')) (db w)) w).
Proof.
  intros Hu Hb Ht Hlen Hc.
  assert (Hs : s ≠ "") by (by intros ->).
  split.
  - intros Hne. unfold updateComment. cbn zeta. rewrite Hb. cbn [js_truthy].
    rewrite (bool_decide_true (s ≠ "")) by done. cbn [negb].
    rewrite (bool_decide_false (String.length (trim s) = 0)).
    2:{ destruct (trim s); [done|]. simpl. lia. }
    rewrite (bool_decide_false (1000 < String.length s)) by lia.
    apply try_catch_Sent. step. rewrite Hc.
    rewrite (bind_user_Some _ u) by done.
    by rewrite (bool_decide_true (Comment.authorId c ≠ User.id u)).
  - intros Heq new.
    assert (Hrun : updateComment req w
      = (Sent (Json 200 (CommentRow new)),
         set_db (set_comments
                   ((λ x, if decide (Comment.id x = param req) then new else x)
                      <$> comments (db w)) (db w)) w)).
    { unfold updateComment. cbn zeta. rewrite Hb. cbn [js_truthy].
      rewrite (bool_decide_true (s ≠ "")) by done. cbn [negb].
      rewrite (bool_decide_false (String.length (trim s) = 0)).
      2:{ destruct (trim s); [done|]. simpl. lia. }
      rewrite (bool_decide_false (1000 < String.length s)) by lia.
      apply try_catch_Sent. step. rewrite Hc.
      rewrite (bind_user_Some _ u) by done.
      rewrite (bool_decide_false (Comment.authorId c ≠ User.id u))
        by (by intros []).
      erewrite bind_attempt_Some; [done|].
      unfold comment_update. by rewrite Hc. }
    rewrite Hrun. cbn [snd]. split; [done|].
    destruct w as [d i h]. cbn [db set_db].
    split; [|split].
    + rewrite comment_find_replace by done. rewrite decide_True by done.
      cbn [db] in Hc. by rewrite Hc.
    + intros id' Hne. rewrite comment_find_replace by done.
      by rewrite decide_False.
    + done.
Qed.

(** X6. [deleteComment] lets only the comment's author delete it: an
    unknown id answers 404 and anyone but the author gets 403, both with
    the store unchanged; for the author the answer is 200, the comment is
    gone, so is every reply to it and every report filed on it (the
    schema's cascade), and what is left of both tables was there before. *)
Theorem deleteComment_by_author (req : Request) (w : World) u :
  user req = Some u →
  (comment_findUnique (param req) (db w) = None →
   deleteComment req w = (Sent (Json 404 (Error "Comment not found")), w))
  ∧ (∀ c, comment_findUnique (param req) (db w) = Some c →
       (Comment.authorId c ≠ User.id u →
        deleteComment req w = (Sent (Json 403 (Error "Access denied")), w))
       ∧ (Comment.authorId c = User.id u →
          let w' := snd (deleteComment req w) in
          deleteComment req w
          = (Sent (Json 200 (Message "Comment deleted successfully")), w')
          ∧ comment_findUnique (param req) (db w') = None
          ∧ (∀ r, r ∈ comments (db w') →
                  r ∈ comments (db w)
                  ∧ Comment.id r ≠ param req
                  ∧ Comment.parentId r ≠ Some (param req))
          ∧ (∀ r, r ∈ reports (db w') →
                  r ∈ reports (db w)
                  ∧ Report.commentId r ≠ Some (param req)))).
Proof.
  intros Hu. split.
  - intros Hc. unfold deleteComment. apply try_catch_Sent. step.
    by rewrite Hc.
  - intros c Hc. split.
    + intros Hne. unfold deleteComment. apply try_catch_Sent. step.
      rewrite Hc. rewrite (bind_user_Some _ u) by done.
      by rewrite (bool_decide_true (Comment.authorId c ≠ User.id u)).
    + intros Heq.
      assert (Hrun : deleteComment req w
        = (Sent (Json 200 (Message "Comment deleted successfully")),
           set_db (delete_comments (λ x, Comment.id x = param req) (db w)) w)).
      { unfold deleteComment. apply try_catch_Sent. step.
        rewrite Hc. rewrite (bind_user_Some _ u) by done.
        rewrite (bool_decide_false (Comment.authorId c ≠ User.id u))
          by (by intros []).
        erewrite bind_attempt_Some; [done|].
        unfold comment_delete. by rewrite Hc. }
      rewrite Hrun. cbn [snd]. split; [done|].
      destruct w as [d i h]. cbn [db set_db] in *.
      split; [|split].
      * apply find_row_None. intros r Hr.
        exact (delete_comments_clears
                 (λ x, Comment.id x = param req) d r Hr).
      * intros r Hr. split; [by eapply delete_comments_sub|].
        split.
        { exact (delete_comments_clears
                   (λ x, Comment.id x = param req) d r Hr). }
        intros Hp. unfold delete_comments in Hr.
        cbn [comments set_comments] in Hr.
        apply list_elem_of_filter in Hr as [Hlive Hr].
        apply Hlive.
        apply (cascade_closed
                 (Comment.id <$> filter (λ x, Comment.id x = param req)
                                   (comments d)) (comments d)); [done|].
        rewrite Hp. cbn [points_into].
        apply cascade_incl. apply list_elem_of_fmap. exists c.
        apply find_row_Some in Hc as [Hin Hid].
        split; [done|]. by apply list_elem_of_filter.
      * intros r Hr. unfold delete_comments in Hr.
        cbn [reports set_comments set_reports] in Hr.
        apply list_elem_of_filter in Hr as [Hlive Hr].
        split; [done|]. intros Hp. apply Hlive. rewrite Hp.
        cbn [points_into].
        apply cascade_incl. apply list_elem_of_fmap. exists c.
        apply find_row_Some in Hc as [Hin Hid].
        split; [done|]. by apply list_elem_of_filter.
Qed.

(** ** Following: the toggle and the check *)

Lemma try_catch_Next {A} (h : Handler A) c w a w' :
  h w = (Next a, w') → try_catch h c w = (Next a, w').
Proof. unfold try_catch. by intros ->. Qed.

Lemma bind_getIO_emit_Some {B} r e p (k : unit → Handler B) w sent :
  io w = Some sent →
  (getIO_emit r e p ≫= k) w
  = k () (mkWorld (db w)
            (Some (sent ++ [{| room := r; event := e; payload := p |}]))
            (heap w)).
Proof. intros E. unfold mbind, Handler_bind, getIO_emit. by rewrite E. Qed.

Lemma bind_getIO_emit_None {B} r e p (k : unit → Handler B) w :
  io w = None → (getIO_emit r e p ≫= k) w = (Thrown SocketNotInitialized, w).
Proof. intros E. unfold mbind, Handler_bind, getIO_emit. by rewrite E. Qed.

Lemma toggleFollow_unfollows req w u tu x :
  user req = Some u →
  User.id u ≠ param req →
  user_findUnique (param req) (db w) = Some tu →
  follow_findUnique (User.id u) (param req) (db w) = Some x →
  toggleFollow req w
  = (Sent (Json 200 (FollowState false "Unfollowed successfully")),
     set_db
       (set_follows (filter (λ f, Follow.id f ≠ Follow.id x) (follows (db w)))
          (db w)) w).
Proof.
  intros Hu Hne Htu Hx. unfold toggleFollow. apply try_catch_Sent.
  rewrite (bind_user_Some _ u) by done. cbn beta iota zeta.
  rewrite bool_decide_false by done. step. rewrite Htu. step.
  rewrite Hx.
  apply find_row_Some in Hx as [Hin _].
  destruct (find_row_is_Some (λ f, Follow.id f = Follow.id x) _ x Hin eq_refl)
    as [y Hy].
  erewrite bind_attempt_Some by (unfold follow_delete; rewrite Hy; reflexivity).
  reflexivity.
Qed.

Lemma toggleFollow_follows req w u fu tu :
  user req = Some u →
  User.id u ≠ param req →
  user_findUnique (User.id u) (db w) = Some fu →
  user_findUnique (param req) (db w) = Some tu →
  follow_findUnique (User.id u) (param req) (db w) = None →
  let d' :=
    set_notifications
      (notifications (db w)
       ++ [follow_notice (cuid (Notification.id <$> notifications (db w)))
             (User.id u) (param req)])
      (set_follows
         (follows (db w)
          ++ [Follow.mk (cuid (Follow.id <$> follows (db w))) (User.id u)
                (param req)])
         (db w)) in
  toggleFollow req w
  = match io w with
    | Some sent =>
        (Sent (Json 200 (FollowState true "Followed successfully")),
         mkWorld d'
           (Some (sent ++ [{| room := param req; event := "new-follower";
                              payload := FollowerPayload fu |}]))
           (heap w))
    | None =>
        (Sent (Json 500 (Error "Internal server error")), set_db d' w)
    end.
Proof.
  intros Hu Hne Hfu Htu Hnone d'. unfold toggleFollow.
  destruct (io w) as [sent|] eqn:Hio.
  - apply try_catch_Sent.
    rewrite (bind_user_Some _ u) by done. cbn beta iota zeta.
    rewrite bool_decide_false by done. step. rewrite Htu. step.
    rewrite Hnone.
    erewrite bind_attempt_Some
      by (unfold follow_create; rewrite Hfu, Htu, Hnone; reflexivity).
    rewrite bind_createNotification.
    erewrite bind_getIO_emit_Some by (cbn; exact Hio).
    reflexivity.
  - erewrite try_catch_Thrown; [reflexivity|].
    rewrite (bind_user_Some _ u) by done. cbn beta iota zeta.
    rewrite bool_decide_false by done. step. rewrite Htu. step.
    rewrite Hnone.
    erewrite bind_attempt_Some
      by (unfold follow_create; rewrite Hfu, Htu, Hnone; reflexivity).
    rewrite bind_createNotification.
    rewrite bind_getIO_emit_None by (cbn; exact Hio).
    reflexivity.
Qed.

Lemma toggleFollow_refuses req w :
  (user req = None
   ∨ (∃ u, user req = Some u
           ∧ (User.id u = param req
              ∨ user_findUnique (param req) (db w) = None
              ∨ (user_findUnique (User.id u) (db w) = None
                 ∧ follow_findUnique (User.id u) (param req) (db w) = None))))
  → ∃ status e, 400 ≤ status
                ∧ toggleFollow req w = (Sent (Json status (Error e)), w).
Proof.
  intros [Hu | (u & Hu & Hcase)]; unfold toggleFollow.
  - exists 500, "Internal server error". split; [lia|].
    erewrite try_catch_Thrown; [reflexivity|].
    by rewrite bind_user_None.
  - destruct (decide (User.id u = param req)) as [Heq|Hne].
    { exists 400, "Cannot follow yourself". split; [lia|].
      apply try_catch_Sent. rewrite (bind_user_Some _ u) by done.
      cbn beta iota zeta. by rewrite bool_decide_true. }
    destruct (user_findUnique (param req) (db w)) as [tu|] eqn:Htu.
    2:{ exists 404, "User not found". split; [lia|].
        apply try_catch_Sent. rewrite (bind_user_Some _ u) by done.
        cbn beta iota zeta. rewrite bool_decide_false by done. step.
        by rewrite Htu. }
    destruct Hcase as [?|[?|[Hfu Hnone]]]; [done..|].
    exists 500, "Internal server error". split; [lia|].
    erewrite try_catch_Thrown; [reflexivity|].
    rewrite (bind_user_Some _ u) by done.
    cbn beta iota zeta. rewrite bool_decide_false by done. step.
    rewrite Htu. step. rewrite Hnone.
    rewrite bind_attempt_None; [done|].
    unfold follow_create. by rewrite Hfu.
Qed.

Lemma checkFollow_reads req w u :
  user req = Some u →
  checkFollow req w = (Next (follows_edge (User.id u) (param req) (db w)), w).
Proof.
  intros Hu. unfold checkFollow. apply try_catch_Next.
  cbn zeta. rewrite (bind_user_Some _ u) by done. by step.
Qed.

Lemma follow_found_after_create a b (d : DB) ns :
  is_Some
    (follow_findUnique a b
       (set_notifications ns
          (set_follows
             (follows d ++ [Follow.mk (cuid (Follow.id <$> follows d)) a b])
             d))).
Proof.
  unfold follow_findUnique. cbn [follows set_follows set_notifications].
  destruct (find_row_is_Some
              (λ f, Follow.followerId f = a ∧ Follow.followingId f = b)
              (follows d ++ [Follow.mk (cuid (Follow.id <$> follows d)) a b])
              (Follow.mk (cuid (Follow.id <$> follows d)) a b)) as [y Hy].
  - apply elem_of_app. right. by apply list_elem_of_singleton.
  - done.
  - by rewrite Hy.
Qed.

(** X7. The follow is not undone when its announcement fails: for a
    caller who does not yet follow an existing other user, when the socket
    server is not initialised [toggleFollow] answers 500, and yet the edge
    and the FOLLOW notification it wrote before the failure are in the
    store. *)
Theorem toggleFollow_failed_emit_keeps_the_edge
    (req : Request) (w : World) (u : User.t JsDate) :
  user req = Some u →
  User.id u ≠ param req →
  is_Some (user_findUnique (User.id u) (db w)) →
  is_Some (user_findUnique (param req) (db w)) →
  follows_edge (User.id u) (param req) (db w) = false →
  io w = None →
  let w' := snd (toggleFollow req w) in
  fst (toggleFollow req w) = Sent (Json 500 (Error "Internal server error"))
  ∧ follows_edge (User.id u) (param req) (db w') = true
  ∧ ∃ id, notifications (db w')
          = notifications (db w) ++ [follow_notice id (User.id u) (param req)].
Proof.
  intros Hu Hne [fu Hfu] [tu Htu] Hedge Hio.
  apply follows_edge_false in Hedge.
  pose proof (toggleFollow_follows req w u fu tu Hu Hne Hfu Htu Hedge) as Hrun.
  cbn zeta in Hrun. rewrite Hio in Hrun. cbn zeta. rewrite Hrun.
  cbn [fst snd]. split; [done|]. split.
  - apply follows_edge_true. destruct w as [d i h]. cbn [db set_db].
    apply follow_found_after_create.
  - destruct w as [d i h]. cbn [db set_db notifications set_notifications].
    by eexists.
Qed.

(** X8. [checkFollow] and [toggleFollow] agree: from a well-formed follow
    table, whenever the toggle answers 200 with [following = b], a check by
    the same caller for the same user answers [b] afterwards and would have
    answered the opposite before. *)
Theorem checkFollow_agrees_with_toggle
    (req : Request) (w w' : World) (u : User.t JsDate) b msg :
  user req = Some u →
  follows_wellformed (db w) →
  toggleFollow req w = (Sent (Json 200 (FollowState b msg)), w') →
  checkFollow req w' = (Next b, w')
  ∧ checkFollow req w = (Next (negb b), w).
Proof.
  intros Hu [_ Huniq] Hrun.
  rewrite !(checkFollow_reads _ _ u) by done.
  destruct (decide (User.id u = param req)) as [Heq|Hne].
  { destruct (toggleFollow_refuses req w) as (s & e & _ & Hr).
    - right. exists u. split; [done|]. by left.
    - rewrite Hr in Hrun. done. }
  destruct (user_findUnique (param req) (db w)) as [tu|] eqn:Htu.
  2:{ destruct (toggleFollow_refuses req w) as (s & e & _ & Hr).
      - right. exists u. split; [done|]. right. by left.
      - rewrite Hr in Hrun. done. }
  destruct (follow_findUnique (User.id u) (param req) (db w)) as [x|] eqn:Hx.
  - rewrite (toggleFollow_unfollows req w u tu x) in Hrun by done.
    injection Hrun as <- _ <-.
    assert (Hbefore : follows_edge (User.id u) (param req) (db w) = true).
    { apply follows_edge_true. by rewrite Hx. }
    rewrite Hbefore. split; [|done]. do 2 f_equal.
    apply follows_edge_false. destruct w as [d i h].
    cbn [db set_db] in *. unfold follow_findUnique.
    cbn [follows set_follows]. apply find_row_None.
    intros f Hf [Ha Hb]. apply list_elem_of_filter in Hf as [Hid Hf].
    apply Hid. apply find_row_Some in Hx as [Hxin [Hxa Hxb]].
    f_equal. apply Huniq; congruence.
  - destruct (user_findUnique (User.id u) (db w)) as [fu|] eqn:Hfu.
    2:{ destruct (toggleFollow_refuses req w) as (s & e & _ & Hr).
        - right. exists u. split; [done|]. right. by right.
        - rewrite Hr in Hrun. done. }
    pose proof (toggleFollow_follows req w u fu tu Hu Hne Hfu Htu Hx) as Hr.
    cbn zeta in Hr. rewrite Hr in Hrun.
    destruct (io w) as [sent|]; [|done].
    injection Hrun as <- _ <-.
    assert (Hbefore : follows_edge (User.id u) (param req) (db w) = false).
    { by apply follows_edge_false. }
    rewrite Hbefore. split; [|done]. do 2 f_equal.
    apply follows_edge_true. cbn [db]. apply follow_found_after_create.
Qed.

(** X9. [toggleFollow] keeps the follow table well formed, whatever the
    request and whatever it answers: after the call nobody follows
    themselves, both ends of every edge are users, an ordered pair has at
    most one row, and the users are as before. *)
Theorem toggleFollow_keeps_follows_wellformed (req : Request) (w : World) :
  follows_wellformed (db w) →
  follows_wellformed (db (snd (toggleFollow req w)))
  ∧ users (db (snd (toggleFollow req w))) = users (db w).
Proof.
  intros Hwf.
  assert (Hsame : ∀ s e, toggleFollow req w = (Sent (Json s (Error e)), w) →
            follows_wellformed (db (snd (toggleFollow req w)))
            ∧ users (db (snd (toggleFollow req w))) = users (db w)).
  { intros s e ->. done. }
  destruct (user req) as [u|] eqn:Hu.
  2:{ destruct (toggleFollow_refuses req w) as (s & e & _ & Hr);
        [by left|]. by apply (Hsame s e). }
  destruct (decide (User.id u = param req)) as [Heq|Hne].
  { destruct (toggleFollow_refuses req w) as (s & e & _ & Hr).
    - right. exists u. split; [done|]. by left.
    - by apply (Hsame s e). }
  destruct (user_findUnique (param req) (db w)) as [tu|] eqn:Htu.
  2:{ destruct (toggleFollow_refuses req w) as (s & e & _ & Hr).
      - right. exists u. split; [done|]. right. by left.
      - by apply (Hsame s e). }
  destruct Hwf as [Hends Huniq].
  destruct (follow_findUnique (User.id u) (param req) (db w)) as [x|] eqn:Hx.
  - rewrite (toggleFollow_unfollows req w u tu x) by done.
    destruct w as [d i h]. cbn [snd db set_db] in *.
    split; [|done]. split.
    + intros f Hf. cbn [follows set_follows] in Hf.
      apply list_elem_of_filter in Hf as [_ Hf]. by apply Hends.
    + intros f g Hf Hg. cbn [follows set_follows] in Hf, Hg.
      apply list_elem_of_filter in Hf as [_ Hf].
      apply list_elem_of_filter in Hg as [_ Hg]. by apply Huniq.
  - destruct (user_findUnique (User.id u) (db w)) as [fu|] eqn:Hfu.
    2:{ destruct (toggleFollow_refuses req w) as (s & e & _ & Hr).
        - right. exists u. split; [done|]. right. by right.
        - by apply (Hsame s e). }
    pose proof (toggleFollow_follows req w u fu tu Hu Hne Hfu Htu Hx) as Hr.
    cbn zeta in Hr.
    set (row := Follow.mk (cuid (Follow.id <$> follows (db w))) (User.id u)
                  (param req)) in *.
    assert (Hdb : db (snd (toggleFollow req w))
              = set_notifications
                  (notifications (db w)
                   ++ [follow_notice
                         (cuid (Notification.id <$> notifications (db w)))
                         (User.id u) (param req)])
                  (set_follows (follows (db w) ++ [row]) (db w))).
    { rewrite Hr. by destruct (io w). }
    rewrite Hdb. clear Hr Hdb. split; [|done].
    unfold follow_findUnique in Hx. rewrite find_row_None in Hx.
    split.
    + intros f Hf. cbn [follows set_follows set_notifications] in Hf.
      apply elem_of_app in Hf as [Hf|Hf].
      * by apply Hends.
      * apply list_elem_of_singleton in Hf as ->.
        split; [done|]. split.
        -- change (is_Some (user_findUnique (User.id u) (db w))).
           by rewrite Hfu.
        -- change (is_Some (user_findUnique (param req) (db w))).
           by rewrite Htu.
    + intros f g Hf Hg Ha Hb.
      cbn [follows set_follows set_notifications] in Hf, Hg.
      apply elem_of_app in Hf as [Hf|Hf];
        apply elem_of_app in Hg as [Hg|Hg].
      * by apply Huniq.
      * apply list_elem_of_singleton in Hg as ->.
        destruct (Hx f Hf). by rewrite Ha, Hb.
      * apply list_elem_of_singleton in Hf as ->.
        destruct (Hx g Hg). by rewrite <- Ha, <- Hb.
      * apply list_elem_of_singleton in Hf as ->.
        by apply list_elem_of_singleton in Hg as ->.
Qed.

(** ** Blocking: the toggle and the check *)

Lemma blockSchema_Some b t :
  b !! "userId" = Some (JStr t) → is_cuid t = true → blockSchema b = Some t.
Proof.
  intros Hb Hc. unfold blockSchema, cuid_string. rewrite Hb. simpl.
  unfold z.check. by rewrite Hc.
Qed.

Lemma blockSchema_inv b t :
  blockSchema b = Some t → b !! "userId" = Some (JStr t) ∧ is_cuid t = true.
Proof.
  unfold blockSchema, cuid_string.
  destruct (b !! "userId") as [[| | |s|]|]; simpl; try done.
  unfold z.check. destruct (is_cuid s) eqn:Hc; [|done]. by intros [= <-].
Qed.

Lemma checkBlockStatus_reads req w u :
  user req = Some u →
  checkBlockStatus req w
  = (Next (blocks_edge (User.id u) (param req) (db w)), w).
Proof.
  intros Hu. unfold checkBlockStatus. apply try_catch_Next.
  cbn zeta. rewrite (bind_user_Some _ u) by done. by step.
Qed.

Lemma toggleBlock_unblocks req w u t x :
  user req = Some u →
  blockSchema (body req) = Some t →
  t ≠ User.id u →
  blockedUser_findFirst (User.id u) t (db w) = Some x →
  toggleBlock req w
  = (Sent (Json 200 (BlockState "User unblocked successfully" false)),
     set_db
       (set_blockedUsers
          (filter (λ y, BlockedUser.id y ≠ BlockedUser.id x)
             (blockedUsers (db w))) (db w)) w).
Proof.
  intros Hu Hb Hne Hx. unfold toggleBlock. apply try_catch_Sent.
  rewrite (bind_parse_Some _ t) by done.
  rewrite (bind_user_Some _ u) by done.
  rewrite bool_decide_false by done. step. rewrite Hx.
  apply find_row_Some in Hx as [Hin _].
  destruct (find_row_is_Some (λ y, BlockedUser.id y = BlockedUser.id x) _ x
              Hin eq_refl) as [y Hy].
  erewrite bind_attempt_Some
    by (unfold blockedUser_delete; rewrite Hy; reflexivity).
  reflexivity.
Qed.

Lemma toggleBlock_blocks req w u t :
  user req = Some u →
  blockSchema (body req) = Some t →
  t ≠ User.id u →
  blockedUser_findFirst (User.id u) t (db w) = None →
  toggleBlock req w
  = if bool_decide (is_Some (user_findUnique (User.id u) (db w))
                    ∧ is_Some (user_findUnique t (db w)))
    then (Sent (Json 200 (BlockState "User blocked successfully" true)),
          set_db
            (set_blockedUsers
               (blockedUsers (db w)
                ++ [BlockedUser.mk
                      (cuid (BlockedUser.id <$> blockedUsers (db w)))
                      (User.id u) t]) (db w)) w)
    else (Sent (Json 500 (Error "Failed to toggle block status")), w).
Proof.
  intros Hu Hb Hne Hx. unfold toggleBlock.
  destruct (decide (is_Some (user_findUnique (User.id u) (db w))
                    ∧ is_Some (user_findUnique t (db w))))
    as [[[bu Hbu] [tu Htu]]|Hno].
  - rewrite bool_decide_true by (rewrite Hbu, Htu; done).
    apply try_catch_Sent.
    rewrite (bind_parse_Some _ t) by done.
    rewrite (bind_user_Some _ u) by done.
    rewrite (bool_decide_false (t = User.id u)) by done. step. rewrite Hx.
    erewrite bind_attempt_Some
      by (unfold blockedUser_create; rewrite Hbu, Htu, Hx; reflexivity).
    reflexivity.
  - rewrite bool_decide_false by done.
    erewrite try_catch_Thrown; [reflexivity|].
    rewrite (bind_parse_Some _ t) by done.
    rewrite (bind_user_Some _ u) by done.
    rewrite (bool_decide_false (t = User.id u)) by done. step. rewrite Hx.
    rewrite bind_attempt_None; [done|].
    unfold blockedUser_create.
    destruct (user_findUnique (User.id u) (db w)) as [bu|]; [|done].
    destruct (user_findUnique t (db w)) as [tu|]; [|done].
    destruct Hno. split; by eexists.
Qed.

(** X10. [checkBlockStatus] and [toggleBlock] agree: from a block table
    in which a pair has at most one row, whenever the toggle answers 200
    with [isBlocked = b] for the user named in its body, a check by the
    same caller for that user answers [b] afterwards and would have
    answered the opposite before. *)
Theorem checkBlockStatus_agrees_with_toggle
    (req req' : Request) (w w' : World) (u : User.t JsDate) t msg b :
  user req = Some u →
  body req !! "userId" = Some (JStr t) →
  user req' = Some u →
  param req' = t →
  blocks_unique (db w) →
  toggleBlock req w = (Sent (Json 200 (BlockState msg b)), w') →
  checkBlockStatus req' w' = (Next b, w')
  ∧ checkBlockStatus req' w = (Next (negb b), w).
Proof.
  intros Hu Hb Hu' Hp Huniq Hrun.
  rewrite !(checkBlockStatus_reads _ _ u) by done. rewrite Hp.
  destruct (blockSchema (body req)) as [t'|] eqn:Hs.
  2:{ unfold toggleBlock in Hrun.
      rewrite (try_catch_Thrown _ _ w ZodError w) in Hrun; [done|].
      by apply bind_parse_None. }
  apply blockSchema_inv in Hs as Hs'. destruct Hs' as [Hb' Hc].
  rewrite Hb in Hb'. injection Hb' as <-.
  destruct (decide (t = User.id u)) as [Heq|Hne].
  { assert (Hr : toggleBlock req w
              = (Sent (Json 400 (Error "Cannot block yourself")), w)).
    { unfold toggleBlock. apply try_catch_Sent.
      rewrite (bind_parse_Some _ t) by done.
      rewrite (bind_user_Some _ u) by done.
      by rewrite bool_decide_true. }
    rewrite Hr in Hrun. done. }
  destruct (blockedUser_findFirst (User.id u) t (db w)) as [x|] eqn:Hx.
  - rewrite (toggleBlock_unblocks req w u t x) in Hrun by done.
    injection Hrun as <- <- <-.
    assert (Hbefore : blocks_edge (User.id u) t (db w) = true).
    { unfold blocks_edge. rewrite Hx. by apply bool_decide_true. }
    rewrite Hbefore. split; [|done]. do 2 f_equal.
    unfold blocks_edge. apply bool_decide_false.
    rewrite <- eq_None_not_Some.
    destruct w as [d i h]. cbn [db set_db] in *.
    unfold blockedUser_findFirst. cbn [blockedUsers set_blockedUsers].
    apply find_row_None.
    intros y Hy [Ha Hc']. apply list_elem_of_filter in Hy as [Hid Hy].
    apply Hid. apply find_row_Some in Hx as [Hxin [Hxa Hxb]].
    f_equal. apply Huniq; congruence.
  - rewrite (toggleBlock_blocks req w u t) in Hrun by done.
    case_bool_decide as Hboth; [|done].
    injection Hrun as <- <- <-.
    assert (Hbefore : blocks_edge (User.id u) t (db w) = false).
    { unfold blocks_edge. rewrite Hx. apply bool_decide_false. by intros []. }
    rewrite Hbefore. split; [|done]. do 2 f_equal.
    unfold blocks_edge. apply bool_decide_true.
    destruct w as [d i h]. cbn [db set_db] in *.
    unfold blockedUser_findFirst. cbn [blockedUsers set_blockedUsers].
    destruct (find_row_is_Some
                (λ y, BlockedUser.blockerId y = User.id u
                      ∧ BlockedUser.blockedId y = t)
                (blockedUsers d
                 ++ [BlockedUser.mk (cuid (BlockedUser.id <$> blockedUsers d))
                       (User.id u) t])
                (BlockedUser.mk (cuid (BlockedUser.id <$> blockedUsers d))
                   (User.id u) t)) as [y Hy].
    + apply elem_of_app. right. by apply list_elem_of_singleton.
    + done.
    + by rewrite Hy.
Qed.

(** X11. The two toggles treat a user that does not exist differently:
    [toggleFollow] looks the target up and answers 404, while [toggleBlock]
    does not and lets the store reject the row, which its [catch] turns
    into 500; neither writes anything. *)
Theorem unknown_target_follow_404_block_500
    (req : Request) (w : World) (u : User.t JsDate) t :
  user req = Some u →
  t ≠ User.id u →
  is_cuid t = true →
  user_findUnique t (db w) = None →
  (param req = t →
   toggleFollow req w = (Sent (Json 404 (Error "User not found")), w))
  ∧ (body req !! "userId" = Some (JStr t) →
     blockedUser_findFirst (User.id u) t (db w) = None →
     toggleBlock req w
     = (Sent (Json 500 (Error "Failed to toggle block status")), w)).
Proof.
  intros Hu Hne Hc Hnone. split.
  - intros Hp. unfold toggleFollow. apply try_catch_Sent.
    rewrite (bind_user_Some _ u) by done. cbn beta iota zeta.
    rewrite bool_decide_false by congruence. step.
    by rewrite Hp, Hnone.
  - intros Hb Hx.
    rewrite (toggleBlock_blocks req w u t); try done.
    + rewrite bool_decide_false; [done|].
      rewrite Hnone. intros [_ [? ?]]. done.
    + by apply blockSchema_Some.
Qed.

(** ** The review of reports *)

Lemma bind_role_Some {B} req u (k : Role → Handler B) w :
  user req = Some u → (req_user_role req ≫= k) w = k (User.role u) w.
Proof. unfold req_user_role. by intros ->. Qed.

Lemma report_find_replace id id' new (d : DB) :
  Report.id new = id →
  report_findUnique id'
    (set_reports
       ((λ r, if decide (Report.id r = id) then new else r) <$> reports d) d)
  = if decide (id' = id) then (λ _, new) <$> report_findUnique id d
    else report_findUnique id' d.
Proof.
  intros Hid. unfold report_findUnique. cbn [reports set_reports].
  by apply (find_row_replace Report.id).
Qed.

(** X12. The review of reports is for administrators only: for a caller
    whose role is not ADMIN, [getReports] and [updateReportStatus] answer
    403 before they read the query, the body or the store, and write
    nothing. *)
Theorem report_review_is_admin_only
    (qs : gmap string string) (req : Request) (w : World) u :
  user req = Some u →
  User.role u ≠ ADMIN →
  getReports qs req w = (Sent (Json 403 (Error "Access denied")), w)
  ∧ updateReportStatus req w = (Sent (Json 403 (Error "Access denied")), w).
Proof.
  intros Hu Hrole. split.
  - unfold getReports. apply try_catch_Sent.
    rewrite (bind_role_Some _ u) by done.
    by rewrite bool_decide_true.
  - unfold updateReportStatus. apply try_catch_Sent.
    rewrite (bind_role_Some _ u) by done.
    by rewrite bool_decide_true.
Qed.

(** X13. For an administrator [updateReportStatus] sets the status named
    in the body on the report named in the path, from whatever status it
    had: the answer is 200 with the report, which keeps its reporter,
    reported party, reason and target, and every other report reads as
    before.  A status outside the four, or an id that names no report,
    answers 500 and writes nothing. *)
Theorem updateReportStatus_by_admin (req : Request) (w : World) u :
  user req = Some u →
  User.role u = ADMIN →
  (statusSchema (body req) = None
   ∨ report_findUnique (param req) (db w) = None →
   updateReportStatus req w
   = (Sent (Json 500 (Error "Failed to update report status")), w))
  ∧ (∀ s r, statusSchema (body req) = Some s →
       report_findUnique (param req) (db w) = Some r →
       let w' := snd (updateReportStatus req w) in
       updateReportStatus req w
       = (Sent (Json 200 (ReportCreated "Report status updated successfully"
                            (with_status s r))), w')
       ∧ report_findUnique (param req) (db w') = Some (with_status s r)
       ∧ (∀ id', id' ≠ param req →
                 report_findUnique id' (db w') = report_findUnique id' (db w))
       ∧ w' = set_db (set_reports (reports (db w')) (db w)) w).
Proof.
  intros Hu Hrole. split.
  - intros Hbad. unfold updateReportStatus.
    destruct (statusSchema (body req)) as [s|] eqn:Hs.
    + destruct Hbad as [?|Hnone]; [done|].
      rewrite (try_catch_Thrown _ _ w PrismaError w); [done|].
      rewrite (bind_role_Some _ u) by done.
      rewrite (bool_decide_false (User.role u ≠ ADMIN)) by (by intros []).
      cbn zeta. rewrite (bind_parse_Some _ s) by done.
      rewrite bind_attempt_None; [done|].
      unfold report_update. by rewrite Hnone.
    + rewrite (try_catch_Thrown _ _ w ZodError w); [done|].
      rewrite (bind_role_Some _ u) by done.
      rewrite (bool_decide_false (User.role u ≠ ADMIN)) by (by intros []).
      cbn zeta. by apply bind_parse_None.
  - intros s r Hs Hr.
    assert (Hid : Report.id r = param req).
    { unfold report_findUnique in Hr. by apply find_row_Some in Hr as [_ ?]. }
    assert (Hrun : updateReportStatus req w
      = (Sent (Json 200 (ReportCreated "Report status updated successfully"
                           (with_status s r))),
         set_db
           (set_reports
              ((λ x, if decide (Report.id x = param req)
                     then with_status s r else x) <$> reports (db w))
              (db w)) w)).
    { unfold updateReportStatus. apply try_catch_Sent.
      rewrite (bind_role_Some _ u) by done.
      rewrite (bool_decide_false (User.role u ≠ ADMIN)) by (by intros []).
      cbn zeta. rewrite (bind_parse_Some _ s) by done.
      erewrite bind_attempt_Some; [done|].
      unfold report_update. by rewrite Hr. }
    rewrite Hrun. cbn [snd]. split; [done|].
    destruct w as [d i h]. cbn [db set_db] in *.
    split; [|split].
    + rewrite report_find_replace by done. rewrite decide_True by done.
      by rewrite Hr.
    + intros id' Hne. rewrite report_find_replace by done.
      by rewrite decide_False.
    + done.
Qed.

(** ** Listings *)

Lemma bind_findMany {A B} skip take (l : list A) (k : list A → Handler B) w :
  (findMany skip take l ≫= k) w
  = match page_of A skip take l with
    | Some rows => k rows w
    | None => (Thrown PrismaError, w)
    end.
Proof.
  unfold mbind, Handler_bind, findMany. by destruct (page_of A skip take l).
Qed.

(** X14. [getAllDocs] lists public documents only, for every caller and
    every query: whenever it answers, each item is the annotated form of
    a document of the store that is public, the total counts the public
    documents, and nothing is written.  A private document is not listed
    even to its author. *)
Theorem getAllDocs_lists_public_docs_only
    (qs : gmap string string) (req : Request) (w w' : World) p :
  page_within →
  getAllDocs qs req w = (Next p, w') →
  w' = w
  ∧ total p = length (filter (λ x, Doc.isPublic x = true) (docs (db w)))
  ∧ ∀ b, b ∈ items p →
         ∃ doc, doc ∈ docs (db w) ∧ Doc.isPublic doc = true
                ∧ b = format_doc doc (User.id <$> user req) (db w).
Proof.
  intros Hpage. unfold getAllDocs. cbn zeta. rewrite bind_query.
  rewrite bind_findMany.
  destruct (page_of _ _ _ _) as [rows|] eqn:Hrows; [|done].
  rewrite bind_query. unfold respond. intros [= <- <-].
  split; [done|]. split; [done|]. cbn [items].
  intros b Hb. apply list_elem_of_fmap in Hb as (doc & -> & Hdoc).
  apply (Hpage _ _ _ _ _ Hrows) in Hdoc.
  apply list_elem_of_filter in Hdoc as [Hpub Hin]. by exists doc.
Qed.

(** X15. [getUserDocs] shows a user's private documents to that user
    only: an unknown username answers 404; otherwise each item is the
    annotated form of a document written by the user, and it is public
    unless the caller is the user; the total counts all the user's
    documents for the user and the public ones for anyone else. *)
Theorem getUserDocs_private_docs_for_their_author
    (qs : gmap string string) (req : Request) (w : World) :
  page_within →
  (find_row (λ u, User.username u = param req) (users (db w)) = None →
   getUserDocs qs req w = (Sent (Json 404 (Message "User not found")), w))
  ∧ (∀ owner p w',
       find_row (λ u, User.username u = param req) (users (db w))
       = Some owner →
       getUserDocs qs req w = (Next p, w') →
       w' = w
       ∧ (∀ b, b ∈ items p →
               ∃ doc, doc ∈ docs (db w)
                      ∧ Doc.authorId doc = User.id owner
                      ∧ (Doc.isPublic doc = true
                         ∨ User.id <$> user req = Some (User.id owner))
                      ∧ b = format_doc doc (User.id <$> user req) (db w))
       ∧ total p
         = length
             (filter
                (λ x, Doc.authorId x = User.id owner
                      ∧ (Doc.isPublic x = true
                         ∨ User.id <$> user req = Some (User.id owner)))
                (docs (db w)))).
Proof.
  intros Hpage. unfold getUserDocs. cbn zeta. split.
  - intros Hnone. rewrite bind_query. by rewrite Hnone.
  - intros owner p w' Howner. rewrite bind_query. rewrite Howner.
    rewrite bind_query. rewrite bind_findMany.
    destruct (page_of _ _ _ _) as [rows|] eqn:Hrows; [|done].
    rewrite bind_query. unfold respond. intros [= <- <-].
    split; [done|]. cbn [items total]. split.
    + intros b Hb. apply list_elem_of_fmap in Hb as (doc & -> & Hdoc).
      apply (Hpage _ _ _ _ _ Hrows) in Hdoc.
      apply list_elem_of_filter in Hdoc as [[Hauth Hvis] Hin].
      exists doc. split; [done|]. split; [done|]. split; [|done].
      destruct Hvis; [by right|by left].
    + f_equal. apply list_filter_iff. intros x. split.
      * intros [? [?|?]]; (split; [done|]); [by right|by left].
      * intros [? [?|?]]; (split; [done|]); [by right|by left].
Qed.

(** X16. [getComments] needs a target and lists its top-level comments
    with their direct replies: without a snippet, document or bug id that
    is a non-empty string it answers 400; otherwise, whenever it answers,
    every item is a comment of the store that has no parent and belongs to
    each target named, and the replies shown with it are exactly the
    comments whose parent it is. *)
Theorem getComments_top_level_of_target (qs : gmap string string) (w : World) :
  page_within →
  (truthy (qs !! "snippetId") = false → truthy (qs !! "docId") = false →
   truthy (qs !! "bugId") = false →
   getComments qs w = (Sent (Json 400 (Error "Content ID is required")), w))
  ∧ (∀ p w', getComments qs w = (Next p, w') →
       w' = w
       ∧ ∀ c rs, (c, rs) ∈ items p →
           c ∈ comments (db w)
           ∧ Comment.parentId c = None
           ∧ (truthy (qs !! "snippetId") = true →
              Comment.snippetId c = qs !! "snippetId")
           ∧ (truthy (qs !! "docId") = true →
              Comment.docId c = qs !! "docId")
           ∧ (truthy (qs !! "bugId") = true →
              Comment.bugId c = qs !! "bugId")
           ∧ ∀ r, r ∈ rs
                  ↔ r ∈ comments (db w)
                    ∧ Comment.parentId r = Some (Comment.id c)).
Proof.
  intros Hpage. unfold getComments. cbn zeta. split.
  - intros -> -> ->. by apply try_catch_Sent.
  - intros p w'.
    destruct (negb (truthy (qs !! "snippetId")) && negb (truthy (qs !! "docId"))
              && negb (truthy (qs !! "bugId"))) eqn:Hnone.
    { by rewrite (try_catch_Sent _ _ w (Json 400 (Error "Content ID is required")) w). }
    unfold try_catch. rewrite bind_query. rewrite bind_findMany.
    destruct (page_of _ _ _ _) as [rows|] eqn:Hrows; [|done].
    rewrite bind_query. unfold respond. cbn. intros [= <- <-].
    split; [done|]. cbn [items]. intros c rs Hin.
    apply list_elem_of_fmap in Hin as (c' & [= -> ->] & Hc).
    apply (Hpage _ _ _ _ _ Hrows) in Hc.
    apply list_elem_of_filter in Hc as [(Hp & Hs & Hd & Hb) Hc].
    repeat (split; [done|]).
    intros r. unfold replies. rewrite list_elem_of_filter. split.
    + by intros [? ?].
    + by intros [? ?].
Qed.

(** ** The pagination middleware *)

Lemma num_or_nonzero n d : d ≠ 0%Z → num_or n d ≠ 0%Z.
Proof.
  intros Hd. unfold num_or. destruct n as [n|]; [|done].
  by case_bool_decide.
Qed.

Lemma num_or_Some n d : n ≠ 0%Z → num_or (Some n) d = n.
Proof. intros Hn. unfold num_or. by rewrite bool_decide_false. Qed.

Lemma num_or_negative n d :
  (0 < d)%Z → (num_or n d < 1)%Z ↔ ∃ m, n = Some m ∧ (m < 0)%Z.
Proof.
  intros Hd. unfold num_or. destruct n as [n|].
  - case_bool_decide as Hz.
    + split; [lia|]. intros (m & [= <-] & Hm). lia.
    + split.
      * intros Hlt. exists n. split; [done|lia].
      * intros (m & [= <-] & Hm). lia.
  - split; [lia|]. by intros (m & ? & _).
Qed.

Lemma validatePagination_inr qs qs' :
  validatePagination qs = inr qs' →
  qs' !! "page"
  = Some (Number_toString (num_or (parseInt_param (qs !! "page")) 1))
  ∧ qs' !! "limit"
    = Some (Number_toString
              (Z.min (num_or (parseInt_param (qs !! "limit")) 10) 50))
  ∧ (1 ≤ num_or (parseInt_param (qs !! "page")) 1)%Z
  ∧ (1 ≤ Z.min (num_or (parseInt_param (qs !! "limit")) 10) 50 ≤ 50)%Z
  ∧ ∀ k, k ≠ "page" → k ≠ "limit" → qs' !! k = qs !! k.
Proof.
  unfold validatePagination. cbn zeta.
  case_bool_decide as Hpage; [done|].
  destruct (bool_decide (_ < 1)%Z || _) eqn:Hlimit; [done|].
  apply orb_false_iff in Hlimit as [Hlo Hhi].
  apply bool_decide_eq_false in Hlo. apply bool_decide_eq_false in Hhi.
  intros [= <-].
  rewrite lookup_insert_ne by done. rewrite !lookup_insert_eq.
  split; [done|]. split; [done|]. split; [lia|]. split; [lia|].
  intros k Hk1 Hk2. by rewrite !lookup_insert_ne.
Qed.

(** X17. [validatePagination] rejects a negative page or limit and
    nothing else: a page or limit that is absent, 0 or not a number takes
    its default (1 and 10), and a limit above 50 is cut to 50 rather than
    refused, so the test [limit > 50] never fires.  What it hands on is the
    printed page, which is at least 1, and the printed limit, which is
    between 1 and 50; the other parameters of the query pass untouched. *)
Theorem validatePagination_rejects_negatives_only (qs : gmap string string) :
  ((∃ r, validatePagination qs = inl r)
   ↔ ∃ n, (n < 0)%Z
          ∧ (parseInt_param (qs !! "page") = Some n
             ∨ parseInt_param (qs !! "limit") = Some n))
  ∧ (∀ qs', validatePagination qs = inr qs' →
       let page := num_or (parseInt_param (qs !! "page")) 1 in
       let limit := Z.min (num_or (parseInt_param (qs !! "limit")) 10) 50 in
       qs' !! "page" = Some (Number_toString page)
       ∧ qs' !! "limit" = Some (Number_toString limit)
       ∧ (1 ≤ page)%Z ∧ (1 ≤ limit ≤ 50)%Z
       ∧ ∀ k, k ≠ "page" → k ≠ "limit" → qs' !! k = qs !! k).
Proof.
  split.
  - unfold validatePagination. cbn zeta.
    pose proof (num_or_negative (parseInt_param (qs !! "page")) 1) as Hp.
    pose proof (num_or_negative (parseInt_param (qs !! "limit")) 10) as Hl.
    set (page := num_or (parseInt_param (qs !! "page")) 1) in *.
    set (limit := num_or (parseInt_param (qs !! "limit")) 10) in *.
    split.
    + intros [r Hr]. case_bool_decide as Hpage.
      { apply Hp in Hpage as (n & Hn & Hneg); [|lia].
        exists n. split; [done|]. by left. }
      destruct (bool_decide (Z.min limit 50 < 1)%Z
                || bool_decide (50 < Z.min limit 50)%Z) eqn:Hlimit; [|done].
      apply orb_true_iff in Hlimit as [Hlo|Hhi].
      * apply bool_decide_eq_true in Hlo.
        assert (Hlt : (limit < 1)%Z) by lia.
        apply Hl in Hlt as (n & Hn & Hneg); [|lia].
        exists n. split; [done|]. by right.
      * apply bool_decide_eq_true in Hhi. lia.
    + intros (n & Hneg & [Hn|Hn]).
      * assert (Hlt : (page < 1)%Z) by (apply Hp; [lia|by exists n]).
        rewrite (bool_decide_true (page < 1)%Z) by done. by eexists.
      * assert (Hlt : (limit < 1)%Z) by (apply Hl; [lia|by exists n]).
        case_bool_decide; [by eexists|].
        rewrite (bool_decide_true (Z.min limit 50 < 1)%Z) by lia.
        by eexists.
  - intros qs' Hqs'. cbn zeta. by apply validatePagination_inr.
Qed.

(** X18. Behind [validatePagination] the listing of documents is
    bounded: whatever the query, an answer of the route carries at most 50
    documents and a current page of at least 1. *)
Theorem docs_listing_at_most_50
    (qs : gmap string string) (req : Request) (w w' : World) p :
  limit_reparses → page_reparses → page_bounded →
  docs_listing qs req w = (Next p, w') →
  length (items p) ≤ 50
  ∧ ∃ n, currentPage p = Some n ∧ (1 ≤ n)%Z.
Proof.
  intros Hlimit Hpage Hbound. unfold docs_listing.
  destruct (validatePagination qs) as [r|qs'] eqn:Hv; [done|].
  destruct (validatePagination_inr qs qs' Hv) as (Hp & Hl & Hp1 & Hl1 & _).
  destruct (Hpage _ Hp1) as (m & Hm & Hm1).
  unfold getAllDocs. cbn zeta. rewrite Hp, Hl.
  change (parseInt_param (Some ?s)) with (parseInt s).
  rewrite Hm, (Hlimit _ Hl1).
  rewrite !num_or_Some by lia.
  rewrite bind_query. rewrite bind_findMany.
  destruct (page_of _ _ _ _) as [rows|] eqn:Hrows; [|done].
  rewrite bind_query. unfold respond. intros [= <- <-].
  cbn [items currentPage]. split.
  - rewrite length_fmap. apply Hbound in Hrows; lia.
  - by eexists.
Qed.

(** ** The broadcast to followers *)

Lemma emit_each_run fs e p w sent :
  io w = Some sent →
  emit_each fs e p w
  = (Next (),
     mkWorld (db w)
       (Some (sent ++ (emission e p ∘ Follow.followerId <$> fs))) (heap w)).
Proof.
  revert w sent. induction fs as [|f fs IH]; intros w sent Hio.
  - destruct w as [d i h]. cbn in *. subst. by rewrite app_nil_r.
  - cbn [emit_each]. rewrite (bind_getIO_emit_Some _ _ _ _ _ sent) by done.
    rewrite (IH _ (sent ++ [emission e p (Follow.followerId f)]))
      by done.
    cbn [db heap fmap list_fmap]. by rewrite <- app_assoc.
Qed.

(** X19. [emitToFollowers] sends the event to the room of every follower
    of the author, in the order of the follow table, and then to the
    author's own room, and to nobody else; it never throws and never
    writes to the store: with the channel not initialised the failure is
    swallowed and nothing is sent, and nothing is sent either for an empty
    author id or event name. *)
Theorem emitToFollowers_reaches_followers_and_author
    (authorId event : string) (p : Payload) (w : World) :
  fst (emitToFollowers authorId event p w) = Next ()
  ∧ db (snd (emitToFollowers authorId event p w)) = db w
  ∧ (io w = None ∨ authorId = "" ∨ event = "" →
     snd (emitToFollowers authorId event p w) = w)
  ∧ (∀ sent, io w = Some sent → authorId ≠ "" → event ≠ "" →
       io (snd (emitToFollowers authorId event p w))
       = Some (sent
               ++ (emission event p ∘ Follow.followerId
                     <$> filter (λ f, Follow.followingId f = authorId)
                           (follows (db w)))
               ++ [emission event p authorId])).
Proof.
  unfold emitToFollowers, try_catch.
  destruct (bool_decide (authorId = "") || bool_decide (event = ""))
    eqn:Hblank.
  { cbn. split; [done|]. split; [done|]. split; [done|].
    intros sent _ Ha He.
    rewrite (bool_decide_false (authorId = "")) in Hblank by done.
    by rewrite (bool_decide_false (event = "")) in Hblank by done. }
  apply orb_false_iff in Hblank as [Ha He].
  apply bool_decide_eq_false in Ha. apply bool_decide_eq_false in He.
  rewrite bind_query.
  destruct (io w) as [sent|] eqn:Hio.
  - erewrite (bind_Next _ _ w () w) by (by rewrite Hio).
    erewrite bind_Next by (by apply (emit_each_run _ _ _ _ sent)).
    unfold getIO_emit. cbn.
    split; [done|]. split; [done|]. split.
    + by intros [?|[?|?]].
    + intros ? [= <-] _ _. by rewrite <- app_assoc.
  - erewrite (bind_Thrown _ _ w SocketNotInitialized w) by (by rewrite Hio).
    cbn. done.
Qed.

(** ** The sweep of expired bugs *)

(** X20. The hourly sweep deletes exactly the bugs that expired before
    the instant it runs: a bug is in the store afterwards if and only if
    it was there and has not expired; no comment on a swept bug is left;
    users, documents and follows are untouched. *)
Theorem sweep_removes_expired_bugs (now : Z) (w : World) :
  let w' := sweep now w in
  (∀ b, b ∈ bugs (db w') ↔ b ∈ bugs (db w) ∧ (now ≤ Bug.expiresAt b)%Z)
  ∧ (∀ c, c ∈ comments (db w') →
          c ∈ comments (db w)
          ∧ ∀ b, b ∈ bugs (db w) → (Bug.expiresAt b < now)%Z →
                 Comment.bugId c ≠ Some (Bug.id b))
  ∧ users (db w') = users (db w)
  ∧ docs (db w') = docs (db w)
  ∧ follows (db w') = follows (db w)
  ∧ io w' = io w.
Proof.
  cbn zeta. unfold sweep, delete_bugs. destruct w as [d i h].
  cbn [db set_db io bugs comments users docs follows].
  split; [|split; [|done]].
  - intros b. change (bugs (delete_comments _ d)) with (bugs d).
    rewrite list_elem_of_filter. split.
    + intros [Hlive Hb]. split; [done|]. lia.
    + intros [Hb Hlive]. split; [lia|done].
  - intros c Hc. split; [by eapply delete_comments_sub|].
    intros b Hb Hexp Href.
    apply (delete_comments_clears
             (λ c, points_into (Comment.bugId c)
                     (Bug.id <$> filter (λ b, (Bug.expiresAt b < now)%Z)
                                   (bugs d))) d c Hc).
    rewrite Href. cbn [points_into]. apply list_elem_of_fmap.
    exists b. split; [done|]. by apply list_elem_of_filter.
Qed.

Lemma createComment_on_bug now req w u data id r :
  user req = Some u →
  commentSchema (body req) = Some data →
  c_bugId data = Some id →
  id ≠ "" →
  (∀ l, locate_bug now data l w = (Sent r, w)) →
  createComment now req w = (Sent r, w).
Proof.
  intros Hu Hdata Hbug Hid Hr.
  assert (truthy (c_snippetId data) = false ∧ truthy (c_docId data) = false)
    as [Hs Hd].
  { pose proof (commentSchema_targets _ _ Hdata) as Hlen.
    unfold targets in Hlen. rewrite !filter_cons, filter_nil in Hlen.
    rewrite Hbug in Hlen. simpl in Hlen.
    rewrite (bool_decide_true (id ≠ "")) in Hlen by done.
    destruct (truthy (c_snippetId data)), (truthy (c_docId data));
      repeat case_decide; simpl in Hlen; try done; lia. }
  unfold createComment. apply try_catch_Sent.
  rewrite (bind_parse_Some _ data) by done.
  rewrite (bind_user_Some _ u) by done.
  unfold locate_snippet, locate_doc.
  rewrite if_truthy_false by done. step.
  rewrite if_truthy_false by done. step.
  apply bind_Sent, Hr.
Qed.

(** X21. The answer 410 lasts until the next sweep: a comment on a bug
    that has expired is refused with 410 while the bug is still in the
    store, and with 404 once the sweep has run, at whatever instant the
    request then arrives. *)
Theorem expired_bug_is_410_until_swept (now now' : Z) (req : Request)
    (w : World) (u : User.t JsDate) (data : CommentInput) id bug :
  user req = Some u →
  commentSchema (body req) = Some data →
  c_bugId data = Some id →
  id ≠ "" →
  bug_findUnique id (db w) = Some bug →
  (Bug.expiresAt bug < now)%Z →
  (∀ b, b ∈ bugs (db w) → Bug.id b = id → b = bug) →
  createComment now req w
  = (Sent (Json 410 (Error "Bug report has expired")), w)
  ∧ createComment now' req (sweep now w)
    = (Sent (Json 404 (Error "Bug not found")), sweep now w).
Proof.
  intros Hu Hdata Hbug Hid Hfound Hexp Huniq. split.
  - apply (createComment_on_bug now req w u data id); try done.
    intros l. unfold locate_bug.
    rewrite Hbug, if_truthy_true by done. step. rewrite Hfound.
    by rewrite bool_decide_true.
  - apply (createComment_on_bug now' req _ u data id); try done.
    intros l. unfold locate_bug.
    rewrite Hbug, if_truthy_true by done. step.
    assert (Hnone : bug_findUnique id (db (sweep now w)) = None).
    { unfold bug_findUnique. apply find_row_None. intros b Hb Hidb.
      unfold sweep, delete_bugs in Hb. destruct w as [d i h].
      cbn [db set_db bugs] in Hb.
      change (bugs (delete_comments _ d)) with (bugs d) in Hb.
      apply list_elem_of_filter in Hb as [Hlive Hb].
      apply Hlive. by rewrite (Huniq b Hb Hidb). }
    by rewrite Hnone.
Qed.

(** ** The rooms of a connection *)

Lemma invalid_id_false v :
  invalid_id v = false
  ↔ ∃ r, v = JStr r ∧ r ≠ "" ∧ String.length r ≤ 50.
Proof.
  destruct v as [| | |s|]; simpl;
    try (split; [done|by intros (? & ? & _)]).
  rewrite orb_false_iff, !bool_decide_eq_false. split.
  - intros [Hne Hlen]. exists s. split; [done|]. split; [done|lia].
  - intros (r & [= <-] & Hne & Hlen). split; [done|lia].
Qed.

Lemma receive_rooms e s r :
  r ∈ rooms (receive e s) →
  r ∈ rooms s
  ∨ (passes e s = true ∧ joins e r ∧ r ≠ "" ∧ String.length r ≤ 50).
Proof.
  destruct (passes e s) eqn:Hp.
  2:{ rewrite receive_dropped by done. by left. }
  unfold passes in Hp. unfold joins.
  destruct e as [v|v|v]; cbn [receive eventName limit_of] in *;
    unfold on_join_user_room, on_join_content_room, on_leave_content_room;
    destruct (checkRateLimit _ _ s) as [ok s'] eqn:E; cbn [fst] in Hp;
    subst ok; cbn [negb];
    (assert (rooms s' = rooms s) as Hrooms
       by (unfold checkRateLimit in E; case_bool_decide; [done|];
           by injection E as <-));
    destruct (invalid_id v) eqn:Hv; cbn [logger rooms socket_join socket_leave];
    rewrite ?Hrooms; try (by left).
  - apply invalid_id_false in Hv as (x & -> & Hne & Hlen). cbn [room_of].
    rewrite elem_of_union, elem_of_singleton. intros [->|?]; [|by left].
    right. split; [done|]. split; [by left|done].
  - apply invalid_id_false in Hv as (x & -> & Hne & Hlen). cbn [room_of].
    rewrite elem_of_union, elem_of_singleton. intros [->|?]; [|by left].
    right. split; [done|]. split; [by right|done].
  - rewrite elem_of_difference. intros [? _]. by left.
Qed.

Lemma tick_rooms t c : rooms (socket (tick t c)) = rooms (socket c).
Proof. unfold tick. by case_bool_decide. Qed.

(** X22. A connection is only ever in rooms it asked to join: after any
    timed trace of events, each room of the connection was one of its
    rooms before, or is the non-empty id, of at most 50 characters, of a
    join event of the trace that the rate limiter let through. *)
Theorem rooms_come_from_joins
    (tr : list (N * ClientEvent)) (c : Connection) (r : string) :
  r ∈ rooms (socket (after tr c)) →
  r ∈ rooms (socket c)
  ∨ (r ≠ "" ∧ String.length r ≤ 50
     ∧ ∃ t e, (t, e) ∈ processed tr c ∧ joins e r).
Proof.
  revert c. induction tr as [|[t e] tr IH]; intros c Hr.
  { by left. }
  cbn [after foldl fst snd] in Hr. apply IH in Hr as [Hr|Hr].
  - unfold deliver in Hr. cbn [socket] in Hr.
    apply receive_rooms in Hr as [Hr|(Hp & Hj & Hne & Hlen)].
    + left. by rewrite tick_rooms in Hr.
    + right. split; [done|]. split; [done|]. exists t, e. split; [|done].
      cbn [processed]. rewrite Hp. apply elem_of_app. left.
      by apply list_elem_of_singleton.
  - right. destruct Hr as (Hne & Hlen & t' & e' & Hin & Hj).
    split; [done|]. split; [done|]. exists t', e'. split; [|done].
    cbn [processed]. apply elem_of_app. by right.
Qed.

(** X23. The rooms of users and of content share one name space, and no
    handler asks whose room it is: a connection joins the room of any
    user id it names, and [leave-content-room] with that id takes it out
    of the room again. *)
Theorem leave_content_room_leaves_a_user_room (s : Socket) (id : string) :
  id ≠ "" → String.length id ≤ 50 →
  passes (join_user_room (JStr id)) s = true →
  let s1 := receive (join_user_room (JStr id)) s in
  passes (leave_content_room (JStr id)) s1 = true →
  id ∈ rooms s1
  ∧ id ∉ rooms (receive (leave_content_room (JStr id)) s1).
Proof.
  intros Hne Hlen Hj s1 Hl.
  assert (Hv : invalid_id (JStr id) = false).
  { apply invalid_id_false. exists id. done. }
  split.
  - unfold s1. unfold passes in Hj. cbn [receive eventName limit_of] in *.
    unfold on_join_user_room.
    destruct (checkRateLimit _ _ s) as [ok s'] eqn:E. cbn [fst] in Hj.
    subst ok. cbn [negb]. rewrite Hv.
    cbn [logger rooms socket_join room_of].
    apply elem_of_union. left. by apply elem_of_singleton.
  - unfold passes in Hl. cbn [receive eventName limit_of] in *.
    unfold on_leave_content_room.
    destruct (checkRateLimit _ _ s1) as [ok s'] eqn:E. cbn [fst] in Hl.
    subst ok. cbn [negb]. rewrite Hv.
    cbn [logger rooms socket_leave room_of].
    rewrite elem_of_difference, elem_of_singleton. by intros [_ ?].
Qed.

(** X24. The limiter counts each event name on its own: an event of one
    name, let through or dropped, does not change whether an event of
    another name passes. *)
Theorem limits_are_per_event_name (e e' : ClientEvent) (s : Socket) :
  eventName e ≠ eventName e' →
  passes e (receive e' s) = passes e s.
Proof.
  intros Hne. rewrite !passes_spec. rewrite receive_counter.
  rewrite (bool_decide_false (eventName e' = eventName e)) by done.
  by rewrite andb_false_r.
Qed.

(** ** The upsert of the sign-in *)

Lemma materialise_fields row w :
  ∃ obj w',
    materialise row w = (Next obj, w')
    ∧ db w' = db w
    ∧ User.id obj = User.id row
    ∧ User.githubId obj = User.githubId row
    ∧ User.email obj = User.email row
    ∧ User.role obj = User.role row
    ∧ User.avatar obj = User.avatar row
    ∧ User.githubUrl obj = User.githubUrl row.
Proof.
  unfold materialise, new_Date, mbind, mret, Handler_bind, Handler_ret.
  destruct (User.githubCreatedAt row); simpl; do 2 eexists;
    (split; [reflexivity|]); simpl; done.
Qed.

Lemma user_find_replace id id' new (d : DB) :
  User.id new = id →
  user_findUnique id'
    (set_users
       ((λ u, if decide (User.id u = id) then new else u) <$> users d) d)
  = if decide (id' = id) then (λ _, new) <$> user_findUnique id d
    else user_findUnique id' d.
Proof.
  intros Hid. unfold user_findUnique. cbn [users set_users].
  by apply (find_row_replace User.id).
Qed.

(** X25. The verify function of the sign-in is an upsert keyed by the
    provider's account id.  Whenever it yields a user: if no row had the
    account id, one row is appended, with a fresh id and the role USER;
    otherwise no row is added and the row keeps its id and its role, so
    an administrator stays one, and it keeps its avatar and its profile
    address when the provider sends none; in both cases the email of the
    user is the provider's, never the stored one.  Whenever it fails, the
    store is as before, and it fails for every profile without an email,
    also for an account that exists and has one stored. *)
Theorem verify_upserts_by_account_id (now : Z) (profile : Profile) (w : World) :
  (∀ x y, x ∈ users (db w) → y ∈ users (db w) → User.id x = User.id y →
          x = y) →
  match verify now profile w with
  | (Next obj, w') =>
      User.githubId obj = id profile
      ∧ first_email profile = Some (User.email obj)
      ∧ match find_row (λ u, User.githubId u = id profile) (users (db w)) with
        | Some old =>
            User.id obj = User.id old
            ∧ User.role obj = User.role old
            ∧ User.avatar obj
              = or_keep (avatar_url (_json profile)) (User.avatar old)
            ∧ User.githubUrl obj
              = or_keep (profileUrl profile) (User.githubUrl old)
            ∧ length (users (db w')) = length (users (db w))
            ∧ ∀ id', id' ≠ User.id old →
                     user_findUnique id' (db w') = user_findUnique id' (db w)
        | None =>
            User.role obj = USER
            ∧ (User.id obj ∉ (User.id <$> users (db w)))
            ∧ ∃ row, users (db w') = (users (db w) ++ [row])
                     ∧ User.id row = User.id obj
        end
  | (Thrown _, w') => w' = w
  | (Sent _, _) => False
  end
  ∧ (first_email profile = None →
     ∃ e, verify now profile w = (Thrown e, w)).
Proof.
  intros Huniq. unfold verify. rewrite try_catch_rethrow.
  destruct (githubProfileSchema profile); cbn [negb].
  2:{ unfold throw. split; [done|]. intros _. by eexists. }
  rewrite bind_query. cbn zeta.
  destruct (truthy (Some (d_email (userData profile)))) eqn:Ht; cbn [negb].
  2:{ unfold throw. split; [done|]. intros _. by eexists. }
  assert (∃ e, first_email profile = Some e) as [e Hmail].
  { cbn in Ht. destruct (first_email profile) as [e|]; [by exists e|].
    cbn in Ht. by case_bool_decide. }
  split; [|by rewrite Hmail].
  rewrite Hmail. cbn [nullish].
  destruct (find_row _ (users (db w))) as [old|] eqn:Hold.
  - destruct (user_update now (User.id old) (userData profile)
                (nullish (Some e) (User.email old)) (db w))
      as [[row d']|] eqn:E.
    + erewrite bind_attempt_Some by done.
      destruct (materialise_fields row (set_db d' w))
        as (obj & w' & -> & Hdb & Hid & Hgh & Hem & Hrole & Hav & Hurl).
      unfold user_update in E.
      destruct (user_findUnique (User.id old) (db w)) as [old'|] eqn:Hold';
        [|done].
      destruct (_ && _); [|done]. injection E as <- <-.
      rewrite Hgh, Hem, Hid, Hrole, Hav, Hurl, Hdb. cbn [db set_db].
      split; [done|]. split; [done|]. split; [done|].
      assert (old' = old) as ->.
      { unfold user_findUnique in Hold'.
        apply find_row_Some in Hold as [Hin Hg].
        apply find_row_Some in Hold' as [Hin' Hi].
        by apply Huniq. }
      split; [done|]. split; [done|]. split; [done|]. split.
      * cbn [users set_users]. by rewrite length_fmap.
      * intros id' Hne. rewrite user_find_replace by done.
        by rewrite decide_False.
    + by erewrite bind_attempt_None.
  - destruct (user_create now (userData profile) (db w)) as [[row d']|] eqn:E.
    + erewrite bind_attempt_Some by done.
      destruct (materialise_fields row (set_db d' w))
        as (obj & w' & -> & Hdb & Hid & Hgh & Hem & Hrole & Hav & Hurl).
      unfold user_create in E.
      destruct (_ && _); [|done]. injection E as <- <-.
      rewrite Hgh, Hem, Hid, Hrole, Hdb. cbn [db set_db].
      unfold userData at 1 2. cbn. rewrite Hmail. cbn.
      split; [done|]. split; [done|]. split; [done|]. split.
      * unfold cuid. apply infinite_is_fresh.
      * by eexists.
    + by erewrite bind_attempt_None.
Qed.
End Codegram.

(** ** The sign-in callback on two accounts *)

(** C9 does not hold of the code.  Carol has a row already and the provider
    reports no biography for her: the callback updates the row, creates
    none, and still redirects her to the setup page.  Dave has no row and
    the provider reports a biography: the callback creates his row and
    redirects him to the home page. *)
Theorem callback_destination_ignores_creation :
  (is_Some (find_row (λ u, User.githubId u = "gh-" +:+ carol)
              (users sample_db))
   ∧ fst (github_callback_route sample_is_email sample_is_url
            sample_Date_parse 9000 None (sample_profile carol None)
            sample_world)
     = Sent (Redirect "http://localhost:3000/profile/setup")
   ∧ User.id
     <$> users (db (snd (github_callback_route sample_is_email sample_is_url
                           sample_Date_parse 9000 None
                           (sample_profile carol None) sample_world)))
     = User.id <$> users sample_db)
  ∧ (find_row (λ u, User.githubId u = "gh-" +:+ dave) (users sample_db) = None
     ∧ fst (github_callback_route sample_is_email sample_is_url
              sample_Date_parse 9000 None
              (sample_profile dave (Some "I write code")) sample_world)
       = Sent (Redirect "http://localhost:3000/home")
     ∧ length
         (users (db (snd (github_callback_route sample_is_email sample_is_url
                            sample_Date_parse 9000 None
                            (sample_profile dave (Some "I write code"))
                            sample_world))))
       = S (length (users sample_db))).
Proof.
  split; (split; [|split]); try (vm_compute; reflexivity).
  vm_compute. by eexists.
Qed.

(** ** The theorems at work on the sample store *)

(** Alice deletes her document, and the store holds. *)
Lemma deleteDoc_atomic_and_complete_witness :
  ∃ d',
    transaction None (deleteDoc_statements "cdoc0000001") sample_db = Some d'
    ∧ deleteDoc None (request alice "cdoc0000001" ∅) sample_world
      = (Sent (Json 200 (Message "Document deleted successfully")),
         set_db d' sample_world)
    ∧ doc_findUnique "cdoc0000001" d' = None
    ∧ (∀ l, l ∈ likes d' → Like.docId l ≠ Some "cdoc0000001")
    ∧ (∀ c, c ∈ comments d' → Comment.docId c ≠ Some "cdoc0000001")
    ∧ (∀ b, b ∈ bookmarks d' → Bookmark.docId b ≠ Some "cdoc0000001").
Proof.
  apply (proj2 (deleteDoc_atomic_and_complete None
                  (request alice "cdoc0000001" ∅) sample_world)
           (session alice) sample_doc); reflexivity.
Defined.

(** Bob toggles his follow of Alice three times. *)
Lemma toggleFollow_parity_witness :
  follows_edge bob alice (db (toggled 3 (request bob alice ∅) sample_world))
  = true.
Proof.
  apply (proj1 (toggleFollow_parity (request bob alice ∅) sample_world
                  (session bob) eq_refl
                  ltac:(vm_compute; discriminate)
                  ltac:(vm_compute; eexists; reflexivity)
                  ltac:(vm_compute; eexists; reflexivity)
                  ltac:(vm_compute; reflexivity) 3)).
Defined.

(** Bob reads, updates and deletes the private document of Alice. *)
Lemma non_owner_is_forbidden_witness :
  getDocById (request bob "cdoc0000001" notes_rewritten) sample_world
  = (Sent (Json 403 (Message "Access denied to this document")), sample_world)
  ∧ updateDoc 2000 (request bob "cdoc0000001" notes_rewritten) sample_world
    = (Sent (Json 403 (Message "Not authorized to update this document")),
       sample_world)
  ∧ deleteDoc None (request bob "cdoc0000001" notes_rewritten) sample_world
    = (Sent (Json 403 (Message "Not authorized to delete this document")),
       sample_world).
Proof.
  pose proof (non_owner_is_forbidden 2000
                (request bob "cdoc0000001" notes_rewritten) sample_world
                sample_doc eq_refl ltac:(vm_compute; discriminate))
    as (Hread & Hupdate & Hdelete & _).
  split; [|split].
  - exact (Hread eq_refl).
  - exact (Hupdate (session bob)
             {| in_title := "Notes"; in_content := "New body";
                in_isPublic := true |}
             eq_refl ltac:(vm_compute; reflexivity)).
  - exact (Hdelete None (session bob) eq_refl).
Defined.

(** A comment that targets a snippet and a document at once. *)
Lemma createComment_needs_one_target_witness :
  createComment 0
    (request bob ""
       {[ "content" := JStr "hi"; "snippetId" := JStr "csnippet001";
          "docId" := JStr "cdoc0000001" ]})
    sample_world
  = (Sent (Json 400 (ErrorDetails "Invalid data")), sample_world).
Proof.
  apply createComment_needs_one_target. vm_compute. discriminate.
Defined.

(** Bob comments on the bug of Alice after it has expired. *)
Lemma createComment_expired_bug_is_gone_witness :
  createComment 6000 (request bob "" comment_on_bug) sample_world
  = (Sent (Json 410 (Error "Bug report has expired")), sample_world).
Proof.
  apply (proj1 (createComment_expired_bug_is_gone 6000
                  (request bob "" comment_on_bug) sample_world (session bob)
                  {| c_content := "hi"; c_snippetId := None; c_docId := None;
                     c_bugId := Some "cbug0000001"; c_parentId := None |}
                  "cbug0000001" eq_refl eq_refl eq_refl
                  ltac:(discriminate)) sample_bug);
    reflexivity.
Defined.

(** Bob follows himself. *)
Lemma self_targets_are_rejected_witness :
  toggleFollow (request bob bob ∅) sample_world
  = (Sent (Json 400 (Error "Cannot follow yourself")), sample_world).
Proof.
  apply (proj1 (self_targets_are_rejected sample_is_cuid (request bob bob ∅)
                  sample_world (session bob) eq_refl)).
  reflexivity.
Defined.

(** A report without a reason. *)
Lemma invalid_body_answers_500_witness :
  createReport sample_is_cuid (request bob "" ∅) sample_world
  = (Sent (Json 500 (Error "Failed to submit report")), sample_world).
Proof.
  apply (proj1 (invalid_body_answers_500 sample_is_cuid 0 (request bob "" ∅)
                  sample_world)).
  reflexivity.
Defined.

(** The burst in the period that starts one minute after the connection. *)
Lemma rate_limit_per_period_witness :
  count_in 60000 120000 "join-user-room" (processed burst connect) ≤ 5.
Proof.
  apply (proj1 (rate_limit_per_period burst 1
                  ltac:(unfold chronological, burst; simpl;
                        repeat (constructor;
                                [|first [constructor; by vm_compute
                                        |constructor]]);
                        constructor))).
Defined.


(** ** The sample platform meets the assumptions of the listings *)

Lemma sample_page_within : page_within sample_page_of.
Proof.
  intros A skip limit l rows H x Hx. unfold sample_page_of in H.
  destruct skip as [s|]; [|done]. destruct limit as [t|]; [|done].
  destruct (_ && _); [|done]. injection H as <-.
  by apply subseteq_take, subseteq_drop in Hx.
Qed.

Lemma sample_page_bounded : page_bounded sample_page_of.
Proof.
  intros A skip limit l rows H Hlimit. unfold sample_page_of in H.
  destruct skip as [s|]; [|done].
  destruct (_ && _); [|done]. injection H as <-.
  rewrite length_take. lia.
Qed.

Lemma sample_round_trip n :
  sample_parseInt (sample_Number_toString n) = Some n.
Proof.
  unfold sample_parseInt, sample_Number_toString.
  destruct n as [|p|p].
  - reflexivity.
  - rewrite DecimalString.NilZero.isi.
    + cbn. f_equal. apply (DecimalZ.of_to (Z.pos p)).
    + cbn. intros [= H]. by apply DecimalPos.Unsigned.to_uint_nonnil in H.
    + done.
  - rewrite DecimalString.NilZero.isi.
    + cbn. f_equal. apply (DecimalZ.of_to (Z.neg p)).
    + done.
    + cbn. intros [= H]. by apply DecimalPos.Unsigned.to_uint_nonnil in H.
Qed.

Lemma sample_limit_reparses :
  limit_reparses sample_parseInt sample_Number_toString.
Proof. intros n _. apply sample_round_trip. Qed.

Lemma sample_page_reparses :
  page_reparses sample_parseInt sample_Number_toString.
Proof. intros n Hn. exists n. split; [apply sample_round_trip|done]. Qed.

Lemma sample_ids_unique x y :
  x ∈ users sample_db → y ∈ users sample_db → User.id x = User.id y → x = y.
Proof.
  intros Hx Hy. cbn in Hx, Hy.
  repeat (apply elem_of_cons in Hx as [->|Hx]);
    repeat (apply elem_of_cons in Hy as [->|Hy]);
    try (by apply elem_of_nil in Hx); try (by apply elem_of_nil in Hy);
    try done; by vm_compute.
Qed.

Lemma sample_parents_present : parents_present (comments sample_db).
Proof.
  intros c p Hc Hp. cbn in Hc.
  repeat (apply elem_of_cons in Hc as [->|Hc]);
    try (by apply elem_of_nil in Hc); cbn in Hp; try done.
  injection Hp as <-. cbn. by left.
Qed.

Lemma sample_follows_wellformed : follows_wellformed sample_db.
Proof.
  split.
  - intros f Hf. by apply elem_of_nil in Hf.
  - intros f g Hf. by apply elem_of_nil in Hf.
Qed.

Lemma sample_blocks_unique : blocks_unique sample_db.
Proof. intros x y Hx. by apply elem_of_nil in Hx. Qed.

(** ** The further properties at work on the sample store *)

(** Alice rewrites her notes. *)
Lemma updateDoc_by_owner_witness :
  doc_findUnique "cdoc0000001"
    (db (snd (updateDoc 2000
                (request alice "cdoc0000001"
                   notes_kept_private)
                sample_world)))
  = Some (Doc.mk "cdoc0000001" "Notes" "New body" false 2000 alice).
Proof.
  apply (proj1 (proj2
    (updateDoc_by_owner 2000
       (request alice "cdoc0000001"
          notes_kept_private)
       sample_world (session alice) sample_doc
       {| in_title := "Notes"; in_content := "New body";
          in_isPublic := false |}
       eq_refl eq_refl eq_refl ltac:(vm_compute; reflexivity)))).
Defined.

(** Alice rewrites her private notes and does not mention visibility. *)
Lemma updateDoc_publishes_by_default_witness :
  ∃ new,
    doc_findUnique "cdoc0000001"
      (db (snd (updateDoc 2000
                  (request alice "cdoc0000001"
                     notes_rewritten)
                  sample_world)))
    = Some new
    ∧ Doc.isPublic new = true.
Proof.
  apply (updateDoc_publishes_by_default 2000
           (request alice "cdoc0000001"
              notes_rewritten)
           sample_world (session alice) sample_doc
           {| in_title := "Notes"; in_content := "New body";
              in_isPublic := true |}
           eq_refl eq_refl eq_refl ltac:(vm_compute; reflexivity)
           ltac:(vm_compute; reflexivity)).
Defined.

(** The first comment of the sample store goes, and its reply with it. *)
Lemma delete_comments_keeps_parents_witness :
  parents_present
    (comments (delete_comments (λ c, Comment.id c = "ccomment001") sample_db)).
Proof.
  apply (proj1 (delete_comments_keeps_parents
                  (λ c, Comment.id c = "ccomment001") sample_db
                  sample_parents_present)).
Defined.

(** Bob sends an update without content. *)
Lemma updateComment_checks_content_first_witness :
  updateComment (request bob "ccomment001" ∅) sample_world
  = (Sent (Json 400 (Error "Content is required")), sample_world).
Proof.
  apply (proj1 (updateComment_checks_content_first
                  (request bob "ccomment001" ∅) sample_world)).
  reflexivity.
Defined.

(** Carol edits the comment of Bob. *)
Lemma updateComment_by_author_witness :
  updateComment (request carol "ccomment001" edited)
    sample_world
  = (Sent (Json 403 (Error "Access denied")), sample_world).
Proof.
  apply (proj1 (updateComment_by_author
                  (request carol "ccomment001" edited)
                  sample_world (session carol)
                  (Comment.mk "ccomment001" "first" bob None
                     (Some "cdoc0000001") None None)
                  "edited" eq_refl eq_refl
                  ltac:(vm_compute; discriminate)
                  ltac:(vm_compute; lia)
                  ltac:(vm_compute; reflexivity))).
  vm_compute. discriminate.
Defined.

(** Bob deletes his comment. *)
Lemma deleteComment_by_author_witness :
  comment_findUnique "ccomment001"
    (db (snd (deleteComment (request bob "ccomment001" ∅) sample_world)))
  = None.
Proof.
  apply (proj1 (proj2
    (proj2 (proj2 (deleteComment_by_author (request bob "ccomment001" ∅)
                     sample_world (session bob) eq_refl)
              (Comment.mk "ccomment001" "first" bob None
                 (Some "cdoc0000001") None None)
              ltac:(vm_compute; reflexivity))
       eq_refl))).
Defined.

(** Bob follows Alice before the live channel is up. *)
Lemma toggleFollow_failed_emit_keeps_the_edge_witness :
  fst (toggleFollow (request bob alice ∅) offline_world)
  = Sent (Json 500 (Error "Internal server error"))
  ∧ follows_edge bob alice
      (db (snd (toggleFollow (request bob alice ∅) offline_world)))
    = true.
Proof.
  pose proof (toggleFollow_failed_emit_keeps_the_edge
                (request bob alice ∅) offline_world (session bob) eq_refl
                ltac:(vm_compute; discriminate)
                ltac:(vm_compute; eexists; reflexivity)
                ltac:(vm_compute; eexists; reflexivity)
                ltac:(vm_compute; reflexivity) eq_refl) as (H1 & H2 & _).
  exact (conj H1 H2).
Defined.

(** Bob follows Alice and asks whether he does. *)
Lemma checkFollow_agrees_with_toggle_witness :
  checkFollow (request bob alice ∅)
    (snd (toggleFollow (request bob alice ∅) sample_world))
  = (Next true, snd (toggleFollow (request bob alice ∅) sample_world)).
Proof.
  apply (proj1 (checkFollow_agrees_with_toggle
                  (request bob alice ∅) sample_world
                  (snd (toggleFollow (request bob alice ∅) sample_world))
                  (session bob) true "Followed successfully" eq_refl
                  sample_follows_wellformed
                  ltac:(vm_compute; reflexivity))).
Defined.

Lemma toggleFollow_keeps_follows_wellformed_witness :
  follows_wellformed
    (db (snd (toggleFollow (request bob alice ∅) sample_world))).
Proof.
  apply (proj1 (toggleFollow_keeps_follows_wellformed
                  (request bob alice ∅) sample_world
                  sample_follows_wellformed)).
Defined.

(** Bob blocks Alice and asks whether he has. *)
Lemma checkBlockStatus_agrees_with_toggle_witness :
  checkBlockStatus (request bob alice ∅)
    (snd (toggleBlock sample_is_cuid
            (request bob "" (block_of alice)) sample_world))
  = (Next true,
     snd (toggleBlock sample_is_cuid
            (request bob "" (block_of alice)) sample_world)).
Proof.
  apply (proj1 (checkBlockStatus_agrees_with_toggle sample_is_cuid
                  (request bob "" (block_of alice))
                  (request bob alice ∅) sample_world
                  (snd (toggleBlock sample_is_cuid
                          (request bob "" (block_of alice))
                          sample_world))
                  (session bob) alice "User blocked successfully" true
                  eq_refl ltac:(vm_compute; reflexivity) eq_refl eq_refl
                  sample_blocks_unique
                  ltac:(vm_compute; reflexivity))).
Defined.

(** Bob follows and blocks Dave, who has no account. *)
Lemma unknown_target_follow_404_block_500_witness :
  toggleFollow (request bob dave ∅) sample_world
  = (Sent (Json 404 (Error "User not found")), sample_world)
  ∧ toggleBlock sample_is_cuid (request bob dave (block_of dave))
      sample_world
    = (Sent (Json 500 (Error "Failed to toggle block status")), sample_world).
Proof.
  pose proof (unknown_target_follow_404_block_500 sample_is_cuid
                (request bob dave (block_of dave)) sample_world
                (session bob) dave eq_refl
                ltac:(vm_compute; discriminate)
                ltac:(vm_compute; reflexivity)
                ltac:(vm_compute; reflexivity)) as [H1 H2].
  split.
  - exact (H1 eq_refl).
  - exact (H2 ltac:(vm_compute; reflexivity) ltac:(vm_compute; reflexivity)).
Defined.

(** Bob asks for the reports. *)
Lemma report_review_is_admin_only_witness :
  getReports sample_parseInt sample_page_of no_query (request bob "" ∅)
    review_world
  = (Sent (Json 403 (Error "Access denied")), review_world).
Proof.
  apply (proj1 (report_review_is_admin_only sample_parseInt sample_page_of no_query
                  (request bob "" ∅) review_world (session bob) eq_refl
                  ltac:(vm_compute; discriminate))).
Defined.

(** Dave resolves the report of Bob. *)
Lemma updateReportStatus_by_admin_witness :
  report_findUnique "creport0001"
    (db (snd (updateReportStatus
                {| user := Some admin; param := "creport0001";
                   body := resolved |}
                review_world)))
  = Some (with_status RESOLVED sample_report).
Proof.
  apply (proj1 (proj2
    (proj2 (updateReportStatus_by_admin
              {| user := Some admin; param := "creport0001";
                 body := resolved |}
              review_world admin eq_refl eq_refl)
       RESOLVED sample_report
       ltac:(vm_compute; reflexivity) ltac:(vm_compute; reflexivity)))).
Defined.

(** Bob lists the documents: the guide of Alice, not her notes. *)
Lemma getAllDocs_lists_public_docs_only_witness :
  @total Body
    {| items := [format_doc public_doc (Some bob) sample_db]; total := 1;
       pages := Some 1%Z; currentPage := Some 1%Z; hasMore := Some false |}
  = length (filter (λ x, Doc.isPublic x = true) (docs sample_db)).
Proof.
  apply (proj1 (proj2
    (getAllDocs_lists_public_docs_only sample_parseInt sample_page_of no_query
       (request bob "" ∅) sample_world sample_world
       {| items := [format_doc public_doc (Some bob) sample_db]; total := 1;
          pages := Some 1%Z; currentPage := Some 1%Z; hasMore := Some false |}
       sample_page_within ltac:(vm_compute; reflexivity)))).
Defined.

(** Bob lists the documents of Alice. *)
Lemma getUserDocs_private_docs_for_their_author_witness :
  @total Body
    {| items := [format_doc public_doc (Some bob) sample_db]; total := 1;
       pages := Some 1%Z; currentPage := Some 1%Z; hasMore := Some false |}
  = length
      (filter
         (λ x, Doc.authorId x = alice
               ∧ (Doc.isPublic x = true ∨ Some bob = Some alice))
         (docs sample_db)).
Proof.
  apply (proj2 (proj2
    (proj2 (getUserDocs_private_docs_for_their_author sample_parseInt
              sample_page_of no_query (request bob alice ∅) sample_world
              sample_page_within)
       (sample_row alice (Some "hello"))
       {| items := [format_doc public_doc (Some bob) sample_db]; total := 1;
          pages := Some 1%Z; currentPage := Some 1%Z; hasMore := Some false |}
       sample_world ltac:(vm_compute; reflexivity)
       ltac:(vm_compute; reflexivity)))).
Defined.

(** The comments on the notes of Alice, asked for without a target. *)
Lemma getComments_top_level_of_target_witness :
  getComments sample_parseInt sample_page_of no_query sample_world
  = (Sent (Json 400 (Error "Content ID is required")), sample_world).
Proof.
  apply (proj1 (getComments_top_level_of_target sample_parseInt sample_page_of
                  no_query sample_world sample_page_within));
    reflexivity.
Defined.

(** A thousand documents are asked for and fifty are granted. *)
Lemma validatePagination_rejects_negatives_only_witness :
  granted_query !! "limit" = Some "50".
Proof.
  pose proof (proj2 (validatePagination_rejects_negatives_only
                       sample_parseInt sample_Number_toString greedy_query)
                granted_query ltac:(vm_compute; reflexivity))
    as (_ & Hlimit & _).
  exact Hlimit.
Defined.

Lemma docs_listing_at_most_50_witness :
  length
    (@items Body
       {| items := [format_doc public_doc (Some bob) sample_db]; total := 1;
          pages := Some 1%Z; currentPage := Some 1%Z;
          hasMore := Some false |})
  ≤ 50.
Proof.
  apply (proj1 (docs_listing_at_most_50 sample_parseInt sample_Number_toString
                  sample_page_of greedy_query (request bob "" ∅) sample_world
                  sample_world
                  {| items := [format_doc public_doc (Some bob) sample_db];
                     total := 1; pages := Some 1%Z; currentPage := Some 1%Z;
                     hasMore := Some false |}
                  sample_limit_reparses sample_page_reparses
                  sample_page_bounded
                  ltac:(vm_compute; reflexivity))).
Defined.

(** A new document of Alice is announced to Bob, to Carol and to her. *)
Lemma emitToFollowers_reaches_followers_and_author_witness :
  room
  <$> default []
        (io (snd (emitToFollowers alice "new-doc"
                    (FollowerPayload (sample_row alice None)) followed_world)))
  = [bob; carol; alice].
Proof.
  rewrite (proj2 (proj2 (proj2
    (emitToFollowers_reaches_followers_and_author alice "new-doc"
       (FollowerPayload (sample_row alice None)) followed_world)))
    [] eq_refl ltac:(vm_compute; discriminate) ltac:(discriminate)).
  reflexivity.
Defined.

(** The bug of Alice, before and after the sweep. *)
Lemma expired_bug_is_410_until_swept_witness :
  createComment 6000 (request bob "" comment_on_bug) sample_world
  = (Sent (Json 410 (Error "Bug report has expired")), sample_world)
  ∧ createComment 7000 (request bob "" comment_on_bug)
      (sweep 6000 sample_world)
    = (Sent (Json 404 (Error "Bug not found")), sweep 6000 sample_world).
Proof.
  apply (expired_bug_is_410_until_swept 6000 7000
           (request bob "" comment_on_bug) sample_world (session bob)
           {| c_content := "hi"; c_snippetId := None; c_docId := None;
              c_bugId := Some "cbug0000001"; c_parentId := None |}
           "cbug0000001" sample_bug eq_refl eq_refl eq_refl
           ltac:(discriminate) eq_refl ltac:(vm_compute; reflexivity)).
  intros b Hb _. cbn in Hb. by apply list_elem_of_singleton in Hb.
Defined.

(** After the burst the connection is in the room of Alice. *)
Lemma rooms_come_from_joins_witness :
  alice ∈ rooms (socket connect)
  ∨ (alice ≠ "" ∧ String.length alice ≤ 50
     ∧ ∃ t e, (t, e) ∈ processed burst connect ∧ joins e alice).
Proof.
  apply (rooms_come_from_joins burst connect alice).
  apply (bool_decide_unpack _). vm_compute. exact I.
Defined.

(** A fresh connection joins the room of Alice and leaves it as if it
    were a content room. *)
Lemma leave_content_room_leaves_a_user_room_witness :
  alice ∈ rooms (receive (join_user_room (JStr alice)) (socket connect))
  ∧ alice
    ∉ rooms (receive (leave_content_room (JStr alice))
               (receive (join_user_room (JStr alice)) (socket connect))).
Proof.
  apply (leave_content_room_leaves_a_user_room (socket connect) alice
           ltac:(vm_compute; discriminate) ltac:(vm_compute; lia)
           ltac:(vm_compute; reflexivity) ltac:(vm_compute; reflexivity)).
Defined.

Lemma limits_are_per_event_name_witness :
  passes (leave_content_room (JStr alice))
    (receive (join_content_room (JStr alice)) (socket connect))
  = passes (leave_content_room (JStr alice)) (socket connect).
Proof.
  apply (limits_are_per_event_name (leave_content_room (JStr alice))
           (join_content_room (JStr alice)) (socket connect)
           ltac:(vm_compute; discriminate)).
Defined.

(** Carol signs in again: her row is updated, none is added. *)
Lemma verify_upserts_by_account_id_witness :
  match verify sample_is_email sample_is_url sample_Date_parse 9000
          (sample_profile carol None) sample_world with
  | (Next obj, w') =>
      User.id obj = carol ∧ User.role obj = USER
      ∧ length (users (db w')) = 3
  | _ => False
  end.
Proof.
  pose proof (proj1 (verify_upserts_by_account_id sample_is_email
                       sample_is_url sample_Date_parse 9000
                       (sample_profile carol None) sample_world
                       sample_ids_unique)) as H.
  vm_compute in H. vm_compute.
  destruct H as (_ & _ & Hid & Hrole & _ & _ & Hlen & _). done.
Defined.
